(** * lan-play-bridge launcher: lifecycle supervision

    A shallow embedding of [src/launcher/launcher.js].  The launcher is a
    single-threaded Node.js program: a handful of module-level variables,
    and callbacks that the event loop runs one at a time.  Each callback is
    embedded as a computation in a state-and-trace monad over those
    variables; what a callback does to the outside world (log lines,
    WebSocket frames, signals to the child, timers, file and network
    requests) is recorded as a list of effects in the order the code issues
    them. *)

From Stdlib Require Import ZArith.
From stdpp Require Import gmap strings list fin_maps pretty.
From Equations Require Import Equations.

Local Open Scope string_scope.
Local Open Scope list_scope.
Local Open Scope Z_scope.

(** ** Values exchanged with the outside world *)

(** The result of [JSON.parse]: a JSON value.  Object members are kept in
    source order; [JSON.parse] lets the last duplicate of a key win.  The
    launcher never looks at a number, so an integer stands for it. *)
#[warnings="-register-all"]
Inductive json :=
| JNull
| JBool (b : bool)
| JNum (n : Z)
| JStr (s : string)
| JArr (items : list json)
| JObj (members : list (string * json)).

(** The object built by [getStatus()]. *)
Record status := {
  running : bool;
  st_relay : string;
  st_platform : string;
  st_version : string;
}.

(** The objects handed to [JSON.stringify] before [ws.send]. *)
Inductive server_msg :=
| MsgStatus (data : status)          (* { type: 'status', data: getStatus() } *)
| MsgHeartbeatAck                    (* { type: 'heartbeat-ack' } *)
| MsgShutdown (reason : string).     (* { type: 'shutdown', reason: ... } *)

(** Callbacks handed to [setTimeout]. *)
Inductive timer_action :=
| TRestart      (* setTimeout(startLanPlay, 3000) *)
| TExit.        (* setTimeout(function () { log('Goodbye.'); process.exit(0); }, 1000) *)

Inductive effect :=
| Log (msg : string)
| WsSend (ws : nat) (m : server_msg)
| WsClose (ws : nat) (code : option (Z * string))
| Spawn (child : nat) (path : string) (args : list string)
| Kill (child : nat)
| SetTimeout (a : timer_action) (delay : Z)
| Exit (code : Z)
| FsCreateWriteStream (path : string)
| FsPipe (path : string) (body : string)
| FsChmod (path : string) (mode : Z)
| FsUnlink (path : string)
| HttpGet (secure : bool) (url : string).

Global Instance timer_action_eq_dec : EqDecision timer_action.
Proof. solve_decision. Defined.
Global Instance status_eq_dec : EqDecision status.
Proof. solve_decision. Defined.
Global Instance server_msg_eq_dec : EqDecision server_msg.
Proof. solve_decision. Defined.
Global Instance effect_eq_dec : EqDecision effect.
Proof. solve_decision. Defined.

(** ** Program state *)

(** A [ChildProcess] object, as far as the launcher looks at it. *)
Record proc := { pid : nat; killed : bool }.

(** A [WebSocket] object: its [readyState] (0 CONNECTING, 1 OPEN,
    2 CLOSING, 3 CLOSED) and whether the launcher has attached its
    ['message'] and ['close'] listeners to it. *)
Record websocket := { readyState : Z; listening : bool }.

(** The module-level variables of launcher.js ("State"), followed by the
    part of the heap they point into: the WebSocket objects, shared between
    [connectedClients] and the closures of the listeners, and the counters
    from which [spawn] and the WebSocket server take fresh objects. *)
Record state := {
  lanPlayProc : option proc;
  lanPlayRunning : bool;
  lastHeartbeat : Z;
  hasReceivedHeartbeat : bool;
  lastActivity : Z;
  shuttingDown : bool;
  connectedClients : list nat;      (* a JS Set: insertion order, no duplicates *)
  sockets : gmap nat websocket;
  nextChild : nat;
  nextSocket : nat;
}.

Definition set_lanPlayProc (v : option proc) (s : state) : state :=
  {| lanPlayProc := v; lanPlayRunning := lanPlayRunning s;
     lastHeartbeat := lastHeartbeat s; hasReceivedHeartbeat := hasReceivedHeartbeat s;
     lastActivity := lastActivity s; shuttingDown := shuttingDown s;
     connectedClients := connectedClients s; sockets := sockets s;
     nextChild := nextChild s; nextSocket := nextSocket s |}.

Definition set_lanPlayRunning (v : bool) (s : state) : state :=
  {| lanPlayProc := lanPlayProc s; lanPlayRunning := v;
     lastHeartbeat := lastHeartbeat s; hasReceivedHeartbeat := hasReceivedHeartbeat s;
     lastActivity := lastActivity s; shuttingDown := shuttingDown s;
     connectedClients := connectedClients s; sockets := sockets s;
     nextChild := nextChild s; nextSocket := nextSocket s |}.

Definition set_lastHeartbeat (v : Z) (s : state) : state :=
  {| lanPlayProc := lanPlayProc s; lanPlayRunning := lanPlayRunning s;
     lastHeartbeat := v; hasReceivedHeartbeat := hasReceivedHeartbeat s;
     lastActivity := lastActivity s; shuttingDown := shuttingDown s;
     connectedClients := connectedClients s; sockets := sockets s;
     nextChild := nextChild s; nextSocket := nextSocket s |}.

Definition set_hasReceivedHeartbeat (v : bool) (s : state) : state :=
  {| lanPlayProc := lanPlayProc s; lanPlayRunning := lanPlayRunning s;
     lastHeartbeat := lastHeartbeat s; hasReceivedHeartbeat := v;
     lastActivity := lastActivity s; shuttingDown := shuttingDown s;
     connectedClients := connectedClients s; sockets := sockets s;
     nextChild := nextChild s; nextSocket := nextSocket s |}.

Definition set_lastActivity (v : Z) (s : state) : state :=
  {| lanPlayProc := lanPlayProc s; lanPlayRunning := lanPlayRunning s;
     lastHeartbeat := lastHeartbeat s; hasReceivedHeartbeat := hasReceivedHeartbeat s;
     lastActivity := v; shuttingDown := shuttingDown s;
     connectedClients := connectedClients s; sockets := sockets s;
     nextChild := nextChild s; nextSocket := nextSocket s |}.

Definition set_shuttingDown (v : bool) (s : state) : state :=
  {| lanPlayProc := lanPlayProc s; lanPlayRunning := lanPlayRunning s;
     lastHeartbeat := lastHeartbeat s; hasReceivedHeartbeat := hasReceivedHeartbeat s;
     lastActivity := lastActivity s; shuttingDown := v;
     connectedClients := connectedClients s; sockets := sockets s;
     nextChild := nextChild s; nextSocket := nextSocket s |}.

Definition set_connectedClients (v : list nat) (s : state) : state :=
  {| lanPlayProc := lanPlayProc s; lanPlayRunning := lanPlayRunning s;
     lastHeartbeat := lastHeartbeat s; hasReceivedHeartbeat := hasReceivedHeartbeat s;
     lastActivity := lastActivity s; shuttingDown := shuttingDown s;
     connectedClients := v; sockets := sockets s;
     nextChild := nextChild s; nextSocket := nextSocket s |}.

Definition set_sockets (v : gmap nat websocket) (s : state) : state :=
  {| lanPlayProc := lanPlayProc s; lanPlayRunning := lanPlayRunning s;
     lastHeartbeat := lastHeartbeat s; hasReceivedHeartbeat := hasReceivedHeartbeat s;
     lastActivity := lastActivity s; shuttingDown := shuttingDown s;
     connectedClients := connectedClients s; sockets := v;
     nextChild := nextChild s; nextSocket := nextSocket s |}.

Definition set_nextChild (v : nat) (s : state) : state :=
  {| lanPlayProc := lanPlayProc s; lanPlayRunning := lanPlayRunning s;
     lastHeartbeat := lastHeartbeat s; hasReceivedHeartbeat := hasReceivedHeartbeat s;
     lastActivity := lastActivity s; shuttingDown := shuttingDown s;
     connectedClients := connectedClients s; sockets := sockets s;
     nextChild := v; nextSocket := nextSocket s |}.

Definition set_nextSocket (v : nat) (s : state) : state :=
  {| lanPlayProc := lanPlayProc s; lanPlayRunning := lanPlayRunning s;
     lastHeartbeat := lastHeartbeat s; hasReceivedHeartbeat := hasReceivedHeartbeat s;
     lastActivity := lastActivity s; shuttingDown := shuttingDown s;
     connectedClients := connectedClients s; sockets := sockets s;
     nextChild := nextChild s; nextSocket := v |}.

(** ** The callback monad: state passing plus a trace of effects *)

Definition M (A : Type) : Type := state -> A * state * list effect.

Definition ret {A} (a : A) : M A := fun s => (a, s, []).

Definition bind {A B} (m : M A) (k : A -> M B) : M B :=
  fun s =>
    let r1 := m s in
    let r2 := k (fst (fst r1)) (snd (fst r1)) in
    (fst (fst r2), snd (fst r2), snd r1 ++ snd r2).

Definition get : M state := fun s => (s, s, []).
Definition modify (f : state -> state) : M unit := fun s => (tt, f s, []).
Definition emit (e : effect) : M unit := fun s => (tt, s, [e]).

Declare Scope js_scope.
Delimit Scope js_scope with js.
Notation "x <~ m ;; k" := (bind m (fun x => k))
  (at level 100, m at next level, right associativity) : js_scope.
Notation "m ;;; k" := (bind m (fun _ => k))
  (at level 100, right associativity) : js_scope.
Local Open Scope js_scope.

(** [for (var x of xs) body] over a collection the body does not change. *)
Fixpoint for_of {A} (xs : list A) (body : A -> M unit) : M unit :=
  match xs with
  | [] => ret tt
  | x :: rest => body x ;;; for_of rest body
  end.

Definition when (b : bool) (m : M unit) : M unit := if b then m else ret tt.

(** State and trace of running a callback. *)
Definition exec {A} (m : M A) (s : state) : state := snd (fst (m s)).
Definition trace {A} (m : M A) (s : state) : list effect := snd (m s).
Definition value {A} (m : M A) (s : state) : A := fst (fst (m s)).

(** [n] calls of the same callback in a row. *)
Fixpoint times (n : nat) (m : M unit) : M unit :=
  match n with
  | O => ret tt
  | S k => m ;;; times k m
  end.

(** A callback leaves a component of the state alone. *)
Definition keeps {X A} (f : state -> X) (m : M A) : Prop :=
  forall s, f (exec m s) = f s.

(** A callback maintains a property of the state. *)
Definition preserves {A} (P : state -> Prop) (m : M A) : Prop :=
  forall s, P s -> P (exec m s).

(** Every effect of a callback is of a given kind. *)
Definition emits_only {A} (P : effect -> Prop) (m : M A) : Prop :=
  forall s e, e ∈ trace m s -> P e.

(** Counting effects of one kind in a trace. *)
Definition count_if (p : effect -> bool) (es : list effect) : nat :=
  length (List.filter p es).

Definition is_shutdown_to (ws : nat) (e : effect) : bool :=
  match e with
  | WsSend w (MsgShutdown _) => bool_decide (w = ws)
  | _ => false
  end.

Definition is_send (e : effect) : bool :=
  match e with
  | WsSend _ _ => true
  | _ => false
  end.

Definition is_kill (e : effect) : bool :=
  match e with
  | Kill _ => true
  | _ => false
  end.

(** The two effects of tearing down: a signal to the child and a shutdown
    message to a browser. *)
Definition is_teardown (e : effect) : bool :=
  match e with
  | Kill _ => true
  | WsSend _ (MsgShutdown _) => true
  | _ => false
  end.

Definition is_spawn (e : effect) : bool :=
  match e with
  | Spawn _ _ _ => true
  | _ => false
  end.

Definition is_log (e : effect) : bool :=
  match e with
  | Log _ => true
  | _ => false
  end.

(** [String.prototype.trim] on text whose white space is ASCII: tab, line
    feed, vertical tab, form feed, carriage return and space are dropped
    from both ends.  JavaScript's [trim] also drops the other Unicode
    white space; the properties below take [trim] as a parameter, and
    [trim_ascii] stands for it at inputs that are ASCII. *)
Definition is_space (c : Ascii.ascii) : bool :=
  let n := Ascii.nat_of_ascii c in
  ((9 <=? n) && (n <=? 13) || (n =? 32))%nat.

Fixpoint trim_start (s : string) : string :=
  match s with
  | String c rest => if is_space c then trim_start rest else s
  | EmptyString => EmptyString
  end.

Fixpoint trim_end (s : string) : string :=
  match s with
  | String c rest =>
      match trim_end rest with
      | EmptyString => if is_space c then EmptyString else String c EmptyString
      | kept => String c kept
      end
  | EmptyString => EmptyString
  end.

Definition trim_ascii (s : string) : string := trim_end (trim_start s).

(** A chunk of output holding one empty line. *)
Definition blank_line : string := String (Ascii.ascii_of_nat 10) EmptyString.

(** An installation to try things on. *)
Definition demo_relay : string := "example.com:11451".
Definition demo_platform : string := "linux".
Definition demo_path : string := "/opt/lan-play-linux".

(** ** launcher.js *)

Record config := {
  relay : string;
  wsPort : Z;
  heartbeatTimeoutMs : Z;
  inactivityTimeoutMs : Z;
  checkIntervalMs : Z;
  lanPlayVersion : string;
}.

Section Launcher.

(** What the launcher takes from its environment at load time: the relay
    address ([bakedConfig.relay || parseArg('--relay')], known to be truthy
    once the module has loaded), [process.platform], the path computed by
    [path.join(BASE_DIR, BINARY_NAME)], and [String.prototype.trim]. *)
Variable relay_arg : string.
Variable PLATFORM : string.
Variable BINARY_PATH : string.
Variable trim : string -> string.

Definition CONFIG : config := {|
  relay := relay_arg;
  wsPort := 25190;
  heartbeatTimeoutMs := 30 * 1000;
  inactivityTimeoutMs := 10 * 60 * 1000;
  checkIntervalMs := 5 * 1000;
  lanPlayVersion := "0.2.3";
|}.

Definition BINARY_NAME : string :=
  if String.eqb PLATFORM "win32" then "lan-play-win64.exe"
  else if String.eqb PLATFORM "darwin" then "lan-play-macos"
  else "lan-play-linux".

Definition BINARY_URL : string :=
  "https://github.com/spacemeowx2/switch-lan-play/releases/download/v"
  +:+ lanPlayVersion CONFIG +:+ "/" +:+ BINARY_NAME.

(** [log(msg)]: the time-of-day prefix is the console's business. *)
Definition log (msg : string) : M unit := emit (Log msg).

Definition getStatus : M status :=
  s <~ get ;;
  ret {| running := lanPlayRunning s;
         st_relay := relay CONFIG;
         st_platform := PLATFORM;
         st_version := lanPlayVersion CONFIG |}.

(** [ws.readyState]; every socket the launcher holds is in the heap. *)
Definition ready_state (ws : nat) (s : state) : Z :=
  match sockets s !! ws with
  | Some w => readyState w
  | None => 3
  end.

Definition wsSend (ws : nat) (obj : server_msg) : M unit :=
  s <~ get ;;
  when (ready_state ws s =? 1) (emit (WsSend ws obj)).

(** [ws.close(...)] of the ws library: an OPEN socket starts its closing
    handshake; a socket already CLOSING or CLOSED stays as it is. *)
Definition ws_close (ws : nat) (code : option (Z * string)) : M unit :=
  emit (WsClose ws code) ;;;
  modify (fun s =>
    match sockets s !! ws with
    | Some w =>
        if readyState w =? 1
        then set_sockets (<[ws := {| readyState := 2; listening := listening w |}]> (sockets s)) s
        else s
    | None => s
    end).

Definition broadcastStatus : M unit :=
  data <~ getStatus ;;
  s <~ get ;;
  for_of (connectedClients s) (fun ws =>
    s' <~ get ;;
    when (ready_state ws s' =? 1) (emit (WsSend ws (MsgStatus data)))).

(** *** Auto-shutdown *)

(** [shutdown()].  [kill()] sets the [killed] flag of the child when it
    has sent the signal (for a child that has already exited, Node sends
    none and leaves the flag false: the model sets it in both cases).
    Nothing reads the flag afterwards, [shutdown] being guarded by
    [shuttingDown]. *)
Definition shutdown : M unit :=
  s <~ get ;;
  if shuttingDown s then ret tt
  else
    modify (set_shuttingDown true) ;;;
    log "Shutting down..." ;;;
    for_of (connectedClients s) (fun ws =>
      wsSend ws (MsgShutdown "timeout") ;;;
      ws_close ws None) ;;;
    match lanPlayProc s with
    | Some p =>
        when (negb (killed p))
          (emit (Kill (pid p)) ;;;
           modify (set_lanPlayProc (Some {| pid := pid p; killed := true |})))
    | None => ret tt
    end ;;;
    emit (SetTimeout TExit 1000).

Definition heartbeat_log : string :=
  "No heartbeat for " +:+ pretty (heartbeatTimeoutMs CONFIG / 1000)
  +:+ "s. Browser tab likely closed.".

Definition inactivity_log : string :=
  "No activity for " +:+ pretty (inactivityTimeoutMs CONFIG / 60000) +:+ " minutes.".

(** The callback of [setInterval] in [startShutdownMonitor], run with
    [Date.now() = now]. *)
Definition monitor_tick (now : Z) : M unit :=
  s <~ get ;;
  if shuttingDown s then ret tt
  else if hasReceivedHeartbeat s && (now - lastHeartbeat s >? heartbeatTimeoutMs CONFIG)
  then log heartbeat_log ;;; shutdown
  else if now - lastActivity s >? inactivityTimeoutMs CONFIG
  then log inactivity_log ;;; shutdown
  else ret tt.

Inductive signal := SIGINT | SIGTERM.

Definition on_signal (sig : signal) : M unit :=
  log (match sig with SIGINT => "Received SIGINT." | SIGTERM => "Received SIGTERM." end) ;;;
  shutdown.

(** The 1000 ms timer set by [shutdown]. *)
Definition on_exit_timer : M unit :=
  log "Goodbye." ;;; emit (Exit 0).

(** *** lan-play subprocess *)

(** [startLanPlay()], run with [Date.now() = now].  [spawn] returns a new
    [ChildProcess] object; the four [.on(...)] calls attach the listeners
    embedded below as [on_stdout], [on_stderr], [on_proc_close] and
    [on_proc_error].  The listeners read module-level variables only, so
    they are the same for every child. *)
Definition startLanPlay (now : Z) : M unit :=
  log ("Starting lan-play → " +:+ relay CONFIG) ;;;
  s <~ get ;;
  let child := nextChild s in
  emit (Spawn child BINARY_PATH ["--relay-server-addr"; relay CONFIG]) ;;;
  modify (set_nextChild (S child)) ;;;
  modify (set_lanPlayProc (Some {| pid := child; killed := false |})) ;;;
  modify (set_lanPlayRunning true) ;;;
  modify (set_lastActivity now) ;;;
  broadcastStatus.

Definition on_stdout (now : Z) (data : string) : M unit :=
  let line := trim data in
  when (negb (String.eqb line "")) (log ("[lan-play] " +:+ line)) ;;;
  modify (set_lastActivity now) ;;;
  broadcastStatus.

Definition on_stderr (now : Z) (data : string) : M unit :=
  let line := trim data in
  when (negb (String.eqb line "")) (log ("[lan-play] " +:+ line)) ;;;
  modify (set_lastActivity now).

(** ['lan-play exited with code ' + code]: [code] is a number, or [null]
    when the child was ended by a signal. *)
Definition show_code (code : option Z) : string :=
  match code with
  | Some c => pretty c
  | None => "null"
  end.

Definition on_proc_close (code : option Z) : M unit :=
  log ("lan-play exited with code " +:+ show_code code) ;;;
  modify (set_lanPlayRunning false) ;;;
  broadcastStatus ;;;
  s <~ get ;;
  when (negb (shuttingDown s))
    (log "lan-play crashed. Restarting in 3 seconds..." ;;;
     emit (SetTimeout TRestart 3000)).

Definition on_proc_error (message : string) : M unit :=
  log ("Failed to start lan-play: " +:+ message) ;;;
  modify (set_lanPlayRunning false).

(** *** WebSocket server *)

(** JavaScript truthiness of a header value: [undefined] and the empty
    string are falsy. *)
Definition truthy (v : option string) : bool :=
  match v with
  | Some x => negb (String.eqb x "")
  | None => false
  end.

(** [Set.prototype.add] and [Set.prototype.delete]. *)
Definition set_add (x : nat) (l : list nat) : list nat :=
  if bool_decide (x ∈ l) then l else l ++ [x].

Definition set_delete (x : nat) (l : list nat) : list nat :=
  filter (fun y => y ≠ x) l.

(** The ['connection'] listener of the server, for the socket [ws] and
    [forwarded = req.headers['x-forwarded-for']]. *)
Definition on_connection (now : Z) (ws : nat) (forwarded : option string) : M unit :=
  if truthy forwarded then
    log "Rejected connection with X-Forwarded-For header (possible proxy)" ;;;
    ws_close ws (Some (4003, "Forbidden"))
  else
    log "Browser connected" ;;;
    modify (fun s => set_connectedClients (set_add ws (connectedClients s)) s) ;;;
    modify (set_lastActivity now) ;;;
    data <~ getStatus ;;
    wsSend ws (MsgStatus data) ;;;
    (* ws.on('message', ...); ws.on('close', ...) *)
    modify (fun s =>
      match sockets s !! ws with
      | Some w => set_sockets (<[ws := {| readyState := readyState w; listening := true |}]> (sockets s)) s
      | None => s
      end).

(** Reading [msg.type].  [null.type] throws a TypeError; a member named
    [type] is found on objects only. *)
Inductive js_get :=
| Throws
| Undefined
| Value (v : json).

Fixpoint lookup_last (k : string) (members : list (string * json)) : option json :=
  match members with
  | [] => None
  | (k', v) :: rest =>
      match lookup_last k rest with
      | Some v' => Some v'
      | None => if String.eqb k' k then Some v else None
      end
  end.

Definition get_type (msg : json) : js_get :=
  match msg with
  | JNull => Throws
  | JObj members =>
      match lookup_last "type" members with
      | Some v => Value v
      | None => Undefined
      end
  | _ => Undefined
  end.

(** [x === 'lit'] for the value read from [msg.type]. *)
Definition strict_eq_str (x : js_get) (lit : string) : bool :=
  match x with
  | Value (JStr v) => String.eqb v lit
  | _ => false
  end.

(** The ['message'] listener of socket [ws].  [parsed] is the outcome of
    [JSON.parse(raw.toString())], [None] when it throws; [now] and [now2]
    are the two readings of [Date.now()]. *)
Definition on_message (now now2 : Z) (ws : nat) (parsed : option json) : M unit :=
  modify (set_lastActivity now) ;;;
  match parsed with
  | None => ret tt
  | Some msg =>
      match get_type msg with
      | Throws => ret tt
      | ty =>
          if strict_eq_str ty "heartbeat" then
            modify (set_lastHeartbeat now2) ;;;
            modify (set_hasReceivedHeartbeat true) ;;;
            wsSend ws MsgHeartbeatAck
          else if strict_eq_str ty "status" then
            data <~ getStatus ;;
            wsSend ws (MsgStatus data)
          else ret tt
      end
  end.

(** The ['close'] listener of socket [ws]. *)
Definition on_ws_close (ws : nat) : M unit :=
  log "Browser disconnected" ;;;
  modify (fun s => set_connectedClients (set_delete ws (connectedClients s)) s).

(** *** The event loop

    Node runs one callback at a time.  An [event] is what the loop picks
    next; [now] is the reading of [Date.now()] while its callback runs. *)

Inductive event :=
| EvMain                                   (* main(): startLanPlay() after the binary is in place *)
| EvStdout (data : string)                 (* lanPlayProc.stdout 'data' *)
| EvStderr (data : string)                 (* lanPlayProc.stderr 'data' *)
| EvProcClose (code : option Z)            (* lanPlayProc 'close' *)
| EvProcError (message : string)           (* lanPlayProc 'error' *)
| EvConnection (forwarded : option string) (* wss 'connection' *)
| EvPeerClosing (ws : nat)                 (* close frame from the peer: no listener *)
| EvMessage (ws : nat) (parsed : option json) (now2 : Z)   (* ws 'message' *)
| EvWsClose (ws : nat)                     (* ws 'close' *)
| EvTick                                   (* the setInterval of startShutdownMonitor *)
| EvSignal (sig : signal)                  (* process 'SIGINT' / 'SIGTERM' *)
| EvTimer (k : nat).                       (* the k-th pending setTimeout comes due *)

(** The server creates the [WebSocket] object, OPEN, before it emits
    ['connection']. *)
Definition new_socket : M nat :=
  s <~ get ;;
  let ws := nextSocket s in
  modify (set_nextSocket (S ws)) ;;;
  modify (fun s => set_sockets (<[ws := {| readyState := 1; listening := false |}]> (sockets s)) s) ;;;
  ret ws.

Definition set_ready (ws : nat) (v : Z) : M unit :=
  modify (fun s =>
    match sockets s !! ws with
    | Some w => set_sockets (<[ws := {| readyState := v; listening := listening w |}]> (sockets s)) s
    | None => s
    end).

Definition is_listening (ws : nat) (s : state) : bool :=
  match sockets s !! ws with
  | Some w => listening w
  | None => false
  end.

(** The callback run for each event other than a timer.  The ws library
    comes first where it acts before the launcher's listener: it creates
    the socket of a new connection, moves a socket to CLOSING and CLOSED,
    and emits ['message'] and ['close'] to the listeners attached to that
    socket, if any.  Nothing restricts the order of events: the properties
    of runs below hold for every run, those a real environment produces
    among them. *)
Definition handler (now : Z) (ev : event) : M unit :=
  match ev with
  | EvMain => startLanPlay now
  | EvStdout data => on_stdout now data
  | EvStderr data => on_stderr now data
  | EvProcClose code => on_proc_close code
  | EvProcError message => on_proc_error message
  | EvConnection forwarded =>
      ws <~ new_socket ;;
      on_connection now ws forwarded
  | EvPeerClosing ws =>
      s <~ get ;;
      when (ready_state ws s =? 1) (set_ready ws 2)
  | EvMessage ws parsed now2 =>
      s <~ get ;;
      when (is_listening ws s && negb (ready_state ws s =? 3))
        (on_message now now2 ws parsed)
  | EvWsClose ws =>
      s <~ get ;;
      when (negb (ready_state ws s =? 3))
        (set_ready ws 3 ;;;
         when (is_listening ws s) (on_ws_close ws))
  | EvTick => monitor_tick now
  | EvSignal sig => on_signal sig
  | EvTimer _ => ret tt
  end.

Definition timer_callback (now : Z) (a : timer_action) : M unit :=
  match a with
  | TRestart => startLanPlay now
  | TExit => on_exit_timer
  end.

(** The launcher together with the loop's pending timers (due time and
    callback) and the exit status once [process.exit] has been called. *)
Record world := {
  prog : state;
  timers : list (Z * timer_action);
  exited : option Z;
}.

Fixpoint scheduled (now : Z) (es : list effect) : list (Z * timer_action) :=
  match es with
  | [] => []
  | SetTimeout a delay :: rest => (now + delay, a) :: scheduled now rest
  | _ :: rest => scheduled now rest
  end.

Fixpoint exit_status (es : list effect) : option Z :=
  match es with
  | [] => None
  | Exit code :: _ => Some code
  | _ :: rest => exit_status rest
  end.

Definition run_callback (now : Z) (m : M unit) (pending : list (Z * timer_action))
    (w : world) : world * list effect :=
  let s' := exec m (prog w) in
  let es := trace m (prog w) in
  ({| prog := s'; timers := pending ++ scheduled now es; exited := exit_status es |}, es).

(** One turn of the loop at time [now].  Nothing runs after
    [process.exit]; a timer runs only once it is due, and then leaves the
    pending list. *)
Definition step (now : Z) (ev : event) (w : world) : world * list effect :=
  match exited w with
  | Some _ => (w, [])
  | None =>
      match ev with
      | EvTimer k =>
          match timers w !! k with
          | Some (due, a) =>
              if due <=? now
              then run_callback now (timer_callback now a) (delete k (timers w)) w
              else (w, [])
          | None => (w, [])
          end
      | _ => run_callback now (handler now ev) (timers w) w
      end
  end.

(** A run: timed events taken in order, with everything the launcher did. *)
Fixpoint run (evs : list (Z * event)) (w : world) : world * list effect :=
  match evs with
  | [] => (w, [])
  | (now, ev) :: rest =>
      let r1 := step now ev w in
      let r2 := run rest (fst r1) in
      (fst r2, snd r1 ++ snd r2)
  end.

(** The state once the module has loaded at time [t0]. *)
Definition init_state (t0 : Z) : state := {|
  lanPlayProc := None;
  lanPlayRunning := false;
  lastHeartbeat := 0;
  hasReceivedHeartbeat := false;
  lastActivity := t0;
  shuttingDown := false;
  connectedClients := [];
  sockets := ∅;
  nextChild := 0;
  nextSocket := 0;
|}.

Definition init_world (t0 : Z) : world :=
  {| prog := init_state t0; timers := []; exited := None |}.

(** *** Vocabulary of the properties *)

(** The monitor trips on a tick at [now]: its callback takes the branch
    that logs the line of that timeout (and calls [shutdown]). *)
Definition heartbeat_fires (now : Z) (s : state) : Prop :=
  Log heartbeat_log ∈ trace (monitor_tick now) s.

Definition inactivity_fires (now : Z) (s : state) : Prop :=
  Log inactivity_log ∈ trace (monitor_tick now) s.

(** [ws.close] touches the socket heap only. *)
Definition off_heap {X} (f : state -> X) : Prop :=
  forall v s, f (set_sockets v s) = f s.

(** What the loop of [shutdown] does for one connection. *)
Definition notify_one (ws : nat) : M unit :=
  wsSend ws (MsgShutdown "timeout") ;;; ws_close ws None.

Definition notice (s : state) (ws : nat) : list effect :=
  (if ready_state ws s =? 1 then [WsSend ws (MsgShutdown "timeout")] else [])
  ++ [WsClose ws None].

(** The signal sent to the child by [shutdown]. *)
Definition kill_part (s : state) : list effect :=
  match lanPlayProc s with
  | Some p => if killed p then [] else [Kill (pid p)]
  | None => []
  end.

(** The status object [getStatus()] builds in state [s], and what
    [broadcastStatus()] sends to one connection. *)
Definition status_of (s : state) : status :=
  {| running := lanPlayRunning s;
     st_relay := relay CONFIG;
     st_platform := PLATFORM;
     st_version := lanPlayVersion CONFIG |}.

Definition status_to (s : state) (ws : nat) : list effect :=
  if ready_state ws s =? 1 then [WsSend ws (MsgStatus (status_of s))] else [].

(** The line logged for a chunk of subprocess output. *)
Definition output_log (data : string) : list effect :=
  if String.eqb (trim data) "" then [] else [Log ("[lan-play] " +:+ trim data)].

(** A client message that the listener takes for a heartbeat. *)
Definition is_heartbeat (ev : event) : bool :=
  match ev with
  | EvMessage _ (Some msg) _ => strict_eq_str (get_type msg) "heartbeat"
  | _ => false
  end.

(** Events other than a connection, a client message and subprocess
    output. *)
Definition quiet (ev : event) : bool :=
  match ev with
  | EvConnection _ | EvMessage _ _ _ | EvStdout _ | EvStderr _ => false
  | _ => true
  end.

(** The time of the last subprocess start in a run, [t] if there is none. *)
Fixpoint last_start (t : Z) (evs : list (Z * event)) (w : world) : Z :=
  match evs with
  | [] => t
  | (now, ev) :: rest =>
      let r := step now ev w in
      last_start (if existsb is_spawn (snd r) then now else t) rest (fst r)
  end.

(** The first event of [evs], taken in world [w], starts a child. *)
Definition starts_child (evs : list (Z * event)) (w : world) : Prop :=
  match evs with
  | (now, ev) :: _ => existsb is_spawn (snd (step now ev w)) = true
  | [] => False
  end.

(** A launcher with two browsers connected, the first OPEN and the second
    in its closing handshake, and a live child. *)
Definition two_clients : state := {|
  lanPlayProc := Some {| pid := 0; killed := false |};
  lanPlayRunning := true;
  lastHeartbeat := 0;
  hasReceivedHeartbeat := false;
  lastActivity := 1000;
  shuttingDown := false;
  connectedClients := [0%nat; 1%nat];
  sockets := <[0%nat := {| readyState := 1; listening := true |}]>
             (<[1%nat := {| readyState := 2; listening := true |}]> ∅);
  nextChild := 1;
  nextSocket := 2;
|}.

(** The same launcher after a heartbeat at time 5000. *)
Definition after_heartbeat : state :=
  set_lastActivity 5000 (set_lastHeartbeat 5000 (set_hasReceivedHeartbeat true two_clients)).

(** A child that exits at 1000 ms, and Ctrl-C 2500 ms later: the restart
    is due at 4000 ms, the exit at 4500 ms. *)
Definition crash_then_sigint : list (Z * event) :=
  [(0, EvMain); (1000, EvProcClose (Some 1)); (3500, EvSignal SIGINT)].

(** *** Binary download *)

(** An [http.IncomingMessage], as far as the launcher reads it. *)
Record response := {
  statusCode : Z;
  location : option string;     (* res.headers.location *)
  body : string;
}.

(** What a request ends in.  A response that arrives whole; an ['error']
    event on the request; a response whose Location header is a string
    that [http.get] and [https.get] do not take (a relative reference,
    another scheme: they throw [message] when called with it); a response
    whose body stops after [received] because the connection is lost, so
    that its ['end'] never comes.  The first request is for [BINARY_URL],
    an absolute https URL, which [https.get] takes. *)
Inductive get_result :=
| Responded (res : response)
| NetError (message : string)
| BadRedirect (res : response) (message : string)
| Broken (res : response) (received : string).

(** Which callback [followRedirects] ends up calling: [onResponse] with a
    response that arrives whole or with one that is cut short, or
    [onError]; or none, when [getter.get] throws inside the response
    callback of the request before. *)
Inductive fetched :=
| OnResponse (res : response)
| OnError (message : string)
| Thrown (message : string)
| OnCut (res : response) (received : string).

(** What becomes of the promise of [ensureBinary]: it resolves, it
    rejects, or it never settles, either because an exception left a
    callback uncaught (Node prints it and ends the process) or because the
    ['finish'] of the file never comes. *)
Inductive settled :=
| Resolved
| Rejected (message : string)
| Uncaught (message : string)
| Stalled.

(** What [followRedirects] does with a response that is no redirect:
    [hand] stands for the call of [onResponse]. *)
Definition by_status (res : response) (hand : fetched) : fetched :=
  if negb (statusCode res =? 200)
  then OnError ("HTTP " +:+ pretty (statusCode res))
  else hand.

(** [res.statusCode >= 300 && res.statusCode < 400 && res.headers.location] *)
Definition is_redirect (res : response) : bool :=
  (300 <=? statusCode res) && (statusCode res <? 400) && truthy (location res).

Section Download.

(** The network: what the request issued at a given depth for a given URL
    ends in. *)
Variable net : nat -> string -> get_result.

(** [followRedirects(url, onResponse, onError, depth)].  The recursive call
    tests its depth before it calls [getter.get]: a Location that the
    getter does not take makes it throw only at depths up to 5. *)
Equations followRedirects (url : string) (depth : nat) : list effect * fetched
  by wf (6 - depth)%nat lt :=
followRedirects url depth with le_lt_dec depth 5 := {
  | right _ => ([], OnError "Too many redirects")
  | left _ with net depth url := {
    | NetError message => ([HttpGet (String.prefix "https" url) url], OnError message)
    | Responded res with is_redirect res := {
      | true =>
          let '(es, r) := followRedirects (default "" (location res)) (S depth) in
          (HttpGet (String.prefix "https" url) url :: es, r)
      | false =>
          if negb (statusCode res =? 200)
          then ([HttpGet (String.prefix "https" url) url],
                OnError ("HTTP " +:+ pretty (statusCode res)))
          else ([HttpGet (String.prefix "https" url) url], OnResponse res) }
    | BadRedirect res message with is_redirect res := {
      | true =>
          ([HttpGet (String.prefix "https" url) url],
           if (depth <? 5)%nat then Thrown message else OnError "Too many redirects")
      | false =>
          ([HttpGet (String.prefix "https" url) url], by_status res (OnResponse res)) }
    | Broken res received with is_redirect res := {
      | true =>
          let '(es, r) := followRedirects (default "" (location res)) (S depth) in
          (HttpGet (String.prefix "https" url) url :: es, r)
      | false =>
          ([HttpGet (String.prefix "https" url) url],
           by_status res (OnCut res received)) } } }.
Next Obligation. lia. Qed.
Next Obligation. lia. Qed.

(** [ensureBinary()] over a file system mapping paths to contents, with
    its effects and what becomes of its promise.  [fs.createWriteStream]
    creates the file and [fs.unlink] removes it; both complete later in
    Node, and the model takes them to act when they are called.  When
    [getter.get] throws in a response callback, or the body is cut short,
    neither callback of [followRedirects] settles the promise and nothing
    removes the file. *)
Definition ensureBinary (fs : gmap string string)
    : gmap string string * list effect * settled :=
  if bool_decide (is_Some (fs !! BINARY_PATH)) then
    (fs, [Log ("lan-play binary found: " +:+ BINARY_PATH)], Resolved)
  else
    let opening :=
      [Log ("Downloading lan-play from " +:+ BINARY_URL +:+ " ...");
       FsCreateWriteStream BINARY_PATH] in
    let fs1 := <[BINARY_PATH := ""]> fs in
    match followRedirects BINARY_URL 0 with
    | (gets, OnResponse res) =>
        (<[BINARY_PATH := body res]> fs1,
         opening ++ gets ++ [FsPipe BINARY_PATH (body res)]
           ++ (if negb (String.eqb PLATFORM "win32") then [FsChmod BINARY_PATH 493] else [])
           ++ [Log "Download complete."],
         Resolved)
    | (gets, OnError message) =>
        (delete BINARY_PATH fs1,
         opening ++ gets ++ [FsUnlink BINARY_PATH],
         Rejected ("Failed to download lan-play: " +:+ message))
    | (gets, Thrown message) =>
        (fs1, opening ++ gets, Uncaught message)
    | (gets, OnCut res received) =>
        (<[BINARY_PATH := received]> fs1,
         opening ++ gets ++ [FsPipe BINARY_PATH received],
         Stalled)
    end.

(** The URL requested at depth [k] when every earlier response was a
    redirect, and the requests up to depth [k]. *)
Fixpoint url_at (k : nat) : string :=
  match k with
  | O => BINARY_URL
  | S j =>
      match net j (url_at j) with
      | Responded res | Broken res _ => default "" (location res)
      | NetError _ | BadRedirect _ _ => ""
      end
  end.

(** A redirect that is followed. *)
Definition redirect_at (j : nat) : bool :=
  match net j (url_at j) with
  | Responded res | Broken res _ => is_redirect res
  | NetError _ | BadRedirect _ _ => false
  end.

Definition redirected (k : nat) : Prop :=
  forall j, (j < k)%nat -> redirect_at j = true.

Definition request (j : nat) : effect :=
  HttpGet (String.prefix "https" (url_at j)) (url_at j).

Definition requests (from n : nat) : list effect :=
  map request (seq from n).

Definition opening : list effect :=
  [Log ("Downloading lan-play from " +:+ BINARY_URL +:+ " ...");
   FsCreateWriteStream BINARY_PATH].

End Download.

(** Some networks: two redirects and then the file; a redirect loop; a
    missing release; no connection. *)
Definition net_two_hops (depth : nat) (url : string) : get_result :=
  match depth with
  | 0%nat => Responded {| statusCode := 302; location := Some "https://objects.example/a"; body := "" |}
  | 1%nat => Responded {| statusCode := 301; location := Some "http://mirror.example/b"; body := "" |}
  | _ => Responded {| statusCode := 200; location := None; body := "ELF" |}
  end.



Definition net_down (depth : nat) (url : string) : get_result :=
  NetError "getaddrinfo ENOTFOUND github.com".

(** A redirect to a relative reference, which [http.get] does not take;
    and a download that breaks off after three bytes. *)
Definition net_relative (depth : nat) (url : string) : get_result :=
  BadRedirect {| statusCode := 302; location := Some "/releases/lan-play-linux"; body := "" |}
    "Invalid URL".

Definition net_cut (depth : nat) (url : string) : get_result :=
  Broken {| statusCode := 200; location := None; body := "ELF and the rest" |} "ELF".

(** ** The rest of launcher.js *)

(** *** Configuration *)

(** [Array.prototype.indexOf] on [process.argv]. *)
Fixpoint index_of (x : string) (l : list string) : option nat :=
  match l with
  | [] => None
  | y :: rest => if String.eqb y x then Some 0%nat else S <$> index_of x rest
  end.

(** [parseArg(flag)], with [process.argv] as an argument. *)
Definition parseArg (argv : list string) (flag : string) : option string :=
  match index_of flag argv with
  | Some idx => if truthy (argv !! S idx) then argv !! S idx else None
  | None => None
  end.

(** [bakedConfig.relay || parseArg('--relay')], for a baked relay that is
    absent or a string.  [None] is the falsy outcome. *)
Definition startup_relay (baked : option string) (argv : list string) : option string :=
  if truthy baked then baked else parseArg argv "--relay".

(** What the launcher does outside its callbacks, beside the effects of
    the callbacks. *)
Inductive boot_effect :=
| Core (e : effect)
| ConsoleError (msg : string)
| ServerListen (port : Z) (host : string)
| MonitorEvery (ms : Z)
| UncaughtException (msg : string).   (* Node prints it and ends the process *)

(** Loading the module up to [CONFIG]: the relay, or the usage message and
    [process.exit(1)]. *)
Definition load_relay (baked : option string) (argv : list string)
    : string + list boot_effect :=
  match startup_relay baked argv with
  | Some r => inl r
  | None =>
      inr [ConsoleError "Error: relay server not specified.";
           ConsoleError "Usage: node launcher.js --relay yourserver.example.com:11451";
           Core (Exit 1)]
  end.

(** *** Health check *)

(** The request listener of the HTTP server: status code and JSON body. *)
Definition on_http_request (url : string) : M (Z * option status) :=
  if String.eqb url "/health" then
    data <~ getStatus ;;
    ret (200, Some data)
  else ret (404, None).

(** *** Main *)

Variable BASE_DIR : string.

(** The double quote character, as a string. *)
Definition dquote : string := String (Ascii.ascii_of_nat 34) EmptyString.

Definition npcapPaths : list string :=
  ["C:\Windows\System32\Npcap\wpcap.dll"; "C:\Windows\System32\wpcap.dll"].

(** Step 2 of [main]: the warning when no Npcap library is found on
    Windows. *)
Definition npcap_check (fs : gmap string string) : list effect :=
  if String.eqb PLATFORM "win32" then
    if existsb (fun p => bool_decide (is_Some (fs !! p))) npcapPaths then []
    else [Log "WARNING: Npcap does not appear to be installed.";
          Log "lan-play requires Npcap to capture network packets.";
          Log "Download from: https://npcap.com/#download";
          Log ("Install with " +:+ dquote +:+ "WinPcap API-compatible Mode" +:+ dquote
               +:+ " checked.");
          Log "";
          Log "Continuing anyway — lan-play will fail if Npcap is truly missing."]
  else [].

(** The three lines [main] starts with, and the catch block of [main]. *)
Definition banner : list effect :=
  [Log ("=== lan-play-bridge-launcher v" +:+ lanPlayVersion CONFIG +:+ " ===");
   Log ("Platform: " +:+ PLATFORM);
   Log ("Relay:    " +:+ relay CONFIG)].

Definition fatal (message : string) : list effect :=
  [Log ("FATAL: " +:+ message);
   Log "Please download lan-play manually from:";
   Log "  https://github.com/spacemeowx2/switch-lan-play/releases";
   Log ("Place it in: " +:+ BASE_DIR);
   Exit 1].

(** [main()], for the network [net] and the file system [fs]; [now] is the
    reading of [Date.now()] in [startLanPlay].  The result is the file
    system and the program state it leaves, and what it did.  After
    [process.exit(1)] in the catch block nothing else runs; while the
    promise of [ensureBinary] is not settled, [main] does not go on.  The
    callback of [server.listen], which logs two lines, runs in a later
    turn of the loop and is no part of [main]. *)
Definition main (net : nat -> string -> get_result) (now : Z)
    (fs : gmap string string) (s : state)
    : gmap string string * state * list boot_effect :=
  match ensureBinary net fs with
  | (fs', es, Rejected message) =>
      (fs', s, map Core (banner ++ es ++ fatal message))
  | (fs', es, Uncaught message) =>
      (fs', s, map Core (banner ++ es) ++ [UncaughtException message])
  | (fs', es, Stalled) =>
      (fs', s, map Core (banner ++ es))
  | (fs', es, Resolved) =>
      (fs', exec (startLanPlay now) s,
       map Core (banner ++ es ++ npcap_check fs')
       ++ [ServerListen (wsPort CONFIG) "127.0.0.1"]
       ++ map Core (trace (startLanPlay now) s)
       ++ [MonitorEvery (checkIntervalMs CONFIG)])
  end.

(** *** Vocabulary of the further properties *)

(** A callback keeps the invariant [I] and emits only effects in [Q]; unlike
    [preserves] and [emits_only], what it emits may depend on [I]. *)
Definition inv {A} (I : state -> Prop) (Q : effect -> Prop) (m : M A) : Prop :=
  forall s, I s -> I (exec m s) /\ forall e, e ∈ trace m s -> Q e.

(** A socket the server has created and that is not OPEN. *)
Definition not_open (ws : nat) (s : state) : Prop :=
  ready_state ws s ≠ 1 /\ (ws < nextSocket s)%nat.

(** A socket the server has created and the launcher does not listen to. *)
Definition unheard (ws : nat) (s : state) : Prop :=
  is_listening ws s = false /\ (ws < nextSocket s)%nat.

(** The connection set and the sockets agree: the set has no duplicates,
    its members have the launcher's listeners attached, and no socket
    exists beyond the ones the server has created. *)
Definition heap_wf (s : state) : Prop :=
  NoDup (connectedClients s)
  /\ (forall ws, ws ∈ connectedClients s -> is_listening ws s = true)
  /\ (forall ws, (nextSocket s <= ws)%nat -> sockets s !! ws = None).

Definition sent_to (ws : nat) (e : effect) : bool :=
  match e with
  | WsSend w _ => bool_decide (w = ws)
  | _ => false
  end.

Definition is_get (e : effect) : bool :=
  match e with
  | HttpGet _ _ => true
  | _ => false
  end.

(** A request uses the https module exactly when its URL starts with
    "https". *)
Definition scheme_ok (e : effect) : Prop :=
  match e with
  | HttpGet secure url => secure = String.prefix "https" url
  | _ => True
  end.

(** Readings of the clock that do not go back: the event is not before
    [c], and the second reading in a message listener is not before the
    first. *)
Definition sane_clock (c : Z) (te : Z * event) : Prop :=
  c <= fst te
  /\ match snd te with
     | EvMessage _ _ now2 => fst te <= now2
     | _ => True
     end.

Definition heartbeat_msg : json := JObj [("type", JStr "heartbeat")].

(** The download itself starts nothing and ends nothing: it logs, touches
    the file and issues requests. *)
Definition acquiring (e : effect) : Prop :=
  is_spawn e = false /\ exit_status [e] = None /\ is_send e = false.


(** The reading of the clock an event's callback ends with. *)
Definition clock_after (te : Z * event) : Z :=
  match snd te with
  | EvMessage _ _ now2 => now2
  | _ => fst te
  end.

(** A run on a clock that does not go back, from the reading [c] on. *)
Fixpoint monotone (c : Z) (evs : list (Z * event)) : Prop :=
  match evs with
  | [] => True
  | te :: rest => sane_clock c te /\ monotone (clock_after te) rest
  end.

(** A heartbeat has been taken at [b] or later, and there was activity at
    [a] or later. *)
Definition alive (b a : Z) (s : state) : Prop :=
  hasReceivedHeartbeat s = true /\ b <= lastHeartbeat s /\ a <= lastActivity s.


(** An effect that neither sets a timer nor ends the process. *)
Definition plain (e : effect) : Prop :=
  match e with
  | SetTimeout _ _ | Exit _ => False
  | _ => True
  end.


(** What a trace tells socket [ws] and the others: [n] messages go to
    [ws], and every message of the trace is the status [st]. *)
Definition told (ws : nat) (n : nat) (st : status) (es : list effect) : Prop :=
  count_if (sent_to ws) es = n
  /\ Forall (fun e => is_send e = true -> exists a, e = WsSend a (MsgStatus st)) es.


(** The connection set holds exactly the sockets the launcher listens to
    whose ['close'] event has not come. *)
Definition tracked (s : state) : Prop :=
  forall ws, ws ∈ connectedClients s <-> (is_listening ws s = true /\ ready_state ws s ≠ 3).

Definition set_exact (s : state) : Prop := heap_wf s /\ tracked s.


(** Pending timers that will start a child, and the events that ask for
    one: [main] once the binary is in place, and the exit of a child. *)
Definition is_restart_timer (p : Z * timer_action) : bool :=
  match snd p with
  | TRestart => true
  | TExit => false
  end.

Definition pending_restarts (w : world) : nat :=
  length (List.filter is_restart_timer (timers w)).

Definition asks_for_child (te : Z * event) : bool :=
  match snd te with
  | EvMain | EvProcClose _ => true
  | _ => false
  end.

(** An effect that neither spawns a child nor sets the restart timer. *)
Definition childless (e : effect) : Prop :=
  match e with
  | Spawn _ _ _ | SetTimeout TRestart _ => False
  | _ => True
  end.


(** ** Properties *)

(** *** Running callbacks *)

Lemma exec_bind {A B} (m : M A) (k : A -> M B) s :
  exec (bind m k) s = exec (k (value m s)) (exec m s).
Proof. reflexivity. Qed.

Lemma trace_bind {A B} (m : M A) (k : A -> M B) s :
  trace (bind m k) s = trace m s ++ trace (k (value m s)) (exec m s).
Proof. reflexivity. Qed.

Lemma keeps_ret {X A} (f : state -> X) (a : A) : keeps f (ret a).
Proof. intros s; reflexivity. Qed.

Lemma keeps_get {X} (f : state -> X) : keeps f get.
Proof. intros s; reflexivity. Qed.

Lemma keeps_emit {X} (f : state -> X) e : keeps f (emit e).
Proof. intros s; reflexivity. Qed.

Lemma keeps_modify {X} (f : state -> X) g :
  (forall s, f (g s) = f s) -> keeps f (modify g).
Proof. intros H s; apply H. Qed.

Lemma keeps_bind {X A B} (f : state -> X) (m : M A) (k : A -> M B) :
  keeps f m -> (forall a, keeps f (k a)) -> keeps f (bind m k).
Proof.
  intros Hm Hk s. rewrite exec_bind, Hk. apply Hm.
Qed.

Lemma keeps_when {X} (f : state -> X) b m : keeps f m -> keeps f (when b m).
Proof. destruct b; [trivial | intros _; apply keeps_ret]. Qed.

Lemma keeps_for_of {X A} (f : state -> X) (xs : list A) body :
  (forall x, keeps f (body x)) -> keeps f (for_of xs body).
Proof.
  intros Hb. induction xs as [|x xs IH]; simpl.
  - apply keeps_ret.
  - apply keeps_bind; auto.
Qed.

(** Splits a callback along its binds, branches and loops, leaving the
    assignments to [reflexivity]. *)
Ltac frame :=
  repeat first
    [ apply keeps_ret | apply keeps_get | apply keeps_emit
    | apply keeps_bind; [| intros ?]
    | apply keeps_when
    | apply keeps_for_of; intros ?
    | apply keeps_modify; intros ?; repeat case_match;
      solve [ reflexivity | auto
            | match goal with H : off_heap _ |- _ => apply H end ]
    | match goal with
      | |- keeps _ (if ?b then _ else _) => destruct b
      | |- keeps _ (match ?x with _ => _ end) => destruct x
      end ].

(** *** Shutdown *)

Lemma shutdown_noop s : shuttingDown s = true -> shutdown s = (tt, s, []).
Proof. intros H. unfold shutdown, bind, get; simpl. rewrite H. reflexivity. Qed.

Lemma notify_one_trace ws s : trace (notify_one ws) s = notice s ws.
Proof.
  unfold notify_one, notice, wsSend, ws_close, trace, bind, get, when; simpl.
  destruct (ready_state ws s =? 1); reflexivity.
Qed.

Lemma wsSend_exec ws obj s : exec (wsSend ws obj) s = s.
Proof.
  unfold wsSend, exec, bind, get, when; simpl.
  destruct (ready_state ws s =? 1); reflexivity.
Qed.

Lemma ws_close_other ws code y s :
  y ≠ ws -> ready_state y (exec (ws_close ws code) s) = ready_state y s.
Proof.
  intros Hne. unfold ws_close, exec, bind, emit, modify; simpl.
  destruct (sockets s !! ws) as [w|] eqn:E; [|reflexivity].
  destruct (readyState w =? 1); [|reflexivity].
  unfold ready_state; simpl. rewrite lookup_insert_ne by congruence. reflexivity.
Qed.

Lemma notify_one_other ws y s :
  y ≠ ws -> ready_state y (exec (notify_one ws) s) = ready_state y s.
Proof.
  intros Hne. unfold notify_one. rewrite exec_bind, wsSend_exec.
  apply ws_close_other, Hne.
Qed.

Lemma flat_map_agree {A B} (f g : A -> list B) l :
  (forall x, In x l -> f x = g x) -> flat_map f l = flat_map g l.
Proof.
  induction l as [|x l IH]; intros H; [reflexivity|].
  simpl. rewrite H by (left; reflexivity). f_equal. apply IH.
  intros y Hy. apply H. right. exact Hy.
Qed.

Lemma notify_trace l : forall s,
  NoDup l -> trace (for_of l notify_one) s = flat_map (notice s) l.
Proof.
  induction l as [|x l IH]; intros s Hnd; [reflexivity|].
  inversion Hnd as [|? ? Hx Hl]; subst.
  simpl. rewrite trace_bind, notify_one_trace, IH by assumption.
  f_equal. apply flat_map_agree. intros y Hy.
  unfold notice. rewrite notify_one_other; [reflexivity|].
  intros ->. apply Hx, list_elem_of_In, Hy.
Qed.

Lemma count_if_app p es1 es2 :
  count_if p (es1 ++ es2) = (count_if p es1 + count_if p es2)%nat.
Proof. unfold count_if. rewrite List.filter_app, length_app. reflexivity. Qed.

Lemma count_notice_self s ws :
  count_if (is_shutdown_to ws) (notice s ws) = if ready_state ws s =? 1 then 1%nat else 0%nat.
Proof.
  unfold notice. destruct (ready_state ws s =? 1); unfold count_if; simpl;
    rewrite ?bool_decide_eq_true_2 by reflexivity; reflexivity.
Qed.

Lemma count_notice_other s ws y :
  y ≠ ws -> count_if (is_shutdown_to ws) (notice s y) = 0%nat.
Proof.
  intros Hne. unfold notice. destruct (ready_state y s =? 1); unfold count_if; simpl;
    rewrite ?bool_decide_eq_false_2 by assumption; reflexivity.
Qed.

Lemma count_notices s ws l :
  NoDup l ->
  count_if (is_shutdown_to ws) (flat_map (notice s) l)
  = if bool_decide (ws ∈ l) && (ready_state ws s =? 1) then 1%nat else 0%nat.
Proof.
  induction 1 as [|x l Hx Hl IH]; [reflexivity|].
  simpl. rewrite count_if_app, IH.
  destruct (decide (x = ws)) as [->|Hne].
  - rewrite count_notice_self.
    rewrite (bool_decide_eq_true_2 (ws ∈ ws :: l)) by left.
    rewrite (bool_decide_eq_false_2 (ws ∈ l)) by assumption.
    simpl. destruct (ready_state ws s =? 1); reflexivity.
  - rewrite count_notice_other by assumption.
    assert (Hiff : bool_decide (ws ∈ x :: l) = bool_decide (ws ∈ l)).
    { apply bool_decide_ext. rewrite elem_of_cons. split; [intros [?|?]|right]; congruence. }
    rewrite Hiff. reflexivity.
Qed.

Lemma no_kill_in_notices s l : count_if is_kill (flat_map (notice s) l) = 0%nat.
Proof.
  induction l as [|x l IH]; [reflexivity|].
  simpl. rewrite count_if_app, IH. unfold notice.
  destruct (ready_state x s =? 1); reflexivity.
Qed.

Lemma shutdown_trace s :
  NoDup (connectedClients s) -> shuttingDown s = false ->
  trace shutdown s
  = Log "Shutting down..." :: flat_map (notice s) (connectedClients s)
      ++ kill_part s ++ [SetTimeout TExit 1000].
Proof.
  intros Hnd Hsd. unfold shutdown.
  rewrite trace_bind. simpl. unfold value; simpl. rewrite Hsd.
  rewrite !trace_bind. simpl. f_equal.
  change (for_of (connectedClients s) _) with (for_of (connectedClients s) notify_one).
  rewrite notify_trace by assumption.
  f_equal. unfold kill_part.
  destruct (lanPlayProc s) as [[p k]|]; [destruct k|]; reflexivity.
Qed.

Lemma shutdown_sets s : shuttingDown (exec shutdown s) = true.
Proof.
  unfold shutdown. rewrite exec_bind. simpl. unfold value; simpl.
  destruct (shuttingDown s) eqn:Hsd; [exact Hsd|].
  assert (Hk : forall m : M unit, keeps shuttingDown m ->
    shuttingDown (exec (modify (set_shuttingDown true) ;;; m) s) = true).
  { intros m Hm. rewrite exec_bind, Hm. reflexivity. }
  apply Hk. frame.
Qed.

Lemma times_shutdown n s :
  (1 <= n)%nat -> times n shutdown s = shutdown s.
Proof.
  intros Hn. destruct n as [|n]; [lia|clear Hn].
  assert (Hrest : forall k s', shuttingDown s' = true -> times k shutdown s' = (tt, s', [])).
  { induction k as [|k IH]; intros s' H'; [reflexivity|].
    simpl. unfold bind. rewrite (shutdown_noop s' H'). simpl.
    rewrite (IH s' H'). reflexivity. }
  change (times (S n) shutdown s) with (bind shutdown (fun _ => times n shutdown) s).
  pose proof (shutdown_sets s) as Hs. unfold exec in Hs.
  unfold bind. rewrite (Hrest n _ Hs).
  destruct (shutdown s) as [[[] s1] es]. simpl. rewrite app_nil_r. reflexivity.
Qed.

Lemma count_kill_part s :
  count_if is_kill (kill_part s)
  = match lanPlayProc s with
    | Some p => if killed p then 0%nat else 1%nat
    | None => 0%nat
    end.
Proof.
  unfold kill_part. destruct (lanPlayProc s) as [[p k]|]; [destruct k|]; reflexivity.
Qed.

Lemma no_notice_in_kill_part ws s : count_if (is_shutdown_to ws) (kill_part s) = 0%nat.
Proof.
  unfold kill_part. destruct (lanPlayProc s) as [[p k]|]; [destruct k|]; reflexivity.
Qed.

Lemma shutdown_notices ws s :
  NoDup (connectedClients s) -> shuttingDown s = false ->
  count_if (is_shutdown_to ws) (trace shutdown s)
  = if bool_decide (ws ∈ connectedClients s) && (ready_state ws s =? 1)
    then 1%nat else 0%nat.
Proof.
  intros Hnd Hsd. rewrite shutdown_trace by assumption.
  change (Log ?m :: ?l) with ([Log m] ++ l).
  rewrite !count_if_app, count_notices, no_notice_in_kill_part by assumption.
  unfold count_if; simpl. lia.
Qed.

Lemma shutdown_kills s :
  NoDup (connectedClients s) -> shuttingDown s = false ->
  count_if is_kill (trace shutdown s)
  = match lanPlayProc s with
    | Some p => if killed p then 0%nat else 1%nat
    | None => 0%nat
    end.
Proof.
  intros Hnd Hsd. rewrite shutdown_trace by assumption.
  change (Log ?m :: ?l) with ([Log m] ++ l).
  rewrite !count_if_app, no_kill_in_notices, count_kill_part.
  unfold count_if; simpl. lia.
Qed.

(** *** What callbacks emit *)

Lemma emits_ret {A} P (a : A) : emits_only P (ret a).
Proof. intros s e H. apply elem_of_nil in H. destruct H. Qed.

Lemma emits_get P : emits_only P get.
Proof. intros s e H. apply elem_of_nil in H. destruct H. Qed.

Lemma emits_modify P g : emits_only P (modify g).
Proof. intros s e H. apply elem_of_nil in H. destruct H. Qed.

Lemma emits_emit (P : effect -> Prop) e : P e -> emits_only P (emit e).
Proof. intros HP s e' H. apply list_elem_of_singleton in H. subst. exact HP. Qed.

Lemma emits_bind {A B} P (m : M A) (k : A -> M B) :
  emits_only P m -> (forall a, emits_only P (k a)) -> emits_only P (bind m k).
Proof.
  intros Hm Hk s e. rewrite trace_bind, elem_of_app. intros [H|H].
  - eapply Hm, H.
  - eapply Hk, H.
Qed.

Lemma emits_when P b m : emits_only P m -> emits_only P (when b m).
Proof. destruct b; [trivial | intros _; apply emits_ret]. Qed.

Lemma emits_for_of {A} P (xs : list A) body :
  (forall x, emits_only P (body x)) -> emits_only P (for_of xs body).
Proof.
  intros Hb. induction xs as [|x xs IH]; simpl.
  - apply emits_ret.
  - apply emits_bind; auto.
Qed.

(** Like [frame], for traces; emitted effects are left as goals. *)
Ltac emitted :=
  repeat first
    [ match goal with
      | |- emits_only _ (if ?b then _ else _) => destruct b
      | |- emits_only _ (match ?x with _ => _ end) => destruct x
      | |- emits_only _ (modify _) => apply emits_modify
      | |- emits_only _ (emit _) => apply emits_emit
      end
    | apply emits_ret | apply emits_get
    | apply emits_bind; [| intros ?]
    | apply emits_when
    | apply emits_for_of; intros ? ].

Lemma count_if_none p es :
  (forall e, e ∈ es -> p e = false) -> count_if p es = 0%nat.
Proof.
  induction es as [|e es IH]; intros H; [reflexivity|].
  unfold count_if in *. simpl. rewrite (H e) by left.
  apply IH. intros e' He'. apply H. by right.
Qed.

(** *** The monitor *)

Lemma heartbeat_log_eq :
  heartbeat_log = "No heartbeat for 30s. Browser tab likely closed.".
Proof. reflexivity. Qed.

Lemma inactivity_log_eq : inactivity_log = "No activity for 10 minutes.".
Proof. reflexivity. Qed.

Lemma shutdown_logs : emits_only (fun e => is_log e = true -> e = Log "Shutting down...") shutdown.
Proof.
  unfold shutdown, log, wsSend, ws_close. emitted; simpl; congruence.
Qed.

(** The first test of the monitor: a heartbeat has been seen and the last
    one is older than the timeout. *)
Lemma tick_cases now s :
  monitor_tick now s =
    if shuttingDown s then (tt, s, [])
    else if hasReceivedHeartbeat s && (now - lastHeartbeat s >? heartbeatTimeoutMs CONFIG)
    then (log heartbeat_log ;;; shutdown) s
    else if now - lastActivity s >? inactivityTimeoutMs CONFIG
    then (log inactivity_log ;;; shutdown) s
    else (tt, s, []).
Proof.
  unfold monitor_tick, bind at 1, get; simpl.
  destruct (shuttingDown s); [reflexivity|].
  destruct (hasReceivedHeartbeat s && _).
  - destruct ((log heartbeat_log ;;; shutdown) s) as [[[] ?] ?]; reflexivity.
  - destruct (_ >? _).
    + destruct ((log inactivity_log ;;; shutdown) s) as [[[] ?] ?]; reflexivity.
    + reflexivity.
Qed.

Lemma tick_trace now s :
  trace (monitor_tick now) s =
    if shuttingDown s then []
    else if hasReceivedHeartbeat s && (now - lastHeartbeat s >? heartbeatTimeoutMs CONFIG)
    then Log heartbeat_log :: trace shutdown s
    else if now - lastActivity s >? inactivityTimeoutMs CONFIG
    then Log inactivity_log :: trace shutdown s
    else [].
Proof.
  unfold trace at 1. rewrite tick_cases.
  repeat match goal with |- context [if ?b then _ else _] => destruct b end; reflexivity.
Qed.

Lemma not_in_shutdown m s :
  m ≠ "Shutting down..." -> Log m ∉ trace shutdown s.
Proof.
  intros Hm H. apply shutdown_logs in H. specialize (H eq_refl). congruence.
Qed.

Lemma heartbeat_fires_iff now s :
  heartbeat_fires now s <->
  shuttingDown s = false /\ hasReceivedHeartbeat s = true
  /\ now - lastHeartbeat s > heartbeatTimeoutMs CONFIG.
Proof.
  unfold heartbeat_fires. rewrite tick_trace.
  assert (Hlater : forall b : bool,
    Log heartbeat_log ∉ (if b then Log inactivity_log :: trace shutdown s else [])).
  { intros [] H.
    - apply elem_of_cons in H as [H|H]; [discriminate|].
      revert H; apply not_in_shutdown; discriminate.
    - apply elem_of_nil in H; destruct H. }
  destruct (shuttingDown s).
  { split; [intros H; apply elem_of_nil in H; destruct H | intros [? _]; discriminate]. }
  destruct (hasReceivedHeartbeat s); cbn [andb].
  - destruct (Z.gtb_spec (now - lastHeartbeat s) (heartbeatTimeoutMs CONFIG)) as [Hgt|Hle].
    + split; [intros _; repeat split; lia | intros _; left].
    + split; [intros H; destruct (Hlater _ H) | intros (_ & _ & ?); lia].
  - split; [intros H; destruct (Hlater _ H) | intros (_ & ? & _); discriminate].
Qed.

Lemma inactivity_fires_iff now s :
  inactivity_fires now s <->
  shuttingDown s = false
  /\ ~ (hasReceivedHeartbeat s = true /\ now - lastHeartbeat s > heartbeatTimeoutMs CONFIG)
  /\ now - lastActivity s > inactivityTimeoutMs CONFIG.
Proof.
  unfold inactivity_fires. rewrite tick_trace.
  destruct (shuttingDown s).
  { split; [intros H; apply elem_of_nil in H; destruct H | intros [? _]; discriminate]. }
  destruct (hasReceivedHeartbeat s && (now - lastHeartbeat s >? heartbeatTimeoutMs CONFIG)) eqn:Ehb.
  - apply andb_true_iff in Ehb as [Hh Ht]. split.
    + intros H. apply elem_of_cons in H as [H|H]; [discriminate|].
      exfalso; revert H; apply not_in_shutdown; discriminate.
    + intros (_ & Hn & _). exfalso. apply Hn. split; [assumption | lia].
  - assert (Hn : ~ (hasReceivedHeartbeat s = true
                    /\ now - lastHeartbeat s > heartbeatTimeoutMs CONFIG)).
    { intros [Hh Ht]. rewrite Hh in Ehb. cbn [andb] in Ehb. lia. }
    destruct (Z.gtb_spec (now - lastActivity s) (inactivityTimeoutMs CONFIG)) as [Hgt|Hle].
    + split; [intros _; repeat split; [assumption | lia] | intros _; left].
    + split; [intros H; apply elem_of_nil in H; destruct H | intros (_ & _ & ?); lia].
Qed.

(** *** Runs of the event loop *)

Lemma startLanPlay_keeps {X} (f : state -> X) now :
  (forall v s, f (set_nextChild v s) = f s) ->
  (forall v s, f (set_lanPlayProc v s) = f s) ->
  (forall v s, f (set_lanPlayRunning v s) = f s) ->
  (forall v s, f (set_lastActivity v s) = f s) ->
  keeps f (startLanPlay now).
Proof.
  intros H1 H2 H3 H4. unfold startLanPlay, log. frame.
Qed.

Lemma shutdown_keeps {X} (f : state -> X) :
  off_heap f ->
  (forall v s, f (set_shuttingDown v s) = f s) ->
  (forall v s, f (set_lanPlayProc v s) = f s) ->
  keeps f shutdown.
Proof.
  intros H1 H2 H3. unfold shutdown, log. frame.
Qed.

Lemma monitor_tick_keeps {X} (f : state -> X) now :
  off_heap f ->
  (forall v s, f (set_shuttingDown v s) = f s) ->
  (forall v s, f (set_lanPlayProc v s) = f s) ->
  keeps f (monitor_tick now).
Proof.
  intros H1 H2 H3 s. unfold exec. rewrite tick_cases.
  repeat match goal with |- context [if ?b then _ else _] => destruct b end;
    try reflexivity;
    (change (f (exec (log "" ;;; shutdown) s) = f s) || idtac);
    apply (keeps_bind f (log _) (fun _ => shutdown));
    solve [apply keeps_emit | intros _; apply shutdown_keeps; assumption].
Qed.

Lemma on_signal_keeps {X} (f : state -> X) sig :
  off_heap f ->
  (forall v s, f (set_shuttingDown v s) = f s) ->
  (forall v s, f (set_lanPlayProc v s) = f s) ->
  keeps f (on_signal sig).
Proof.
  intros H1 H2 H3. unfold on_signal.
  apply keeps_bind; [apply keeps_emit | intros _].
  apply shutdown_keeps; assumption.
Qed.

Lemma on_message_keeps_heartbeat now now2 ws parsed :
  is_heartbeat (EvMessage ws parsed now2) = false ->
  keeps hasReceivedHeartbeat (on_message now now2 ws parsed).
Proof.
  unfold is_heartbeat, on_message. intros Hb.
  apply keeps_bind; [apply keeps_modify; reflexivity | intros _].
  destruct parsed as [msg|]; [|apply keeps_ret].
  destruct (get_type msg) as [| |v]; [apply keeps_ret | simpl; apply keeps_ret |].
  rewrite Hb. frame.
Qed.

Lemma handler_keeps_heartbeat now ev :
  is_heartbeat ev = false -> keeps hasReceivedHeartbeat (handler now ev).
Proof.
  intros Hb. destruct ev; simpl.
  - apply startLanPlay_keeps; reflexivity.
  - unfold on_stdout, log. frame.
  - unfold on_stderr, log. frame.
  - unfold on_proc_close, log. frame.
  - unfold on_proc_error, log. frame.
  - unfold new_socket, on_connection, log. frame.
  - unfold set_ready. frame.
  - apply keeps_bind; [apply keeps_get | intros s0]. apply keeps_when.
    apply on_message_keeps_heartbeat, Hb.
  - unfold set_ready, on_ws_close, log. frame.
  - apply monitor_tick_keeps; intros ? ?; reflexivity.
  - apply on_signal_keeps; intros ? ?; reflexivity.
  - apply keeps_ret.
Qed.

Lemma timer_keeps_heartbeat now a : keeps hasReceivedHeartbeat (timer_callback now a).
Proof.
  destruct a; simpl.
  - apply startLanPlay_keeps; reflexivity.
  - unfold on_exit_timer, log. frame.
Qed.

(** A component kept by every callback of a run is kept by the run. *)
Lemma step_keeps {X} (f : state -> X) now ev w :
  keeps f (handler now ev) -> (forall a, keeps f (timer_callback now a)) ->
  f (prog (fst (step now ev w))) = f (prog w).
Proof.
  intros Hh Ht. unfold step.
  destruct (exited w); [reflexivity|].
  destruct ev; try apply Hh.
  destruct (timers w !! k) as [[due a]|]; [|reflexivity].
  destruct (due <=? now); [apply Ht | reflexivity].
Qed.

Lemma run_cons now ev evs w :
  run ((now, ev) :: evs) w
  = (fst (run evs (fst (step now ev w))),
     snd (step now ev w) ++ snd (run evs (fst (step now ev w)))).
Proof. reflexivity. Qed.

Lemma run_app evs1 evs2 w :
  run (evs1 ++ evs2) w
  = (fst (run evs2 (fst (run evs1 w))), snd (run evs1 w) ++ snd (run evs2 (fst (run evs1 w)))).
Proof.
  revert w. induction evs1 as [|[now ev] evs1 IH]; intros w.
  - cbn [app run fst snd]. destruct (run evs2 w); reflexivity.
  - cbn [app]. rewrite !run_cons, IH. cbn [fst snd]. rewrite app_assoc. reflexivity.
Qed.

Lemma run_keeps_heartbeat evs : forall w,
  Forall (fun te => is_heartbeat (snd te) = false) evs ->
  hasReceivedHeartbeat (prog (fst (run evs w))) = hasReceivedHeartbeat (prog w).
Proof.
  induction evs as [|[now ev] evs IH]; intros w Hall; [reflexivity|].
  inversion Hall as [|? ? Hev Hrest]; subst. simpl in Hev.
  rewrite run_cons. cbn [fst]. rewrite IH by assumption.
  apply step_keeps.
  - apply handler_keeps_heartbeat, Hev.
  - intros a. apply timer_keeps_heartbeat.
Qed.

(** *** Status broadcasts and subprocess output *)

Lemma status_loop_trace data l s :
  trace (for_of l (fun ws =>
           s' <~ get ;;
           when (ready_state ws s' =? 1) (emit (WsSend ws (MsgStatus data))))) s
  = flat_map (fun ws => if ready_state ws s =? 1 then [WsSend ws (MsgStatus data)] else []) l.
Proof.
  induction l as [|x l IH]; [reflexivity|].
  simpl. rewrite trace_bind. f_equal.
  - unfold trace, bind, get, when; simpl. destruct (ready_state x s =? 1); reflexivity.
  - rewrite <- IH. f_equal.
    unfold exec, bind, get, when; simpl. destruct (ready_state x s =? 1); reflexivity.
Qed.

Lemma broadcastStatus_trace s :
  trace broadcastStatus s = flat_map (status_to s) (connectedClients s).
Proof.
  unfold broadcastStatus. rewrite !trace_bind. simpl.
  apply status_loop_trace.
Qed.

Lemma broadcastStatus_exec s : exec broadcastStatus s = s.
Proof.
  unfold broadcastStatus. rewrite !exec_bind.
  change (exec getStatus s) with s. change (exec get s) with s.
  generalize (value getStatus s). intros data.
  generalize (connectedClients (value get s)). intros l.
  induction l as [|x l IH]; [reflexivity|].
  simpl. rewrite exec_bind.
  replace (exec _ s) with s; [exact IH|].
  unfold exec, bind, get, when; simpl. destruct (ready_state x s =? 1); reflexivity.
Qed.

Lemma broadcast_reaches s ws :
  ws ∈ connectedClients s -> ready_state ws s = 1 ->
  WsSend ws (MsgStatus (status_of s)) ∈ flat_map (status_to s) (connectedClients s).
Proof.
  intros Hin Hr. apply list_elem_of_In, in_flat_map. exists ws. split.
  - apply list_elem_of_In, Hin.
  - unfold status_to. rewrite Hr. left. reflexivity.
Qed.

Lemma output_log_trace data s :
  trace (when (negb (String.eqb (trim data) "")) (log ("[lan-play] " +:+ trim data))) s
  = output_log data.
Proof. unfold output_log. destruct (String.eqb (trim data) ""); reflexivity. Qed.

Lemma output_log_exec data s :
  exec (when (negb (String.eqb (trim data) "")) (log ("[lan-play] " +:+ trim data))) s = s.
Proof. destruct (String.eqb (trim data) ""); reflexivity. Qed.

Lemma on_stderr_run now data s :
  on_stderr now data s = (tt, set_lastActivity now s, output_log data).
Proof.
  unfold on_stderr, output_log, bind, when, log, emit, modify, ret; simpl.
  destruct (String.eqb (trim data) ""); reflexivity.
Qed.

Lemma on_stdout_trace now data s :
  trace (on_stdout now data) s
  = output_log data ++ flat_map (status_to (set_lastActivity now s)) (connectedClients s).
Proof.
  unfold on_stdout. rewrite !trace_bind, output_log_trace, output_log_exec.
  simpl. rewrite broadcastStatus_trace. reflexivity.
Qed.

Lemma on_stdout_exec now data s :
  exec (on_stdout now data) s = set_lastActivity now s.
Proof.
  unfold on_stdout. rewrite !exec_bind, broadcastStatus_exec, output_log_exec.
  reflexivity.
Qed.

(** C5, as amended.  For every chunk of subprocess output: on standard
    error, the launcher sets [lastActivity] to the current time and logs
    the trimmed chunk when it is not empty, and does nothing else; on
    standard output, it does the same and then sends the status to every
    connection of the set that is open. *)
Theorem output_is_activity (now : Z) (data : string) (s : state) :
  on_stderr now data s = (tt, set_lastActivity now s, output_log data)
  /\ exec (on_stdout now data) s = set_lastActivity now s
  /\ trace (on_stdout now data) s
     = output_log data ++ flat_map (status_to (set_lastActivity now s)) (connectedClients s)
  /\ (trim data ≠ "" -> Log ("[lan-play] " +:+ trim data) ∈ output_log data)
  /\ (forall ws, ws ∈ connectedClients s -> ready_state ws s = 1 ->
        WsSend ws (MsgStatus (status_of s)) ∈ trace (on_stdout now data) s).
Proof.
  split; [apply on_stderr_run|].
  split; [apply on_stdout_exec|].
  split; [apply on_stdout_trace|].
  split.
  - intros Hne. unfold output_log.
    destruct (String.eqb_spec (trim data) ""); [contradiction | left].
  - intros ws Hin Hr. rewrite on_stdout_trace, elem_of_app. right.
    apply (broadcast_reaches (set_lastActivity now s)); assumption.
Qed.

(** *** Shutdown notices *)

Lemma notice_in_trace s ws l :
  ws ∈ l -> ready_state ws s = 1 ->
  exists before after,
    flat_map (notice s) l
    = before ++ WsSend ws (MsgShutdown "timeout") :: WsClose ws None :: after.
Proof.
  intros Hin Hr. apply list_elem_of_split in Hin as (l1 & l2 & ->).
  exists (flat_map (notice s) l1), (flat_map (notice s) l2).
  rewrite flat_map_app. simpl. unfold notice at 2. rewrite Hr. reflexivity.
Qed.

Lemma notice_reason s ws r l :
  WsSend ws (MsgShutdown r) ∈ flat_map (notice s) l ->
  r = "timeout" /\ ws ∈ l /\ ready_state ws s = 1.
Proof.
  intros H. apply list_elem_of_In, in_flat_map in H as (x & Hx & H).
  unfold notice in H. destruct (ready_state x s =? 1) eqn:E; simpl in H.
  - destruct H as [H|[H|[]]]; [|discriminate]. inversion H; subst.
    repeat split; [apply list_elem_of_In, Hx | lia].
  - destruct H as [H|[]]. discriminate.
Qed.

(** C4, as amended.  A tick that trips the heartbeat timeout logs the
    heartbeat line and calls [shutdown()]; a tick that trips the inactivity
    timeout logs the inactivity line and calls [shutdown()].  [shutdown]
    takes no reason: to every open connection of the set it sends the
    shutdown message with reason "timeout", directly before closing that
    connection, and it sends no shutdown message with any other reason. *)
Theorem timeout_shutdown_notice (now : Z) (s : state) :
  NoDup (connectedClients s) -> shuttingDown s = false ->
  (heartbeat_fires now s ->
     trace (monitor_tick now) s = Log heartbeat_log :: trace shutdown s)
  /\ (inactivity_fires now s ->
        trace (monitor_tick now) s = Log inactivity_log :: trace shutdown s)
  /\ (forall ws, ws ∈ connectedClients s -> ready_state ws s = 1 ->
        exists before after,
          trace shutdown s
          = before ++ WsSend ws (MsgShutdown "timeout") :: WsClose ws None :: after)
  /\ (forall ws r, WsSend ws (MsgShutdown r) ∈ trace shutdown s ->
        r = "timeout" /\ ws ∈ connectedClients s /\ ready_state ws s = 1).
Proof.
  intros Hnd Hsd. split; [|split; [|split]].
  - intros Hf. apply heartbeat_fires_iff in Hf as (_ & Hh & Ht).
    rewrite tick_trace, Hsd, Hh. cbn [andb].
    destruct (Z.gtb_spec (now - lastHeartbeat s) (heartbeatTimeoutMs CONFIG));
      [reflexivity | lia].
  - intros Hf. apply inactivity_fires_iff in Hf as (_ & Hn & Ht).
    rewrite tick_trace, Hsd.
    destruct (hasReceivedHeartbeat s && _) eqn:E.
    + apply andb_true_iff in E as [Hh Hg]. exfalso. apply Hn. split; [assumption | lia].
    + destruct (Z.gtb_spec (now - lastActivity s) (inactivityTimeoutMs CONFIG));
        [reflexivity | lia].
  - intros ws Hin Hr. rewrite shutdown_trace by assumption.
    destruct (notice_in_trace s ws _ Hin Hr) as (before & after & ->).
    exists (Log "Shutting down..." :: before),
           (after ++ kill_part s ++ [SetTimeout TExit 1000]).
    simpl. rewrite <- app_assoc. reflexivity.
  - intros ws r. rewrite shutdown_trace by assumption.
    rewrite elem_of_cons, !elem_of_app. intros [H|[H|[H|H]]].
    + discriminate.
    + eapply notice_reason, H.
    + unfold kill_part in H. destruct (lanPlayProc s) as [[p k]|]; [destruct k|];
        repeat (apply elem_of_cons in H as [H|H]; [discriminate|]);
        apply elem_of_nil in H; destruct H.
    + apply list_elem_of_singleton in H. discriminate.
Qed.

(** *** Connections and client messages *)

(** C6, as amended.  A connection whose X-Forwarded-For header has a
    non-empty value is logged and closed with code 4003, and nothing else:
    it is not added to [connectedClients], [lastActivity], [lastHeartbeat]
    and [hasReceivedHeartbeat] keep their values, no message is sent on
    any socket, and no listener is attached to the new socket. *)
Theorem forwarded_connection_rejected (now : Z) (forwarded : option string) (s : state) :
  truthy forwarded = true ->
  let s' := exec (handler now (EvConnection forwarded)) s in
  connectedClients s' = connectedClients s
  /\ lastActivity s' = lastActivity s
  /\ lastHeartbeat s' = lastHeartbeat s
  /\ hasReceivedHeartbeat s' = hasReceivedHeartbeat s
  /\ trace (handler now (EvConnection forwarded)) s
     = [Log "Rejected connection with X-Forwarded-For header (possible proxy)";
        WsClose (nextSocket s) (Some (4003, "Forbidden"))]
  /\ is_listening (nextSocket s) s' = false
  /\ ready_state (nextSocket s) s' = 2.
Proof.
  intros Hf. simpl.
  unfold on_connection. rewrite Hf.
  unfold exec, trace, is_listening, ready_state, new_socket, ws_close, log,
    bind, get, modify, emit, ret; simpl.
  rewrite !lookup_insert_eq. simpl. rewrite !lookup_insert_eq. simpl.
  repeat split; reflexivity.
Qed.

(** C10.  A message that parses to JSON whose [type] is neither
    "heartbeat" nor "status" has exactly the effect of one that does not
    parse: nothing is sent or logged, and the state changes in
    [lastActivity] alone, which becomes the current time. *)
Theorem unrecognized_message_is_activity_only
    (now now2 : Z) (ws : nat) (msg : json) (s : state) :
  strict_eq_str (get_type msg) "heartbeat" = false ->
  strict_eq_str (get_type msg) "status" = false ->
  on_message now now2 ws (Some msg) s = (tt, set_lastActivity now s, [])
  /\ on_message now now2 ws (Some msg) s = on_message now now2 ws None s
  /\ handler now (EvMessage ws (Some msg) now2) s = handler now (EvMessage ws None now2) s.
Proof.
  intros Hh Hs.
  assert (H1 : on_message now now2 ws (Some msg) s = (tt, set_lastActivity now s, [])).
  { unfold on_message. destruct (get_type msg) as [| |v]; try reflexivity.
    rewrite Hh, Hs. reflexivity. }
  split; [exact H1|]. split; [rewrite H1; reflexivity|].
  simpl. unfold bind, get, when; simpl.
  destruct (is_listening ws s && negb (ready_state ws s =? 3)); [|reflexivity].
  rewrite H1. reflexivity.
Qed.

(** *** Properties maintained by callbacks *)

Lemma preserves_ret {A} P (a : A) : preserves P (ret a).
Proof. intros s H; exact H. Qed.

Lemma preserves_get P : preserves P get.
Proof. intros s H; exact H. Qed.

Lemma preserves_emit P e : preserves P (emit e).
Proof. intros s H; exact H. Qed.

Lemma preserves_modify (P : state -> Prop) g :
  (forall s, P s -> P (g s)) -> preserves P (modify g).
Proof. intros H s; apply H. Qed.

Lemma preserves_bind {A B} P (m : M A) (k : A -> M B) :
  preserves P m -> (forall a, preserves P (k a)) -> preserves P (bind m k).
Proof.
  intros Hm Hk s H. rewrite exec_bind. apply Hk, Hm, H.
Qed.

Lemma preserves_when P b m : preserves P m -> preserves P (when b m).
Proof. destruct b; [trivial | intros _; apply preserves_ret]. Qed.

Lemma preserves_for_of {A} P (xs : list A) body :
  (forall x, preserves P (body x)) -> preserves P (for_of xs body).
Proof.
  intros Hb. induction xs as [|x xs IH]; simpl.
  - apply preserves_ret.
  - apply preserves_bind; auto.
Qed.

(** Like [frame]; the assignments are left as goals. *)
Ltac maintained :=
  repeat first
    [ match goal with
      | |- preserves _ (if ?b then _ else _) => destruct b
      | |- preserves _ (match ?x with _ => _ end) => destruct x
      | |- preserves _ (modify _) => apply preserves_modify; intros ? ?; repeat case_match
      end
    | apply preserves_ret | apply preserves_get | apply preserves_emit
    | apply preserves_bind; [| intros ?]
    | apply preserves_when
    | apply preserves_for_of; intros ? ].

Ltac unfold_callbacks :=
  unfold handler, timer_callback, startLanPlay, on_stdout, on_stderr, on_proc_close,
    on_proc_error, new_socket, on_connection, set_ready, on_message, on_ws_close,
    monitor_tick, on_signal, on_exit_timer, shutdown, broadcastStatus, getStatus,
    wsSend, ws_close, log.

(** Every callback leaves [lastActivity] at or after a time that both the
    old value and the clock have passed. *)
Lemma handler_activity_bound t0 now ev :
  t0 <= now -> preserves (fun s => t0 <= lastActivity s) (handler now ev).
Proof.
  intros Hnow. destruct ev; unfold_callbacks; maintained; simpl in *; assumption.
Qed.

Lemma timer_activity_bound t0 now a :
  t0 <= now -> preserves (fun s => t0 <= lastActivity s) (timer_callback now a).
Proof.
  intros Hnow. destruct a; unfold_callbacks; maintained; simpl in *; assumption.
Qed.

Lemma step_preserves (P : state -> Prop) now ev w :
  preserves P (handler now ev) -> (forall a, preserves P (timer_callback now a)) ->
  P (prog w) -> P (prog (fst (step now ev w))).
Proof.
  intros Hh Ht HP. unfold step.
  destruct (exited w); [exact HP|].
  destruct ev; try (apply Hh, HP).
  destruct (timers w !! k) as [[due a]|]; [|exact HP].
  destruct (due <=? now); [apply Ht, HP | exact HP].
Qed.

Lemma run_activity_bound t0 evs : forall w,
  Forall (fun te => t0 <= fst te) evs ->
  t0 <= lastActivity (prog w) ->
  t0 <= lastActivity (prog (fst (run evs w))).
Proof.
  induction evs as [|[now ev] evs IH]; intros w Hall Hw; [exact Hw|].
  inversion Hall as [|? ? Hnow Hrest]; subst. simpl in Hnow.
  rewrite run_cons. cbn [fst]. apply IH; [assumption|].
  apply (step_preserves (fun s => t0 <= lastActivity s)); [| |assumption].
  - apply handler_activity_bound, Hnow.
  - intros a. apply timer_activity_bound, Hnow.
Qed.

(** *** Inactivity *)

Lemma no_spawn_in {A} (m : M A) s :
  emits_only (fun e => is_spawn e = false) m -> existsb is_spawn (trace m s) = false.
Proof.
  intros H. destruct (existsb is_spawn (trace m s)) eqn:E; [|reflexivity].
  apply existsb_exists in E as (e & He & Hs).
  apply list_elem_of_In, H in He. congruence.
Qed.

Lemma startLanPlay_activity now s :
  lastActivity (exec (startLanPlay now) s) = now
  /\ existsb is_spawn (trace (startLanPlay now) s) = true.
Proof.
  unfold startLanPlay. split.
  - rewrite !exec_bind, broadcastStatus_exec. reflexivity.
  - rewrite !trace_bind. reflexivity.
Qed.

Lemma quiet_handler now ev :
  quiet ev = true -> ev ≠ EvMain ->
  keeps lastActivity (handler now ev)
  /\ emits_only (fun e => is_spawn e = false) (handler now ev).
Proof.
  intros Hq Hm. destruct ev; try discriminate; try congruence; split;
    try (unfold_callbacks; frame);
    try (unfold_callbacks; emitted; reflexivity).
Qed.

(** After a quiet event, [lastActivity] is the time of the event if a
    child was started, and what it was if not. *)
Lemma quiet_step now ev w :
  quiet ev = true ->
  lastActivity (prog (fst (step now ev w)))
  = if existsb is_spawn (snd (step now ev w)) then now else lastActivity (prog w).
Proof.
  intros Hq. unfold step.
  destruct (exited w); [reflexivity|].
  assert (Hstart : forall pending,
    lastActivity (prog (fst (run_callback now (startLanPlay now) pending w)))
    = if existsb is_spawn (snd (run_callback now (startLanPlay now) pending w))
      then now else lastActivity (prog w)).
  { intros pending. unfold run_callback. cbn [fst snd prog].
    destruct (startLanPlay_activity now (prog w)) as [-> ->]. reflexivity. }
  destruct ev; try discriminate; try apply Hstart;
    try (unfold run_callback; cbn [fst snd prog];
         match goal with
         | |- context [handler now ?e] =>
             destruct (quiet_handler now e Hq ltac:(discriminate)) as [Hk He]
         end;
         rewrite (no_spawn_in _ _ He); apply Hk).
  destruct (timers w !! k) as [[due a]|]; [|reflexivity].
  destruct (due <=? now); [|reflexivity].
  destruct a; [apply Hstart|].
  unfold run_callback. cbn [fst snd prog]. reflexivity.
Qed.

Lemma run_quiet evs : forall w t,
  Forall (fun te => quiet (snd te) = true) evs ->
  lastActivity (prog w) = t ->
  lastActivity (prog (fst (run evs w))) = last_start t evs w.
Proof.
  induction evs as [|[now ev] evs IH]; intros w t Hall Hw; [exact Hw|].
  inversion Hall as [|? ? Hq Hrest]; subst. simpl in Hq.
  rewrite run_cons. cbn [fst last_start]. apply IH; [assumption|].
  apply quiet_step, Hq.
Qed.

Lemma quiet_not_heartbeat ev : quiet ev = true -> is_heartbeat ev = false.
Proof. destruct ev; try discriminate; reflexivity. Qed.

(** *** Binary download *)

Lemma followRedirects_too_deep net url depth :
  (5 < depth)%nat -> followRedirects net url depth = ([], OnError "Too many redirects").
Proof.
  intros H. simp followRedirects.
  destruct (le_lt_dec depth 5); [lia|]. reflexivity.
Qed.

Lemma followRedirects_request net url depth :
  (depth <= 5)%nat ->
  followRedirects net url depth =
    let get := HttpGet (String.prefix "https" url) url in
    match net depth url with
    | NetError message => ([get], OnError message)
    | Responded res =>
        if is_redirect res then
          (get :: fst (followRedirects net (default "" (location res)) (S depth)),
           snd (followRedirects net (default "" (location res)) (S depth)))
        else if negb (statusCode res =? 200)
        then ([get], OnError ("HTTP " +:+ pretty (statusCode res)))
        else ([get], OnResponse res)
    | BadRedirect res message =>
        if is_redirect res then
          ([get], if (depth <? 5)%nat then Thrown message else OnError "Too many redirects")
        else ([get], by_status res (OnResponse res))
    | Broken res received =>
        if is_redirect res then
          (get :: fst (followRedirects net (default "" (location res)) (S depth)),
           snd (followRedirects net (default "" (location res)) (S depth)))
        else ([get], by_status res (OnCut res received))
    end.
Proof.
  intros H. simp followRedirects.
  destruct (le_lt_dec depth 5); [|lia]. simpl.
  destruct (net depth url) as [res|message|res message|res received]; simpl;
    [|reflexivity| |];
    (destruct (is_redirect res); simpl; [|reflexivity]);
    try reflexivity;
    destruct (followRedirects net _ (S depth)); reflexivity.
Qed.

Lemma requests_snoc net from n :
  requests net from (S n) = requests net from n ++ [request net (from + n)].
Proof.
  unfold requests. rewrite seq_S, map_app. reflexivity.
Qed.

(** Following [n] redirects from depth [j] issues the [n] requests and goes
    on at depth [j + n]. *)
Lemma follow_chain net n : forall j,
  (j + n <= 6)%nat ->
  (forall i, (j <= i < j + n)%nat -> redirect_at net i = true) ->
  followRedirects net (url_at net j) j
  = (requests net j n ++ fst (followRedirects net (url_at net (j + n)) (j + n)),
     snd (followRedirects net (url_at net (j + n)) (j + n))).
Proof.
  induction n as [|n IH]; intros j Hle Hred.
  - rewrite Nat.add_0_r. simpl. destruct (followRedirects net _ j); reflexivity.
  - rewrite followRedirects_request by lia.
    pose proof (Hred j ltac:(lia)) as Hj. unfold redirect_at in Hj.
    cbv zeta.
    destruct (net j (url_at net j)) as [res| |res ?|res ?] eqn:E; try discriminate;
      rewrite Hj;
      (assert (Hnext : default "" (location res) = url_at net (S j))
         by (simpl; rewrite E; reflexivity));
      rewrite Hnext, (IH (S j)) by (try lia; intros i Hi; apply Hred; lia);
      replace (S j + n)%nat with (j + S n)%nat by lia;
      reflexivity.
Qed.

Lemma follow_from_start net k :
  (k <= 6)%nat -> redirected net k ->
  followRedirects net BINARY_URL 0
  = (requests net 0 k ++ fst (followRedirects net (url_at net k) k),
     snd (followRedirects net (url_at net k) k)).
Proof.
  intros Hk Hred. apply (follow_chain net k 0); [lia|].
  intros i Hi. apply Hred. lia.
Qed.



Lemma follow_net_error net k message :
  (k <= 5)%nat -> redirected net k ->
  net k (url_at net k) = NetError message ->
  followRedirects net BINARY_URL 0 = (requests net 0 (S k), OnError message).
Proof.
  intros Hk Hred Herr.
  rewrite (follow_from_start net k) by (try lia; assumption).
  rewrite followRedirects_request by lia. cbv zeta.
  rewrite Herr. simpl. rewrite requests_snoc. reflexivity.
Qed.



Lemma ensureBinary_absent net fs :
  fs !! BINARY_PATH = None ->
  ensureBinary net fs =
    match followRedirects net BINARY_URL 0 with
    | (gets, OnResponse res) =>
        (<[BINARY_PATH := body res]> fs,
         opening ++ gets ++ [FsPipe BINARY_PATH (body res)]
           ++ (if negb (String.eqb PLATFORM "win32") then [FsChmod BINARY_PATH 493] else [])
           ++ [Log "Download complete."],
         Resolved)
    | (gets, OnError message) =>
        (fs, opening ++ gets ++ [FsUnlink BINARY_PATH],
         Rejected ("Failed to download lan-play: " +:+ message))
    | (gets, Thrown message) =>
        (<[BINARY_PATH := ""]> fs, opening ++ gets, Uncaught message)
    | (gets, OnCut res received) =>
        (<[BINARY_PATH := received]> fs,
         opening ++ gets ++ [FsPipe BINARY_PATH received],
         Stalled)
    end.
Proof.
  intros H. unfold ensureBinary.
  rewrite bool_decide_eq_false_2 by (rewrite H; intros [? ?]; discriminate).
  destruct (followRedirects net BINARY_URL 0) as [gets [res|message|message|res received]].
  - rewrite insert_insert_eq. reflexivity.
  - rewrite delete_insert_eq, delete_id by assumption. reflexivity.
  - reflexivity.
  - rewrite insert_insert_eq. reflexivity.
Qed.

(** The two ways a download can end without a call of the error callback
    and without the ['finish'] of the file. *)
Lemma follow_thrown net k res message :
  (k < 5)%nat -> redirected net k ->
  net k (url_at net k) = BadRedirect res message -> is_redirect res = true ->
  followRedirects net BINARY_URL 0 = (requests net 0 (S k), Thrown message).
Proof.
  intros Hk Hred Hres Hr.
  rewrite (follow_from_start net k) by (try lia; assumption).
  rewrite followRedirects_request by lia. cbv zeta.
  rewrite Hres, Hr. cbn [fst snd].
  destruct (Nat.ltb_spec k 5); [|lia].
  rewrite requests_snoc. reflexivity.
Qed.

Lemma follow_cut net k res received :
  (k <= 5)%nat -> redirected net k ->
  net k (url_at net k) = Broken res received -> is_redirect res = false ->
  statusCode res = 200 ->
  followRedirects net BINARY_URL 0 = (requests net 0 (S k), OnCut res received).
Proof.
  intros Hk Hred Hres Hnr Hok.
  rewrite (follow_from_start net k) by (try lia; assumption).
  rewrite followRedirects_request by lia. cbv zeta.
  rewrite Hres, Hnr. unfold by_status. rewrite Hok. cbn [fst snd Z.eqb negb].
  rewrite requests_snoc. reflexivity.
Qed.

Lemma no_unlink_in_requests net n : FsUnlink BINARY_PATH ∉ opening ++ requests net 0 n.
Proof.
  intros Hin. apply elem_of_app in Hin as [Hin|Hin].
  - unfold opening in Hin. repeat (apply elem_of_cons in Hin as [Hin|Hin]; [discriminate|]).
    apply elem_of_nil in Hin. destruct Hin.
  - unfold requests in Hin. apply list_elem_of_fmap in Hin as (j & Hj & _). discriminate.
Qed.


(** C8.  Not every download failure removes the file.  The error callback
    does: whenever [ensureBinary] rejects (too many redirects, a bad
    status, an error event on a request at any depth), the last thing it
    did was to unlink the path it had opened for writing, and no file is
    left there.  But two failures never reach the error callback.  A
    redirect to a Location that the getter does not take makes
    [getter.get] throw inside the response callback; a body that is cut
    short never finishes the file.  In both, nothing is unlinked, the
    promise never settles, and the file that [createWriteStream] made stays
    at the path, empty or with the part that arrived. *)
Theorem failed_download_leaves_file
    (net : nat -> string -> get_result) (fs : gmap string string) :
  (forall fs' es message,
     ensureBinary net fs = (fs', es, Rejected message) ->
     fs' !! BINARY_PATH = None
     /\ last es = Some (FsUnlink BINARY_PATH)
     /\ exists gets, es = opening ++ gets ++ [FsUnlink BINARY_PATH])
  /\ (fs !! BINARY_PATH = None ->
      forall k message,
        (k <= 5)%nat -> redirected net k ->
        net k (url_at net k) = NetError message ->
        ensureBinary net fs
        = (fs, opening ++ requests net 0 (S k) ++ [FsUnlink BINARY_PATH],
           Rejected ("Failed to download lan-play: " +:+ message)))
  /\ (fs !! BINARY_PATH = None ->
      forall k res message,
        (k < 5)%nat -> redirected net k ->
        net k (url_at net k) = BadRedirect res message -> is_redirect res = true ->
        ensureBinary net fs
        = (<[BINARY_PATH := ""]> fs, opening ++ requests net 0 (S k), Uncaught message)
        /\ (FsUnlink BINARY_PATH ∉ opening ++ requests net 0 (S k))
        /\ (<[BINARY_PATH := ""]> fs) !! BINARY_PATH = Some "")
  /\ (fs !! BINARY_PATH = None ->
      forall k res received,
        (k <= 5)%nat -> redirected net k ->
        net k (url_at net k) = Broken res received -> is_redirect res = false ->
        statusCode res = 200 ->
        ensureBinary net fs
        = (<[BINARY_PATH := received]> fs,
           opening ++ requests net 0 (S k) ++ [FsPipe BINARY_PATH received],
           Stalled)
        /\ (FsUnlink BINARY_PATH ∉ opening ++ requests net 0 (S k)
                                    ++ [FsPipe BINARY_PATH received])
        /\ (<[BINARY_PATH := received]> fs) !! BINARY_PATH = Some received).
Proof.
  split; [|split; [|split]].
  - intros fs' es message. unfold ensureBinary.
    destruct (bool_decide (is_Some (fs !! BINARY_PATH))); [discriminate|].
    destruct (followRedirects net BINARY_URL 0) as [gets [res|err|err|res received]];
      try discriminate.
    intros [= <- <- _].
    split; [rewrite lookup_delete_eq; reflexivity|].
    split; [|exists gets; reflexivity].
    change (?a :: ?b :: gets ++ ?c) with ([a; b] ++ gets ++ c).
    rewrite app_assoc. apply last_snoc.
  - intros Habs k message Hk Hred Herr.
    rewrite ensureBinary_absent, (follow_net_error net k message) by assumption.
    reflexivity.
  - intros Habs k res message Hk Hred Hres Hr.
    rewrite ensureBinary_absent, (follow_thrown net k res message) by assumption.
    split; [reflexivity|]. split; [apply no_unlink_in_requests | apply lookup_insert_eq].
  - intros Habs k res received Hk Hred Hres Hnr Hok.
    rewrite ensureBinary_absent, (follow_cut net k res received) by assumption.
    split; [reflexivity|]. split; [|apply lookup_insert_eq].
    rewrite app_assoc. intros Hin. apply elem_of_app in Hin as [Hin|Hin].
    + exact (no_unlink_in_requests net (S k) Hin).
    + apply list_elem_of_singleton in Hin. discriminate.
Qed.

(** *** Teardown happens once in a run *)

(** What a turn of the loop runs: nothing, or one callback on the program
    state. *)
Lemma step_runs now ev w :
  step now ev w = (w, [])
  \/ exists m : M unit,
       (m = handler now ev \/ exists a, m = timer_callback now a)
       /\ exited w = None
       /\ snd (step now ev w) = trace m (prog w)
       /\ prog (fst (step now ev w)) = exec m (prog w).
Proof.
  unfold step. destruct (exited w) eqn:Hex; [left; reflexivity|].
  destruct ev;
    try (right; eexists; split; [left; reflexivity | repeat split; reflexivity]).
  destruct (timers w !! k) as [[due a]|]; [|left; reflexivity].
  destruct (due <=? now); [|left; reflexivity].
  right. exists (timer_callback now a). split; [right; exists a; reflexivity|].
  repeat split; reflexivity.
Qed.

Lemma set_add_NoDup x l : NoDup l -> NoDup (set_add x l).
Proof.
  intros H. unfold set_add. case_bool_decide as Hin; [exact H|].
  apply NoDup_app. split; [exact H|]. split.
  - intros y Hy Hy'. apply list_elem_of_singleton in Hy'. subst. contradiction.
  - apply NoDup_singleton.
Qed.

Lemma set_delete_NoDup x l : NoDup l -> NoDup (set_delete x l).
Proof. apply NoDup_filter. Qed.

(** [connectedClients] stays a set. *)
Lemma handler_NoDup now ev :
  preserves (fun s => NoDup (connectedClients s)) (handler now ev).
Proof.
  destruct ev; unfold_callbacks; maintained; simpl in *;
    try assumption; auto using set_add_NoDup, set_delete_NoDup.
Qed.

Lemma timer_NoDup now a :
  preserves (fun s => NoDup (connectedClients s)) (timer_callback now a).
Proof.
  destruct a; unfold_callbacks; maintained; simpl in *; assumption.
Qed.

(** [shuttingDown] never goes back to false. *)
Lemma handler_stays_down now ev :
  preserves (fun s => shuttingDown s = true) (handler now ev).
Proof.
  destruct ev; unfold_callbacks; maintained; simpl in *;
    first [assumption | reflexivity].
Qed.

Lemma timer_stays_down now a :
  preserves (fun s => shuttingDown s = true) (timer_callback now a).
Proof.
  destruct a; unfold_callbacks; maintained; simpl in *; assumption.
Qed.

Lemma timer_no_teardown now a :
  emits_only (fun e => is_teardown e = false) (timer_callback now a).
Proof. destruct a; unfold_callbacks; emitted; reflexivity. Qed.

(** A callback other than a tick or a signal tears nothing down; a tick or
    a signal does so through [shutdown] only. *)
Lemma handler_teardown now ev s :
  (forall e, e ∈ trace (handler now ev) s -> is_teardown e = false)
  \/ exists line,
       trace (handler now ev) s = Log line :: trace shutdown s
       /\ exec (handler now ev) s = exec shutdown s.
Proof.
  destruct ev;
    try solve [ left;
                refine ((_ : emits_only (fun e => is_teardown e = false) _) s);
                unfold_callbacks; emitted; reflexivity ].
  - (* tick *)
    simpl. rewrite tick_trace. unfold exec. rewrite tick_cases.
    destruct (shuttingDown s).
    { left. intros e He. apply elem_of_nil in He. destruct He. }
    destruct (hasReceivedHeartbeat s && _).
    { right. exists heartbeat_log. split; reflexivity. }
    destruct (_ >? _).
    { right. exists inactivity_log. split; reflexivity. }
    left. intros e He. apply elem_of_nil in He. destruct He.
  - (* signal *)
    right. simpl. unfold on_signal. eexists. split; reflexivity.
Qed.

Lemma teardown_is_kill e : is_teardown e = false -> is_kill e = false.
Proof. destruct e; try reflexivity; discriminate. Qed.

Lemma teardown_is_notice ws e : is_teardown e = false -> is_shutdown_to ws e = false.
Proof. destruct e as [| ? []| | | | | | | | | |]; try reflexivity; discriminate. Qed.

(** In one turn: nothing is torn down once [shuttingDown] is true; before
    that, at most one [kill()] and one shutdown message per socket, and
    [shuttingDown] is true afterwards if there was any. *)
Lemma step_teardown now ev w :
  NoDup (connectedClients (prog w)) ->
  let es := snd (step now ev w) in
  let w' := fst (step now ev w) in
  (shuttingDown (prog w) = true -> forall e, e ∈ es -> is_teardown e = false)
  /\ ((forall e, e ∈ es -> is_teardown e = false)
      \/ (shuttingDown (prog w') = true
          /\ (count_if is_kill es <= 1)%nat
          /\ forall ws, (count_if (is_shutdown_to ws) es <= 1)%nat)).
Proof.
  intros Hnd es w'. subst es w'.
  destruct (step_runs now ev w) as [->|(m & Hm & _ & -> & ->)].
  { simpl. split; [|left]; intros _ e He || intros e He; apply elem_of_nil in He; destruct He. }
  destruct Hm as [->|[a ->]].
  2:{ split; [intros _|left]; apply timer_no_teardown. }
  destruct (handler_teardown now ev (prog w)) as [Hnone|(line & -> & ->)].
  { split; [intros _|left]; exact Hnone. }
  split.
  - intros Hsd e He. unfold trace in He. rewrite (shutdown_noop _ Hsd) in He.
    apply list_elem_of_singleton in He. subst. reflexivity.
  - destruct (shuttingDown (prog w)) eqn:Hsd.
    + left. intros e He. unfold trace in He. rewrite (shutdown_noop _ Hsd) in He.
      apply list_elem_of_singleton in He. subst. reflexivity.
    + right. split; [apply shutdown_sets|]. split.
      * change (Log line :: ?l) with ([Log line] ++ l).
        rewrite count_if_app, shutdown_kills by assumption.
        destruct (lanPlayProc (prog w)) as [[p []]|]; unfold count_if; simpl; lia.
      * intros ws. change (Log line :: ?l) with ([Log line] ++ l).
        rewrite count_if_app, shutdown_notices by assumption.
        destruct (bool_decide _ && _); unfold count_if; simpl; lia.
Qed.

Lemma step_NoDup now ev w :
  NoDup (connectedClients (prog w)) ->
  NoDup (connectedClients (prog (fst (step now ev w)))).
Proof.
  apply (step_preserves (fun s => NoDup (connectedClients s))).
  - apply handler_NoDup.
  - intros a. apply timer_NoDup.
Qed.

Lemma step_stays_down now ev w :
  shuttingDown (prog w) = true -> shuttingDown (prog (fst (step now ev w))) = true.
Proof.
  apply (step_preserves (fun s => shuttingDown s = true)).
  - apply handler_stays_down.
  - intros a. apply timer_stays_down.
Qed.

Lemma run_after_shutdown evs : forall w,
  NoDup (connectedClients (prog w)) -> shuttingDown (prog w) = true ->
  forall e, e ∈ snd (run evs w) -> is_teardown e = false.
Proof.
  induction evs as [|[now ev] evs IH]; intros w Hnd Hsd e He.
  - apply elem_of_nil in He. destruct He.
  - rewrite run_cons in He. cbn [snd] in He. apply elem_of_app in He as [He|He].
    + destruct (step_teardown now ev w Hnd) as [H _]. apply (H Hsd e He).
    + apply (IH (fst (step now ev w))); [apply step_NoDup | apply step_stays_down | ]; assumption.
Qed.

(** Whatever reaches the launcher and in whatever order, a run sends at
    most one [kill()] and at most one shutdown message per socket. *)
Lemma run_teardown_once evs : forall w,
  NoDup (connectedClients (prog w)) ->
  (count_if is_kill (snd (run evs w)) <= 1)%nat
  /\ forall ws, (count_if (is_shutdown_to ws) (snd (run evs w)) <= 1)%nat.
Proof.
  induction evs as [|[now ev] evs IH]; intros w Hnd.
  { split; [|intros ws]; unfold count_if; simpl; lia. }
  rewrite run_cons. cbn [snd].
  destruct (step_teardown now ev w Hnd) as [_ [Hnone|(Hdown & Hk & Hn)]].
  - destruct (IH (fst (step now ev w)) (step_NoDup now ev w Hnd)) as [IHk IHn].
    split; [|intros ws]; rewrite count_if_app.
    + rewrite (count_if_none is_kill (snd (step now ev w))); [exact IHk|].
      intros e He. apply teardown_is_kill, Hnone, He.
    + rewrite (count_if_none (is_shutdown_to ws) (snd (step now ev w))); [apply IHn|].
      intros e He. apply teardown_is_notice, Hnone, He.
  - pose proof (run_after_shutdown evs (fst (step now ev w))
                  (step_NoDup now ev w Hnd) Hdown) as Hrest.
    split; [|intros ws]; rewrite count_if_app.
    + rewrite (count_if_none is_kill (snd (run evs _))); [lia|].
      intros e He. apply teardown_is_kill, Hrest, He.
    + rewrite (count_if_none (is_shutdown_to ws) (snd (run evs _))); [specialize (Hn ws); lia|].
      intros e He. apply teardown_is_notice, Hrest, He.
Qed.

(** C1.  Shutdown is idempotent.  For [n >= 1] calls of [shutdown] in a
    row, starting before shutdown has begun: each connection in the set
    that is open is sent the shutdown message exactly once (any other
    socket never); the child, when there is one that has not been killed,
    is sent exactly one [kill()] (none otherwise); [shuttingDown] is true
    afterwards; and a call made while [shuttingDown] is true returns at
    once, with no effect and the state as it was.  The same holds when the
    calls come from ticks and signals in any order among other events: no
    run sends a second [kill()] or a second shutdown message to a socket. *)
Theorem shutdown_idempotent (s : state) (n : nat) :
  NoDup (connectedClients s) -> shuttingDown s = false -> (1 <= n)%nat ->
  (forall ws,
     count_if (is_shutdown_to ws) (trace (times n shutdown) s)
     = if bool_decide (ws ∈ connectedClients s) && (ready_state ws s =? 1)
       then 1%nat else 0%nat)
  /\ count_if is_kill (trace (times n shutdown) s)
     = match lanPlayProc s with
       | Some p => if killed p then 0%nat else 1%nat
       | None => 0%nat
       end
  /\ (forall p, lanPlayProc s = Some p -> killed p = false ->
        Kill (pid p) ∈ trace (times n shutdown) s)
  /\ shuttingDown (exec (times n shutdown) s) = true
  /\ (forall s', shuttingDown s' = true -> shutdown s' = (tt, s', []))
  /\ (forall evs w, prog w = s ->
        (count_if is_kill (snd (run evs w)) <= 1)%nat
        /\ forall ws, (count_if (is_shutdown_to ws) (snd (run evs w)) <= 1)%nat).
Proof.
  intros Hnd Hsd Hn.
  unfold trace, exec. rewrite times_shutdown by assumption.
  fold (trace shutdown s). fold (exec shutdown s).
  split; [|split; [|split; [|split; [|split]]]].
  - intros ws. apply shutdown_notices; assumption.
  - apply shutdown_kills; assumption.
  - intros p Hp Hk. rewrite shutdown_trace by assumption.
    unfold kill_part. rewrite Hp, Hk.
    rewrite elem_of_cons, !elem_of_app, list_elem_of_singleton. auto.
  - apply shutdown_sets.
  - apply shutdown_noop.
  - intros evs w Hw. apply run_teardown_once. rewrite Hw. exact Hnd.
Qed.

(** *** Inactivity, counted from the last start *)

Lemma run_NoDup evs : forall w,
  NoDup (connectedClients (prog w)) -> NoDup (connectedClients (prog (fst (run evs w)))).
Proof.
  induction evs as [|[now ev] evs IH]; intros w H; [exact H|].
  rewrite run_cons. cbn [fst]. apply IH, step_NoDup, H.
Qed.

Lemma last_start_app pre : forall t post w,
  last_start t (pre ++ post) w = last_start (last_start t pre w) post (fst (run pre w)).
Proof.
  induction pre as [|[now ev] pre IH]; intros t post w; [reflexivity|].
  cbn [app last_start]. rewrite IH, run_cons. reflexivity.
Qed.

Lemma last_start_reset t t' post w :
  starts_child post w -> last_start t post w = last_start t' post w.
Proof.
  destruct post as [|[now ev] post]; [intros []|].
  cbn [starts_child last_start]. intros ->. reflexivity.
Qed.

(** C9.  [lastActivity] starts as the load time [t0] and is set to the
    current time by every [startLanPlay()].  Take a run in which no
    heartbeat was ever taken and nothing was observed since the last
    subprocess start: no connection, no client message and no output
    after it (before it, anything but a heartbeat may have happened; with
    no start at all, nothing was observed since the load).  Then
    [lastActivity] is the time of that start ([t0] if there was none), and
    a tick at [t] with [shuttingDown] false shuts the launcher down for
    inactivity exactly when [t] is more than 600000 ms past it: it logs
    the inactivity line and runs [shutdown], which sets [shuttingDown],
    notifies and closes the browsers, kills the child and sets the exit
    timer; otherwise the tick does nothing.  After any run at all, on a
    clock that does not go back before [t0], no tick at a time [t] with
    [t - t0] within 600000 ms trips the inactivity timeout. *)
Theorem inactivity_from_last_start (t0 : Z) (pre post : list (Z * event)) :
  let evs := pre ++ post in
  let w1 := fst (run pre (init_world t0)) in
  let w := fst (run evs (init_world t0)) in
  let t_init := last_start t0 evs (init_world t0) in
  lastActivity (init_state t0) = t0
  /\ (forall now s, lastActivity (exec (startLanPlay now) s) = now)
  /\ inactivityTimeoutMs CONFIG = 600000
  /\ (Forall (fun te => t0 <= fst te) evs ->
      forall t, t - t0 <= 600000 -> ~ inactivity_fires t (prog w))
  /\ (Forall (fun te => is_heartbeat (snd te) = false) pre ->
      Forall (fun te => quiet (snd te) = true) post ->
      pre = [] \/ starts_child post w1 ->
      lastActivity (prog w) = t_init
      /\ forall t, shuttingDown (prog w) = false ->
           (inactivity_fires t (prog w) <-> t - t_init > 600000)
           /\ (t - t_init > 600000 ->
               monitor_tick t (prog w) = (log inactivity_log ;;; shutdown) (prog w)
               /\ shuttingDown (exec (monitor_tick t) (prog w)) = true
               /\ trace (monitor_tick t) (prog w)
                  = Log inactivity_log :: Log "Shutting down..."
                    :: flat_map (notice (prog w)) (connectedClients (prog w))
                    ++ kill_part (prog w) ++ [SetTimeout TExit 1000])
           /\ (t - t_init <= 600000 -> monitor_tick t (prog w) = (tt, prog w, []))).
Proof.
  intros evs w1 w t_init.
  split; [reflexivity|].
  split; [intros now s; apply startLanPlay_activity|].
  split; [reflexivity|].
  split.
  - intros Hclock t Ht Hf. apply inactivity_fires_iff in Hf as (_ & _ & Hf).
    assert (Hb : t0 <= lastActivity (prog w)).
    { apply run_activity_bound; [assumption | simpl; lia]. }
    change (inactivityTimeoutMs CONFIG) with 600000 in Hf. lia.
  - intros Hpre Hq Hstart.
    assert (Hw : w = fst (run post w1)).
    { unfold w, evs. rewrite run_app. reflexivity. }
    assert (Ha : lastActivity (prog w) = t_init).
    { rewrite Hw. rewrite (run_quiet post w1 (lastActivity (prog w1))) by trivial.
      unfold t_init, evs. rewrite last_start_app. fold w1.
      destruct Hstart as [->|Hs]; [reflexivity|].
      apply last_start_reset, Hs. }
    split; [exact Ha|].
    assert (Hh : hasReceivedHeartbeat (prog w) = false).
    { unfold w. rewrite run_keeps_heartbeat; [reflexivity|].
      apply Forall_app. split; [exact Hpre|].
      eapply Forall_impl; [exact Hq|]. intros te. apply quiet_not_heartbeat. }
    assert (Hnd : NoDup (connectedClients (prog w))).
    { apply run_NoDup. constructor. }
    intros t Hsd.
    assert (Hiff : inactivity_fires t (prog w) <-> t - t_init > 600000).
    { rewrite inactivity_fires_iff, Ha, Hh.
      change (inactivityTimeoutMs CONFIG) with 600000. split.
      - intros (_ & _ & H). exact H.
      - intros H. repeat split; [assumption | intros [? _]; discriminate | assumption]. }
    split; [exact Hiff|].
    assert (Hcases := tick_cases t (prog w)). rewrite Hsd, Hh in Hcases. cbn [andb] in Hcases.
    rewrite Ha in Hcases. change (inactivityTimeoutMs CONFIG) with 600000 in Hcases.
    split.
    + intros Hgt.
      destruct (Z.gtb_spec (t - t_init) 600000) as [_|Hle]; [|lia].
      split; [exact Hcases|]. unfold exec, trace. rewrite Hcases.
      split; [apply shutdown_sets|].
      change (snd ((log inactivity_log ;;; shutdown) (prog w)))
        with (Log inactivity_log :: trace shutdown (prog w)).
      rewrite shutdown_trace by assumption. reflexivity.
    + intros Hle.
      destruct (Z.gtb_spec (t - t_init) 600000) as [Hgt|_]; [lia | exact Hcases].
Qed.

(** *** Heartbeats *)

Lemma other_logs now ev :
  ev ≠ EvTick -> emits_only (fun e => e ≠ Log heartbeat_log) (handler now ev).
Proof.
  intros Hev. destruct ev; try congruence;
    unfold_callbacks; emitted;
    intros Heq; rewrite heartbeat_log_eq in Heq;
    try match goal with sig : signal |- _ => destruct sig end;
    simpl in Heq; discriminate.
Qed.

Lemma timer_logs now a :
  emits_only (fun e => e ≠ Log heartbeat_log) (timer_callback now a).
Proof.
  destruct a; unfold_callbacks; emitted;
    intros Heq; rewrite heartbeat_log_eq in Heq; simpl in Heq; discriminate.
Qed.

Lemma step_no_heartbeat_log now ev w :
  hasReceivedHeartbeat (prog w) = false -> Log heartbeat_log ∉ snd (step now ev w).
Proof.
  intros Hh Hin.
  destruct (step_runs now ev w) as [Hs|(m & Hm & _ & Htr & _)].
  { rewrite Hs in Hin. apply elem_of_nil in Hin. destruct Hin. }
  rewrite Htr in Hin. destruct Hm as [->|[a ->]].
  - destruct ev; try (apply other_logs in Hin; [congruence | discriminate]).
    apply (heartbeat_fires_iff now (prog w)) in Hin as (_ & Hh' & _). congruence.
  - apply timer_logs in Hin. congruence.
Qed.

Lemma run_no_heartbeat_log evs : forall w,
  Forall (fun te => is_heartbeat (snd te) = false) evs ->
  hasReceivedHeartbeat (prog w) = false ->
  Log heartbeat_log ∉ snd (run evs w).
Proof.
  induction evs as [|[now ev] evs IH]; intros w Hall Hh Hin.
  - apply elem_of_nil in Hin. destruct Hin.
  - inversion Hall as [|? ? Hev Hrest]; subst. simpl in Hev.
    rewrite run_cons in Hin. cbn [snd] in Hin. apply elem_of_app in Hin as [Hin|Hin].
    + revert Hin. apply step_no_heartbeat_log, Hh.
    + revert Hin. apply IH; [assumption|].
      rewrite <- Hh. apply step_keeps.
      * apply handler_keeps_heartbeat, Hev.
      * intros a. apply timer_keeps_heartbeat.
Qed.

(** C3.  In a run from startup in which no client message is a heartbeat,
    the monitor never takes its heartbeat branch: the line of the heartbeat
    timeout is not in the trace of the run.  [hasReceivedHeartbeat] is
    still false at the end, and a further tick does not trip the heartbeat
    timeout either, whatever the time [now] of that tick. *)
Theorem no_heartbeat_no_timeout (t0 : Z) (evs : list (Z * event)) :
  Forall (fun te => is_heartbeat (snd te) = false) evs ->
  (Log heartbeat_log ∉ snd (run evs (init_world t0)))
  /\ hasReceivedHeartbeat (prog (fst (run evs (init_world t0)))) = false
  /\ forall now, ~ heartbeat_fires now (prog (fst (run evs (init_world t0)))).
Proof.
  intros Hall.
  assert (Hno : hasReceivedHeartbeat (prog (fst (run evs (init_world t0)))) = false).
  { rewrite run_keeps_heartbeat by assumption. reflexivity. }
  split; [apply run_no_heartbeat_log; [assumption | reflexivity]|].
  split; [exact Hno|].
  intros now Hf. apply heartbeat_fires_iff in Hf as (_ & Hh & _). congruence.
Qed.

(** *** Crash and restart *)

Lemma on_proc_close_trace code s :
  trace (on_proc_close code) s
  = Log ("lan-play exited with code " +:+ show_code code)
    :: flat_map (status_to (set_lanPlayRunning false s)) (connectedClients s)
    ++ (if shuttingDown s then []
        else [Log "lan-play crashed. Restarting in 3 seconds..."; SetTimeout TRestart 3000]).
Proof.
  unfold on_proc_close. rewrite !trace_bind, ?exec_bind, broadcastStatus_exec.
  rewrite broadcastStatus_trace. simpl. f_equal. f_equal.
  unfold trace, exec, value, when, bind, log, emit, modify, get; simpl.
  destruct (shuttingDown s); reflexivity.
Qed.

(** An exit seen while shutting down sets no timer; one seen before sets
    the 3000 ms restart timer. *)
Lemma exit_schedules_restart now code s :
  scheduled now (trace (on_proc_close code) s)
  = if shuttingDown s then [] else [(now + 3000, TRestart)].
Proof.
  rewrite on_proc_close_trace. simpl.
  assert (Hnone : forall l tl,
    scheduled now (flat_map (status_to (set_lanPlayRunning false s)) l ++ tl)
    = scheduled now tl).
  { induction l as [|x l IH]; intros tl; [reflexivity|].
    simpl. unfold status_to at 1. destruct (ready_state x _ =? 1); simpl; apply IH. }
  rewrite Hnone. destruct (shuttingDown s); reflexivity.
Qed.

(** A restart timer that comes due runs [startLanPlay] whatever the value
    of [shuttingDown]. *)
Lemma restart_timer_spawns now k due w :
  exited w = None -> timers w !! k = Some (due, TRestart) -> due <= now ->
  Spawn (nextChild (prog w)) BINARY_PATH ["--relay-server-addr"; relay CONFIG]
    ∈ snd (step now (EvTimer k) w)
  /\ lanPlayRunning (prog (fst (step now (EvTimer k) w))) = true
  /\ shuttingDown (prog (fst (step now (EvTimer k) w))) = shuttingDown (prog w).
Proof.
  intros Hex Ht Hdue. unfold step. rewrite Hex, Ht.
  destruct (Z.leb_spec due now); [|lia].
  unfold run_callback. cbn [fst snd prog timer_callback]. split; [|split].
  - unfold startLanPlay. rewrite !trace_bind. simpl. right. left.
  - unfold startLanPlay. rewrite !exec_bind, broadcastStatus_exec. reflexivity.
  - apply startLanPlay_keeps; reflexivity.
Qed.


(** ** Further properties *)

(** *** Configuration *)

Lemma index_of_Some x l i :
  index_of x l = Some i <->
  exists pre rest, l = pre ++ x :: rest /\ (x ∉ pre) /\ length pre = i.
Proof.
  revert i. induction l as [|y l IH]; intros i; simpl.
  - split; [discriminate|]. intros (pre & rest & H & _). destruct pre; discriminate.
  - destruct (String.eqb_spec y x) as [->|Hne].
    + split.
      * intros [= <-]. exists [], l. repeat split. apply not_elem_of_nil.
      * intros (pre & rest & H & Hpre & <-). destruct pre as [|z pre]; [reflexivity|].
        injection H as <- _. exfalso. apply Hpre. left.
    + destruct (index_of x l) as [j|] eqn:E; simpl.
      * split.
        -- intros [= <-]. destruct (proj1 (IH j) eq_refl) as (pre & rest & -> & Hpre & <-).
           exists (y :: pre), rest. repeat split.
           rewrite not_elem_of_cons. split; [congruence | assumption].
        -- intros (pre & rest & H & Hpre & <-). destruct pre as [|z pre].
           { injection H as -> _. congruence. }
           injection H as <- ->. simpl. f_equal.
           assert (Hj : Some j = Some (length pre)); [|congruence].
           apply IH. exists pre, rest. repeat split.
           rewrite not_elem_of_cons in Hpre. tauto.
      * split; [discriminate|].
        intros (pre & rest & H & Hpre & <-). destruct pre as [|z pre].
        { injection H as -> _. congruence. }
        injection H as <- ->. exfalso.
        assert (Hn : None = Some (length pre)); [|discriminate].
        apply IH. exists pre, rest. repeat split.
        rewrite not_elem_of_cons in Hpre. tauto.
Qed.

(** X1.  [parseArg(flag)] returns a value exactly when the first
    occurrence of the flag in the arguments is followed by a non-empty
    argument, and then it returns that argument: a flag that comes last or
    is followed by the empty string counts as absent, and later
    occurrences of the flag are not looked at. *)
Theorem parseArg_first_occurrence (argv : list string) (flag v : string) :
  parseArg argv flag = Some v <->
  v ≠ "" /\ exists pre rest, argv = pre ++ flag :: v :: rest /\ (flag ∉ pre).
Proof.
  unfold parseArg. split.
  - destruct (index_of flag argv) as [idx|] eqn:E; [|discriminate].
    apply index_of_Some in E as (pre & rest & -> & Hpre & <-).
    replace (S (length pre)) with (length pre + 1)%nat by lia.
    rewrite lookup_app_r by lia.
    replace (length pre + 1 - length pre)%nat with 1%nat by lia.
    destruct rest as [|w rest]; simpl; [discriminate|].
    destruct (String.eqb_spec w ""); simpl; [discriminate|].
    intros [= ->]. split; [assumption|]. exists pre, rest. split; [reflexivity | assumption].
  - intros (Hv & pre & rest & -> & Hpre).
    assert (E : index_of flag (pre ++ flag :: v :: rest) = Some (length pre)).
    { apply index_of_Some. exists pre, (v :: rest). repeat split. assumption. }
    rewrite E.
    replace (S (length pre)) with (length pre + 1)%nat by lia.
    rewrite lookup_app_r by lia.
    replace (length pre + 1 - length pre)%nat with 1%nat by lia. simpl.
    destruct (String.eqb_spec v ""); [contradiction | reflexivity].
Qed.

Lemma parseArg_nonempty argv flag r : parseArg argv flag = Some r -> r ≠ "".
Proof.
  unfold parseArg. destruct (index_of flag argv) as [idx|]; [|discriminate].
  destruct (argv !! S idx) as [w|]; simpl; [|discriminate].
  destruct (String.eqb_spec w ""); simpl; [discriminate|].
  intros [= ->]. assumption.
Qed.

(** X2.  The relay the launcher starts with is never the empty string.  A
    non-empty baked relay wins over the command line whatever the
    arguments are; otherwise the relay is what [parseArg('--relay')]
    finds.  Exactly when there is neither, the launcher prints the error
    line and the usage line on the error stream and exits with status 1,
    in that order and doing nothing else; with a relay it prints nothing
    and does not exit. *)
Theorem startup_relay_resolution (baked : option string) (argv : list string) :
  (forall r, startup_relay baked argv = Some r -> r ≠ "")
  /\ (truthy baked = true -> startup_relay baked argv = baked)
  /\ (truthy baked = false -> startup_relay baked argv = parseArg argv "--relay")
  /\ (forall r, load_relay baked argv = inl r <-> startup_relay baked argv = Some r)
  /\ (truthy baked = false /\ parseArg argv "--relay" = None
      <-> load_relay baked argv
          = inr [ConsoleError "Error: relay server not specified.";
                 ConsoleError "Usage: node launcher.js --relay yourserver.example.com:11451";
                 Core (Exit 1)])
  /\ (forall es, load_relay baked argv = inr es ->
        es = [ConsoleError "Error: relay server not specified.";
              ConsoleError "Usage: node launcher.js --relay yourserver.example.com:11451";
              Core (Exit 1)]).
Proof.
  unfold load_relay, startup_relay. split; [|split; [|split]].
  - intros r. destruct (truthy baked) eqn:Hb.
    + intros ->. simpl in Hb. destruct (String.eqb_spec r ""); [discriminate | assumption].
    + apply parseArg_nonempty.
  - intros ->. reflexivity.
  - intros ->. reflexivity.
  - split; [|split].
    + intros r. destruct (if truthy baked then baked else parseArg argv "--relay");
        [split; intros [= ->]; reflexivity | split; discriminate].
    + destruct (truthy baked) eqn:Hb.
      * destruct baked as [r|]; [|discriminate].
        split; [intros [? _]; discriminate | discriminate].
      * destruct (parseArg argv "--relay");
          [split; [intros [_ ?]; discriminate | discriminate] | split; [reflexivity | tauto]].
    + intros es. destruct (if truthy baked then baked else parseArg argv "--relay");
        [discriminate | intros [= <-]; reflexivity].
Qed.


(** *** Binary download, continued *)

(** Whatever the network answers, [followRedirects] from depth [depth]
    issues at most [6 - depth] requests, all of them with the module that
    fits the URL, and hands a response to its caller, whole or cut short,
    only if it has status 200 and is no redirect. *)
Lemma follow_bounded net n : forall url depth,
  (6 - depth <= n)%nat ->
  (length (fst (followRedirects net url depth)) <= 6 - depth)%nat
  /\ Forall (fun e => is_get e = true /\ scheme_ok e) (fst (followRedirects net url depth))
  /\ (forall res, snd (followRedirects net url depth) = OnResponse res ->
        statusCode res = 200 /\ is_redirect res = false)
  /\ (forall res received, snd (followRedirects net url depth) = OnCut res received ->
        statusCode res = 200 /\ is_redirect res = false).
Proof.
  induction n as [|n IH]; intros url depth Hn.
  - rewrite followRedirects_too_deep by lia. simpl.
    split; [lia|]. split; [constructor | split; discriminate].
  - destruct (le_lt_dec depth 5) as [Hle|Hgt].
    2:{ rewrite followRedirects_too_deep by lia. simpl.
        split; [lia|]. split; [constructor | split; discriminate]. }
    rewrite followRedirects_request by assumption. cbv zeta.
    assert (Hone : forall r : fetched,
      (forall res, r = OnResponse res -> statusCode res = 200 /\ is_redirect res = false) ->
      (forall res received, r = OnCut res received ->
         statusCode res = 200 /\ is_redirect res = false) ->
      (length (fst ([HttpGet (String.prefix "https" url) url], r)) <= 6 - depth)%nat
      /\ Forall (fun e => is_get e = true /\ scheme_ok e)
           (fst ([HttpGet (String.prefix "https" url) url], r))
      /\ (forall res, snd ([HttpGet (String.prefix "https" url) url], r) = OnResponse res ->
            statusCode res = 200 /\ is_redirect res = false)
      /\ (forall res received,
            snd ([HttpGet (String.prefix "https" url) url], r) = OnCut res received ->
            statusCode res = 200 /\ is_redirect res = false)).
    { intros r H1 H2. cbn [fst snd length]. split; [lia|].
      split; [repeat constructor|]. split; assumption. }
    assert (Hrec : forall res,
      let r := followRedirects net (default "" (location res)) (S depth) in
      (length (fst (HttpGet (String.prefix "https" url) url :: fst r, snd r)) <= 6 - depth)%nat
      /\ Forall (fun e => is_get e = true /\ scheme_ok e)
           (fst (HttpGet (String.prefix "https" url) url :: fst r, snd r))
      /\ (forall res', snd (HttpGet (String.prefix "https" url) url :: fst r, snd r)
                        = OnResponse res' ->
            statusCode res' = 200 /\ is_redirect res' = false)
      /\ (forall res' received,
            snd (HttpGet (String.prefix "https" url) url :: fst r, snd r)
            = OnCut res' received ->
            statusCode res' = 200 /\ is_redirect res' = false)).
    { intros res r.
      destruct (IH (default "" (location res)) (S depth) ltac:(lia)) as (Hlen & Hall & Hres).
      cbn [fst snd length]. fold r in Hlen, Hall, Hres. split; [lia|]. split; [|exact Hres].
      constructor; [|exact Hall]. split; reflexivity. }
    assert (Hstatus : forall res hand,
      is_redirect res = false ->
      (forall res', hand = OnResponse res' -> res' = res) ->
      (forall res' received, hand = OnCut res' received -> res' = res) ->
      (forall res', by_status res hand = OnResponse res' ->
         statusCode res' = 200 /\ is_redirect res' = false)
      /\ (forall res' received, by_status res hand = OnCut res' received ->
            statusCode res' = 200 /\ is_redirect res' = false)).
    { intros res hand Hr H1 H2. unfold by_status.
      destruct (Z.eqb_spec (statusCode res) 200) as [Hok|Hbad]; cbn [negb];
        [|split; discriminate].
      split.
      - intros res' E. rewrite (H1 _ E). split; assumption.
      - intros res' received E. rewrite (H2 _ _ E). split; assumption. }
    destruct (net depth url) as [res|message|res message|res received].
    + destruct (is_redirect res) eqn:Hr; [apply Hrec|].
      change (if negb (statusCode res =? 200)
              then ([HttpGet (String.prefix "https" url) url],
                    OnError ("HTTP " +:+ pretty (statusCode res)))
              else ([HttpGet (String.prefix "https" url) url], OnResponse res))
        with (let g := [HttpGet (String.prefix "https" url) url] in
              if negb (statusCode res =? 200)
              then (g, OnError ("HTTP " +:+ pretty (statusCode res)))
              else (g, OnResponse res)).
      cbv zeta.
      destruct (Z.eqb_spec (statusCode res) 200) as [Hok|Hbad]; cbn [negb].
      * apply Hone; [|discriminate]. intros res' [= <-]. split; assumption.
      * apply Hone; discriminate.
    + apply Hone; discriminate.
    + destruct (is_redirect res) eqn:Hr.
      * apply Hone; destruct (depth <? 5)%nat; discriminate.
      * apply Hone; apply (Hstatus res (OnResponse res) Hr);
          [intros ? [= <-]; reflexivity | discriminate
          |intros ? [= <-]; reflexivity | discriminate].
    + destruct (is_redirect res) eqn:Hr; [apply Hrec|].
      apply Hone; apply (Hstatus res (OnCut res received) Hr);
        [discriminate | intros ? ? [= <- _]; reflexivity
        |discriminate | intros ? ? [= <- _]; reflexivity].
Qed.

Lemma count_if_length p es : (count_if p es <= length es)%nat.
Proof. unfold count_if. apply filter_length_le. Qed.

Lemma count_if_all p es :
  Forall (fun e => p e = true) es -> count_if p es = length es.
Proof.
  induction 1 as [|e es He Hes IH]; [reflexivity|].
  unfold count_if in *. simpl. rewrite He. simpl. f_equal. exact IH.
Qed.

Lemma https_first : String.prefix "https" BINARY_URL = true.
Proof. reflexivity. Qed.

(** X3.  Whatever the network answers and whatever the platform is,
    [ensureBinary] issues at most six requests; each request goes through
    the https module exactly when its URL starts with "https", so a
    redirect to a plain http URL is followed over plain http; and when no
    file is in place the first request is an https request for
    [BINARY_URL]. *)
Theorem download_requests (net : nat -> string -> get_result) (fs : gmap string string) :
  let es := snd (fst (ensureBinary net fs)) in
  (count_if is_get es <= 6)%nat
  /\ Forall scheme_ok es
  /\ (fs !! BINARY_PATH = None ->
      exists rest, es = opening ++ HttpGet true BINARY_URL :: rest).
Proof.
  intros es. subst es. unfold ensureBinary.
  destruct (bool_decide (is_Some (fs !! BINARY_PATH))) eqn:Hex.
  { cbn [fst snd]. split; [unfold count_if; simpl; lia|]. split; [repeat constructor|].
    intros Hnone. apply bool_decide_eq_true in Hex. rewrite Hnone in Hex.
    destruct Hex; discriminate. }
  destruct (follow_bounded net 6 BINARY_URL 0 ltac:(lia)) as (Hlen & Hall & _).
  assert (Hfirst : exists rest,
    fst (followRedirects net BINARY_URL 0) = HttpGet true BINARY_URL :: rest).
  { rewrite followRedirects_request by lia. cbv zeta. rewrite https_first.
    destruct (net 0%nat BINARY_URL) as [res|message|res message|res received];
      [|eexists; reflexivity| |];
      (destruct (is_redirect res); [eexists; reflexivity|]);
      try (eexists; reflexivity).
    destruct (negb _); eexists; reflexivity. }
  assert (Hgets : (count_if is_get (fst (followRedirects net BINARY_URL 0)) <= 6)%nat).
  { etransitivity; [apply count_if_length | lia]. }
  assert (Hsch : Forall scheme_ok (fst (followRedirects net BINARY_URL 0))).
  { eapply Forall_impl; [exact Hall|]. intros e [_ He]. exact He. }
  destruct Hfirst as (rest & Hrest).
  destruct (followRedirects net BINARY_URL 0) as [gets [res|message|message|res received]];
    cbn [fst snd] in *; subst gets.
  - split; [|split].
    + unfold count_if in *. simpl in *.
      rewrite List.filter_app, length_app.
      destruct (negb _); simpl; lia.
    + repeat (apply Forall_cons; split; [exact I|]).
      apply Forall_app. split; [exact Hsch|].
      destruct (negb _); repeat constructor.
    + intros _. eexists. reflexivity.
  - split; [|split].
    + unfold count_if in *. simpl in *.
      rewrite List.filter_app, length_app. simpl. lia.
    + repeat (apply Forall_cons; split; [exact I|]).
      apply Forall_app. split; [exact Hsch | repeat constructor].
    + intros _. eexists. reflexivity.
  - split; [|split].
    + unfold count_if in *. simpl in *. lia.
    + repeat (apply Forall_cons; split; [exact I|]). exact Hsch.
    + intros _. eexists. reflexivity.
  - split; [|split].
    + unfold count_if in *. simpl in *.
      rewrite List.filter_app, length_app. simpl. lia.
    + repeat (apply Forall_cons; split; [exact I|]).
      apply Forall_app. split; [exact Hsch | repeat constructor].
    + intros _. eexists. reflexivity.
Qed.




(** *** Main *)

Lemma startLanPlay_trace now s :
  trace (startLanPlay now) s
  = Log ("Starting lan-play → " +:+ relay CONFIG)
    :: Spawn (nextChild s) BINARY_PATH ["--relay-server-addr"; relay CONFIG]
    :: flat_map (status_to (exec (startLanPlay now) s)) (connectedClients s).
Proof.
  unfold startLanPlay at 1. rewrite !trace_bind, broadcastStatus_trace.
  unfold startLanPlay. rewrite !exec_bind, broadcastStatus_exec. reflexivity.
Qed.

Lemma startLanPlay_exec now s :
  exec (startLanPlay now) s
  = set_lastActivity now
      (set_lanPlayRunning true
         (set_lanPlayProc (Some {| pid := nextChild s; killed := false |})
            (set_nextChild (S (nextChild s)) s))).
Proof.
  unfold startLanPlay. rewrite !exec_bind, broadcastStatus_exec. reflexivity.
Qed.


Lemma ensureBinary_acquiring net fs :
  Forall acquiring (snd (fst (ensureBinary net fs))).
Proof.
  unfold ensureBinary.
  destruct (bool_decide _); [repeat constructor|].
  destruct (follow_bounded net 6 BINARY_URL 0 ltac:(lia)) as (_ & Hall & _).
  assert (Hgets : Forall acquiring (fst (followRedirects net BINARY_URL 0))).
  { eapply Forall_impl; [exact Hall|]. intros [] [Hg _]; try discriminate.
    repeat split. }
  destruct (followRedirects net BINARY_URL 0) as [gets [res|message|message|res received]];
    cbn [fst snd] in *.
  - repeat (apply Forall_cons; split; [repeat split|]).
    apply Forall_app. split; [exact Hgets|].
    destruct (negb _); repeat constructor.
  - repeat (apply Forall_cons; split; [repeat split|]).
    apply Forall_app. split; [exact Hgets | repeat constructor].
  - repeat (apply Forall_cons; split; [repeat split|]). exact Hgets.
  - repeat (apply Forall_cons; split; [repeat split|]).
    apply Forall_app. split; [exact Hgets | repeat constructor].
Qed.

Lemma npcap_check_acquiring fs : Forall acquiring (npcap_check fs).
Proof.
  unfold npcap_check. destruct (String.eqb PLATFORM "win32"); [|constructor].
  destruct (existsb _ _); repeat constructor.
Qed.



Lemma ensureBinary_resolved net fs fs1 es1 :
  ensureBinary net fs = (fs1, es1, Resolved) -> is_Some (fs1 !! BINARY_PATH).
Proof.
  unfold ensureBinary. case_bool_decide as Hex.
  - intros [= <- _]. exact Hex.
  - destruct (followRedirects net BINARY_URL 0) as [gets [res|err|err|res received]];
      try discriminate.
    intros [= <- _]. rewrite lookup_insert_eq. eexists; reflexivity.
Qed.

Lemma status_to_sends s l :
  Forall (fun e => is_send e = true) (flat_map (status_to s) l).
Proof.
  induction l as [|x l IH]; [constructor|].
  simpl. apply Forall_app. split; [|exact IH].
  unfold status_to. destruct (ready_state x s =? 1); repeat constructor.
Qed.

(** X6.  When the binary is in place, [main] leaves a file at the path
    and the state of a fresh [startLanPlay()]: a child handle, the running
    flag set, [lastActivity] at the current time.  In order, it makes the
    server listen on port 25190 of 127.0.0.1 and on no other address,
    spawns the file at [BINARY_PATH] with the relay as its argument, sends
    the status, and starts the monitor with a period of 5000 ms.  Before
    the server listens nothing is spawned or sent and the process does not
    exit: a missing Npcap on Windows is logged and nothing more. *)
Theorem main_starts_child
    (net : nat -> string -> get_result) (now : Z) (fs : gmap string string) (s : state) :
  snd (ensureBinary net fs) = Resolved ->
  let fs' := fst (fst (main net now fs s)) in
  let s' := snd (fst (main net now fs s)) in
  let es := snd (main net now fs s) in
  is_Some (fs' !! BINARY_PATH)
  /\ lanPlayProc s' = Some {| pid := nextChild s; killed := false |}
  /\ lanPlayRunning s' = true
  /\ lastActivity s' = now
  /\ exists before after,
       es = map Core before
            ++ ServerListen 25190 "127.0.0.1"
            :: Core (Log ("Starting lan-play → " +:+ relay CONFIG))
            :: Core (Spawn (nextChild s) BINARY_PATH ["--relay-server-addr"; relay CONFIG])
            :: map Core after ++ [MonitorEvery 5000]
       /\ Forall acquiring before
       /\ Forall (fun e => is_send e = true) after.
Proof.
  intros Hres fs' s' es. subst fs' s' es. unfold main.
  destruct (ensureBinary net fs) as [[fs1 es1] r] eqn:E. cbn [snd] in Hres. subst r.
  cbn [fst snd].
  pose proof (ensureBinary_acquiring net fs) as Hacq. rewrite E in Hacq. cbn [fst snd] in Hacq.
  split; [eapply ensureBinary_resolved, E|].
  rewrite startLanPlay_exec, startLanPlay_trace.
  split; [reflexivity|]. split; [reflexivity|]. split; [reflexivity|].
  exists (banner ++ es1 ++ npcap_check fs1),
         (flat_map (status_to (exec (startLanPlay now) s)) (connectedClients s)).
  split; [|split].
  - rewrite startLanPlay_exec. reflexivity.
  - apply Forall_app. split; [unfold banner; repeat constructor|].
    apply Forall_app. split; [exact Hacq | apply npcap_check_acquiring].
  - apply status_to_sends.
Qed.


(** *** Invariants with effects *)

Lemma inv_ret {A} I Q (a : A) : inv I Q (ret a).
Proof.
  intros s H. split; [exact H|]. intros e He. apply elem_of_nil in He. destruct He.
Qed.

Lemma inv_get I Q : inv I Q get.
Proof.
  intros s H. split; [exact H|]. intros e He. apply elem_of_nil in He. destruct He.
Qed.

Lemma inv_emit (I : state -> Prop) (Q : effect -> Prop) e : Q e -> inv I Q (emit e).
Proof.
  intros HQ s H. split; [exact H|]. intros e' He.
  apply list_elem_of_singleton in He. subst. exact HQ.
Qed.

Lemma inv_modify (I : state -> Prop) Q g : (forall s, I s -> I (g s)) -> inv I Q (modify g).
Proof.
  intros Hg s H. split; [apply Hg, H|]. intros e He. apply elem_of_nil in He. destruct He.
Qed.

Lemma inv_bind {A B} I Q (m : M A) (k : A -> M B) :
  inv I Q m -> (forall a, inv I Q (k a)) -> inv I Q (bind m k).
Proof.
  intros Hm Hk s H. destruct (Hm s H) as [H1 Q1].
  destruct (Hk (value m s) (exec m s) H1) as [H2 Q2].
  split; [exact H2|]. intros e. rewrite trace_bind, elem_of_app. intros [He|He]; auto.
Qed.

Lemma inv_when I Q b m : inv I Q m -> inv I Q (when b m).
Proof. destruct b; [trivial | intros _; apply inv_ret]. Qed.

Lemma inv_for_of {A} I Q (xs : list A) body :
  (forall x, inv I Q (body x)) -> inv I Q (for_of xs body).
Proof.
  intros Hb. induction xs as [|x xs IH]; simpl.
  - apply inv_ret.
  - apply inv_bind; auto.
Qed.

(** Reading the state first: what follows may use that the value read is
    the current state and satisfies the invariant. *)
Lemma inv_read {B} (I : state -> Prop) Q (k : state -> M B) :
  (forall s, I s -> I (exec (k s) s) /\ forall e, e ∈ trace (k s) s -> Q e) ->
  inv I Q (bind get k).
Proof. intros Hk s H. exact (Hk s H). Qed.

(** A run keeps what every callback keeps, and emits what they emit. *)
Lemma step_inv (I : state -> Prop) (Q : effect -> Prop) now ev w :
  inv I Q (handler now ev) -> (forall a, inv I Q (timer_callback now a)) ->
  I (prog w) ->
  I (prog (fst (step now ev w))) /\ forall e, e ∈ snd (step now ev w) -> Q e.
Proof.
  intros Hh Ht HI.
  destruct (step_runs now ev w) as [->|(m & Hm & _ & -> & ->)].
  { split; [exact HI|]. intros e He. apply elem_of_nil in He. destruct He. }
  destruct Hm as [->|[a ->]]; [apply Hh | apply Ht]; exact HI.
Qed.

Lemma run_inv (I : state -> Prop) (Q : effect -> Prop) evs :
  (forall now ev, inv I Q (handler now ev)) ->
  (forall now a, inv I Q (timer_callback now a)) ->
  forall w, I (prog w) ->
  I (prog (fst (run evs w))) /\ forall e, e ∈ snd (run evs w) -> Q e.
Proof.
  intros Hh Ht. induction evs as [|[now ev] evs IH]; intros w HI.
  { split; [exact HI|]. intros e He. apply elem_of_nil in He. destruct He. }
  rewrite run_cons. cbn [fst snd].
  destruct (step_inv I Q now ev w (Hh now ev) (Ht now) HI) as [H1 Q1].
  destruct (IH _ H1) as [H2 Q2].
  split; [exact H2|]. intros e. rewrite elem_of_app. intros [He|He]; auto.
Qed.



(** *** Sockets that are not open *)

Lemma ready_state_insert ws a w s :
  ready_state ws (set_sockets (<[a := w]> (sockets s)) s)
  = if decide (a = ws) then readyState w else ready_state ws s.
Proof.
  unfold ready_state. simpl. destruct (decide (a = ws)) as [->|Hne].
  - rewrite lookup_insert_eq. reflexivity.
  - rewrite lookup_insert_ne by assumption. reflexivity.
Qed.

Lemma is_listening_insert ws a w s :
  is_listening ws (set_sockets (<[a := w]> (sockets s)) s)
  = if decide (a = ws) then listening w else is_listening ws s.
Proof.
  unfold is_listening. simpl. destruct (decide (a = ws)) as [->|Hne].
  - rewrite lookup_insert_eq. reflexivity.
  - rewrite lookup_insert_ne by assumption. reflexivity.
Qed.

Ltac fields :=
  cbn [lanPlayProc lanPlayRunning lastHeartbeat hasReceivedHeartbeat lastActivity
       shuttingDown connectedClients sockets nextChild nextSocket
       set_lanPlayProc set_lanPlayRunning set_lastHeartbeat set_hasReceivedHeartbeat
       set_lastActivity set_shuttingDown set_connectedClients set_sockets
       set_nextChild set_nextSocket readyState listening fst snd].

Lemma new_socket_run s :
  new_socket s
  = (nextSocket s,
     set_sockets (<[nextSocket s := {| readyState := 1; listening := false |}]> (sockets s))
       (set_nextSocket (S (nextSocket s)) s),
     []).
Proof. reflexivity. Qed.

Lemma ws_close_exec a code s :
  exec (ws_close a code) s
  = match sockets s !! a with
    | Some w =>
        if readyState w =? 1
        then set_sockets (<[a := {| readyState := 2; listening := listening w |}]> (sockets s)) s
        else s
    | None => s
    end.
Proof. reflexivity. Qed.

Ltac unfold_handlers :=
  unfold handler, timer_callback, startLanPlay, on_stdout, on_stderr, on_proc_close,
    on_proc_error, on_connection, on_message, on_ws_close,
    monitor_tick, on_signal, on_exit_timer, shutdown, broadcastStatus, getStatus, log.

Section NotOpen.

Variable ws : nat.

Let quiet_to_ws (e : effect) : Prop := sent_to ws e = false.

Lemma not_open_wsSend a obj : inv (not_open ws) quiet_to_ws (wsSend a obj).
Proof.
  unfold wsSend. apply inv_read. intros s [Hr Hn].
  destruct (ready_state a s =? 1) eqn:E; simpl.
  - split; [split; assumption|]. intros e He.
    apply list_elem_of_singleton in He. subst e. unfold quiet_to_ws. simpl.
    apply bool_decide_eq_false_2. intros ->. lia.
  - split; [split; assumption|]. intros e He. apply elem_of_nil in He. destruct He.
Qed.

Lemma not_open_ws_close a code : inv (not_open ws) quiet_to_ws (ws_close a code).
Proof.
  unfold ws_close. apply inv_bind; [apply inv_emit; reflexivity | intros _].
  apply inv_modify. intros s [Hr Hn].
  destruct (sockets s !! a) as [w|] eqn:E; [|split; assumption].
  destruct (readyState w =? 1); [|split; assumption].
  split; [|exact Hn]. rewrite ready_state_insert.
  destruct (decide (a = ws)); [simpl; lia | exact Hr].
Qed.

Lemma not_open_set_ready a v : v ≠ 1 -> inv (not_open ws) quiet_to_ws (set_ready a v).
Proof.
  intros Hv. unfold set_ready. apply inv_modify. intros s [Hr Hn].
  destruct (sockets s !! a) as [w|] eqn:E; [|split; assumption].
  split; [|exact Hn]. rewrite ready_state_insert.
  destruct (decide (a = ws)); [simpl; assumption | exact Hr].
Qed.

Lemma not_open_new_socket : inv (not_open ws) quiet_to_ws new_socket.
Proof.
  unfold new_socket. apply inv_read. intros s [Hr Hn]. split.
  - unfold exec, bind, modify, ret; simpl. split; [|simpl; lia].
    change (ready_state ws (set_sockets (<[nextSocket s := {| readyState := 1; listening := false |}]>
              (sockets (set_nextSocket (S (nextSocket s)) s))) (set_nextSocket (S (nextSocket s)) s)) ≠ 1).
    rewrite ready_state_insert. destruct (decide (nextSocket s = ws)); [lia | exact Hr].
  - intros e He. apply elem_of_nil in He. destruct He.
Qed.

Lemma not_open_listen a s :
  not_open ws s ->
  not_open ws
    match sockets s !! a with
    | Some w => set_sockets (<[a := {| readyState := readyState w; listening := true |}]> (sockets s)) s
    | None => s
    end.
Proof.
  intros [Hr Hn]. destruct (sockets s !! a) as [w|] eqn:E; [|split; assumption].
  split; [|exact Hn]. rewrite ready_state_insert.
  destruct (decide (a = ws)) as [->|]; [|exact Hr].
  simpl. unfold ready_state in Hr. rewrite E in Hr. exact Hr.
Qed.

Ltac not_open_steps :=
  repeat match goal with
    | |- inv _ _ (if ?b then _ else _) => destruct b
    | |- inv _ _ (match ?x with _ => _ end) => destruct x
    | |- inv _ _ (modify _) =>
        apply inv_modify; intros ? ?; first [assumption | apply not_open_listen; assumption]
    | |- inv _ _ (emit _) => apply inv_emit; reflexivity
    | |- inv _ _ (wsSend _ _) => apply not_open_wsSend
    | |- inv _ _ (ws_close _ _) => apply not_open_ws_close
    | |- inv _ _ new_socket => apply not_open_new_socket
    | |- inv _ _ (set_ready _ _) => apply not_open_set_ready; discriminate
    | |- inv _ _ (bind get (fun s' => when (ready_state ?a s' =? 1) (emit (WsSend ?a ?o)))) =>
        apply (not_open_wsSend a o)
    | |- inv _ _ (ret _) => apply inv_ret
    | |- inv _ _ get => apply inv_get
    | |- inv _ _ (bind _ _) => apply inv_bind; [| intros ?]
    | |- inv _ _ (when _ _) => apply inv_when
    | |- inv _ _ (for_of _ _) => apply inv_for_of; intros ?
    end.

Lemma handler_not_open now ev : inv (not_open ws) quiet_to_ws (handler now ev).
Proof. destruct ev; unfold_handlers; not_open_steps. Qed.

Lemma timer_not_open now a : inv (not_open ws) quiet_to_ws (timer_callback now a).
Proof. destruct a; unfold_handlers; not_open_steps. Qed.

Lemma run_not_open evs w :
  not_open ws (prog w) ->
  not_open ws (prog (fst (run evs w)))
  /\ forall e, e ∈ snd (run evs w) -> sent_to ws e = false.
Proof.
  apply (run_inv (not_open ws) quiet_to_ws).
  - apply handler_not_open.
  - apply timer_not_open.
Qed.

(** The loop of [shutdown] leaves no member of the set OPEN. *)
Lemma notify_keeps_next a s :
  nextSocket (exec (wsSend a (MsgShutdown "timeout") ;;; ws_close a None) s) = nextSocket s.
Proof.
  rewrite exec_bind, wsSend_exec, ws_close_exec.
  destruct (sockets s !! a) as [w0|]; [|reflexivity].
  destruct (readyState w0 =? 1); reflexivity.
Qed.

Lemma notify_closes s :
  (ws < nextSocket s)%nat ->
  not_open ws (exec (wsSend ws (MsgShutdown "timeout") ;;; ws_close ws None) s).
Proof.
  intros Hn. split; [|rewrite notify_keeps_next; exact Hn].
  rewrite exec_bind, wsSend_exec, ws_close_exec. unfold ready_state.
  destruct (sockets s !! ws) as [w0|] eqn:E.
  - destruct (readyState w0 =? 1) eqn:E1.
    + cbn [sockets set_sockets]. rewrite lookup_insert_eq. discriminate.
    + rewrite E. intros H. rewrite H in E1. discriminate.
  - rewrite E. discriminate.
Qed.

Lemma notify_loop_closes l : forall s,
  ws ∈ l -> (ws < nextSocket s)%nat ->
  not_open ws
    (exec (for_of l (fun a => wsSend a (MsgShutdown "timeout") ;;; ws_close a None)) s).
Proof.
  induction l as [|a l IH]; intros s Hin Hn; [apply elem_of_nil in Hin; destruct Hin|].
  cbn [for_of]. rewrite exec_bind.
  destruct (decide (a = ws)) as [->|Hne].
  - apply (inv_for_of (not_open ws) quiet_to_ws).
    + intros b. apply inv_bind; [apply not_open_wsSend | intros _; apply not_open_ws_close].
    + apply notify_closes, Hn.
  - apply IH.
    + apply elem_of_cons in Hin as [E|Hin]; [congruence | exact Hin].
    + rewrite notify_keeps_next. exact Hn.
Qed.

Lemma shutdown_closes s :
  shuttingDown s = false -> ws ∈ connectedClients s -> (ws < nextSocket s)%nat ->
  not_open ws (exec shutdown s).
Proof.
  intros Hsd Hin Hn. unfold shutdown. rewrite exec_bind.
  change (value get s) with s. change (exec get s) with s. rewrite Hsd.
  rewrite !exec_bind.
  change (exec (modify (set_shuttingDown true)) s) with (set_shuttingDown true s).
  change (exec (log ?m) ?s0) with s0.
  match goal with
  | |- not_open _ (exec ?tail (exec ?kill (exec ?loop ?s1))) =>
      assert (H1 : not_open ws (exec loop s1)) by (apply notify_loop_closes; assumption);
      assert (H2 : inv (not_open ws) quiet_to_ws kill) by not_open_steps;
      assert (H3 : inv (not_open ws) quiet_to_ws tail) by not_open_steps;
      apply H3, H2, H1
  end.
Qed.

End NotOpen.


(** X7.  A socket that is not OPEN (closing after [close()], as a
    rejected connection is, or closed) never becomes OPEN again, and
    nothing is ever sent on it, whatever events follow. *)
Theorem never_sent_unless_open (ws : nat) (w : world) (evs : list (Z * event)) :
  (ws < nextSocket (prog w))%nat -> ready_state ws (prog w) ≠ 1 ->
  ready_state ws (prog (fst (run evs w))) ≠ 1
  /\ count_if (sent_to ws) (snd (run evs w)) = 0%nat.
Proof.
  intros Hn Hr.
  destruct (run_not_open ws evs w) as [[Hr' _] Hq]; [split; assumption|].
  split; [exact Hr'|]. apply count_if_none. exact Hq.
Qed.

(** *** The connection set *)

Lemma connection_bind now forwarded s :
  handler now (EvConnection forwarded) s
  = (tt,
     exec (on_connection now (nextSocket s) forwarded) (exec new_socket s),
     trace (on_connection now (nextSocket s) forwarded) (exec new_socket s)).
Proof.
  cbn [handler]. unfold bind, exec, trace. rewrite new_socket_run. cbn [fst snd app].
  destruct (on_connection now (nextSocket s) forwarded _) as [[[] s'] es]. reflexivity.
Qed.

(** The ['connection'] listener run on the socket the server has just
    created. *)
Lemma connection_exec now forwarded s :
  exec (handler now (EvConnection forwarded)) s
  = if truthy forwarded
    then set_sockets (<[nextSocket s := {| readyState := 2; listening := false |}]> (sockets s))
           (set_nextSocket (S (nextSocket s)) s)
    else set_sockets (<[nextSocket s := {| readyState := 1; listening := true |}]> (sockets s))
           (set_lastActivity now
              (set_connectedClients (set_add (nextSocket s) (connectedClients s))
                 (set_nextSocket (S (nextSocket s)) s))).
Proof.
  unfold exec at 1. rewrite connection_bind. cbn [fst snd].
  unfold exec at 2. rewrite new_socket_run. cbn [fst snd].
  unfold on_connection. destruct (truthy forwarded).
  - rewrite exec_bind. change (exec (log _) ?s0) with s0.
    rewrite ws_close_exec. fields. rewrite lookup_insert_eq. fields.
    change (1 =? 1) with true. cbv iota.
    unfold set_sockets. fields. rewrite insert_insert_eq. reflexivity.
  - rewrite !exec_bind. change (exec (log _) ?s0) with s0.
    rewrite wsSend_exec.
    unfold exec, modify, getStatus, bind, get, ret. fields.
    rewrite lookup_insert_eq. fields.
    unfold set_sockets, set_lastActivity, set_connectedClients. fields.
    rewrite insert_insert_eq. reflexivity.
Qed.

Lemma heap_wf_update a w w' s :
  sockets s !! a = Some w -> listening w' = listening w ->
  heap_wf s -> heap_wf (set_sockets (<[a := w']> (sockets s)) s).
Proof.
  intros Ha Hl (Hnd & Hlis & Hnew). split; [exact Hnd|]. split.
  - intros x Hx. rewrite is_listening_insert. destruct (decide (a = x)) as [->|].
    + rewrite Hl. specialize (Hlis x Hx). unfold is_listening in Hlis.
      rewrite Ha in Hlis. exact Hlis.
    + apply Hlis, Hx.
  - intros x Hx. simpl. rewrite lookup_insert_ne; [apply Hnew, Hx|].
    intros ->. rewrite (Hnew x Hx) in Ha. discriminate.
Qed.

Lemma heap_wf_ws_close a code : preserves heap_wf (ws_close a code).
Proof.
  unfold ws_close. apply preserves_bind; [apply preserves_emit | intros _].
  apply preserves_modify. intros s H.
  destruct (sockets s !! a) as [w|] eqn:E; [|exact H].
  destruct (readyState w =? 1); [|exact H].
  eapply heap_wf_update; [exact E | reflexivity | exact H].
Qed.

Lemma heap_wf_set_ready a v : preserves heap_wf (set_ready a v).
Proof.
  unfold set_ready. apply preserves_modify. intros s H.
  destruct (sockets s !! a) as [w|] eqn:E; [|exact H].
  eapply heap_wf_update; [exact E | reflexivity | exact H].
Qed.

Lemma heap_wf_delete a s :
  heap_wf s -> heap_wf (set_connectedClients (set_delete a (connectedClients s)) s).
Proof.
  intros (Hnd & Hlis & Hnew). split; [apply set_delete_NoDup, Hnd|]. split; [|exact Hnew].
  intros x Hx. apply Hlis. unfold set_delete in Hx.
  apply list_elem_of_filter in Hx. tauto.
Qed.

Lemma heap_wf_connection now forwarded :
  preserves heap_wf (handler now (EvConnection forwarded)).
Proof.
  intros s (Hnd & Hlis & Hnew). rewrite connection_exec.
  assert (Hfresh : forall x, x ∈ connectedClients s -> nextSocket s ≠ x).
  { intros x Hx E. subst x. specialize (Hlis _ Hx). unfold is_listening in Hlis.
    rewrite (Hnew (nextSocket s)) in Hlis by lia. discriminate. }
  destruct (truthy forwarded); unfold heap_wf, is_listening; fields.
  - split; [exact Hnd|]. split.
    + intros x Hx. rewrite lookup_insert_ne by (apply Hfresh, Hx). apply Hlis, Hx.
    + intros x Hx. rewrite lookup_insert_ne by lia. apply Hnew. lia.
  - split; [apply set_add_NoDup, Hnd|]. split.
    + intros x Hx. destruct (decide (nextSocket s = x)) as [E|Hne].
      * subst x. rewrite lookup_insert_eq. reflexivity.
      * rewrite lookup_insert_ne by assumption. apply Hlis.
        unfold set_add in Hx. case_bool_decide; [exact Hx|].
        apply elem_of_app in Hx as [Hx|Hx]; [exact Hx|].
        apply list_elem_of_singleton in Hx. congruence.
    + intros x Hx. rewrite lookup_insert_ne by lia. apply Hnew. lia.
Qed.

Ltac heap_steps :=
  repeat match goal with
    | |- preserves _ (if ?b then _ else _) => destruct b
    | |- preserves _ (match ?x with _ => _ end) => destruct x
    | |- preserves _ (modify _) =>
        apply preserves_modify; intros ? ?;
        first [assumption | apply heap_wf_delete; assumption]
    | |- preserves _ (emit _) => apply preserves_emit
    | |- preserves _ (wsSend _ _) => unfold wsSend
    | |- preserves _ (ws_close _ _) => apply heap_wf_ws_close
    | |- preserves _ (set_ready _ _) => apply heap_wf_set_ready
    | |- preserves _ (ret _) => apply preserves_ret
    | |- preserves _ get => apply preserves_get
    | |- preserves _ (bind _ _) => apply preserves_bind; [| intros ?]
    | |- preserves _ (when _ _) => apply preserves_when
    | |- preserves _ (for_of _ _) => apply preserves_for_of; intros ?
    end.

Lemma handler_heap_wf now ev : preserves heap_wf (handler now ev).
Proof.
  destruct ev;
    try match goal with
        | |- preserves _ (handler _ (EvConnection _)) => apply heap_wf_connection
        end;
    unfold_handlers; heap_steps.
Qed.

Lemma timer_heap_wf now a : preserves heap_wf (timer_callback now a).
Proof. destruct a; unfold_handlers; heap_steps. Qed.

Lemma run_heap_wf evs : forall w,
  heap_wf (prog w) -> heap_wf (prog (fst (run evs w))).
Proof.
  induction evs as [|[now ev] evs IH]; intros w H; [exact H|].
  rewrite run_cons. cbn [fst]. apply IH.
  apply (step_preserves heap_wf); [apply handler_heap_wf | intros a; apply timer_heap_wf | exact H].
Qed.

(** Whether the launcher listens to a socket is settled when the socket
    is created. *)
Lemma unheard_update ws a w w' s :
  sockets s !! a = Some w -> listening w' = listening w ->
  unheard ws s -> unheard ws (set_sockets (<[a := w']> (sockets s)) s).
Proof.
  intros Ha Hl [Hu Hn]. split; [|exact Hn]. rewrite is_listening_insert.
  destruct (decide (a = ws)) as [->|]; [|exact Hu].
  rewrite Hl. unfold is_listening in Hu. rewrite Ha in Hu. exact Hu.
Qed.

Lemma unheard_ws_close ws a code : preserves (unheard ws) (ws_close a code).
Proof.
  unfold ws_close. apply preserves_bind; [apply preserves_emit | intros _].
  apply preserves_modify. intros s H.
  destruct (sockets s !! a) as [w|] eqn:E; [|exact H].
  destruct (readyState w =? 1); [|exact H].
  eapply unheard_update; [exact E | reflexivity | exact H].
Qed.

Lemma unheard_set_ready ws a v : preserves (unheard ws) (set_ready a v).
Proof.
  unfold set_ready. apply preserves_modify. intros s H.
  destruct (sockets s !! a) as [w|] eqn:E; [|exact H].
  eapply unheard_update; [exact E | reflexivity | exact H].
Qed.

Lemma unheard_connection ws now forwarded :
  preserves (unheard ws) (handler now (EvConnection forwarded)).
Proof.
  intros s [Hu Hn]. rewrite connection_exec. unfold unheard, is_listening in *.
  destruct (truthy forwarded); fields;
    (split; [rewrite lookup_insert_ne by lia; exact Hu | lia]).
Qed.

Ltac unheard_steps :=
  repeat match goal with
    | |- preserves _ (if ?b then _ else _) => destruct b
    | |- preserves _ (match ?x with _ => _ end) => destruct x
    | |- preserves _ (modify _) => apply preserves_modify; intros ? ?; assumption
    | |- preserves _ (emit _) => apply preserves_emit
    | |- preserves _ (wsSend _ _) => unfold wsSend
    | |- preserves _ (ws_close _ _) => apply unheard_ws_close
    | |- preserves _ (set_ready _ _) => apply unheard_set_ready
    | |- preserves _ (ret _) => apply preserves_ret
    | |- preserves _ get => apply preserves_get
    | |- preserves _ (bind _ _) => apply preserves_bind; [| intros ?]
    | |- preserves _ (when _ _) => apply preserves_when
    | |- preserves _ (for_of _ _) => apply preserves_for_of; intros ?
    end.

Lemma handler_unheard ws now ev : preserves (unheard ws) (handler now ev).
Proof.
  destruct ev;
    try match goal with
        | |- preserves _ (handler _ (EvConnection _)) => apply unheard_connection
        end;
    unfold_handlers; unheard_steps.
Qed.

Lemma timer_unheard ws now a : preserves (unheard ws) (timer_callback now a).
Proof. destruct a; unfold_handlers; unheard_steps. Qed.

Lemma run_unheard ws evs : forall w,
  unheard ws (prog w) -> unheard ws (prog (fst (run evs w))).
Proof.
  induction evs as [|[now ev] evs IH]; intros w H; [exact H|].
  rewrite run_cons. cbn [fst]. apply IH.
  apply (step_preserves (unheard ws));
    [apply handler_unheard | intros a; apply timer_unheard | exact H].
Qed.

Lemma heap_wf_init t0 : heap_wf (init_state t0).
Proof.
  split; [constructor|]. split.
  - intros ws H. apply elem_of_nil in H. destruct H.
  - intros ws _. apply lookup_empty.
Qed.

(** X8.  The connection set and the sockets agree at startup and after
    every run that starts from a state where they agree: the set has no
    duplicates, and each of its members is a socket the server created and
    the launcher listens to.  A rejected connection is a socket without
    listeners, and such a socket stays without listeners and never enters
    the set, whatever events follow. *)
Theorem connection_set_invariant (w : world) (evs : list (Z * event)) :
  heap_wf (prog w) ->
  let s' := prog (fst (run evs w)) in
  NoDup (connectedClients s')
  /\ (forall ws, ws ∈ connectedClients s' ->
        is_listening ws s' = true /\ (ws < nextSocket s')%nat)
  /\ (forall ws, unheard ws (prog w) -> unheard ws s' /\ (ws ∉ connectedClients s'))
  /\ (forall t0, heap_wf (init_state t0))
  /\ (forall now forwarded s,
        truthy forwarded = true ->
        unheard (nextSocket s) (exec (handler now (EvConnection forwarded)) s)).
Proof.
  intros Hwf s'. pose proof (run_heap_wf evs w Hwf) as (Hnd & Hlis & Hnew). fold s' in Hnd, Hlis, Hnew.
  split; [exact Hnd|]. split; [|split; [|split]].
  - intros ws Hin. split; [apply Hlis, Hin|].
    destruct (le_lt_dec (nextSocket s') ws) as [Hge|Hlt]; [|exact Hlt].
    specialize (Hlis ws Hin). unfold is_listening in Hlis.
    rewrite (Hnew ws Hge) in Hlis. discriminate.
  - intros ws Hu. pose proof (run_unheard ws evs w Hu) as Hu'. fold s' in Hu'.
    split; [exact Hu'|]. intros Hin. destruct Hu' as [Hl _].
    rewrite (Hlis ws Hin) in Hl. discriminate.
  - apply heap_wf_init.
  - intros now forwarded s Ht. rewrite connection_exec, Ht.
    unfold unheard, is_listening. fields. rewrite lookup_insert_eq.
    split; [reflexivity | lia].
Qed.


Lemma wsSend_trace ws obj s :
  trace (wsSend ws obj) s = if ready_state ws s =? 1 then [WsSend ws obj] else [].
Proof.
  unfold wsSend, trace, bind, get, when. cbn [fst snd].
  destruct (ready_state ws s =? 1); reflexivity.
Qed.

Lemma connection_trace now forwarded s :
  trace (handler now (EvConnection forwarded)) s
  = if truthy forwarded
    then [Log "Rejected connection with X-Forwarded-For header (possible proxy)";
          WsClose (nextSocket s) (Some (4003, "Forbidden"))]
    else [Log "Browser connected"; WsSend (nextSocket s) (MsgStatus (status_of s))].
Proof.
  unfold trace at 1. rewrite connection_bind. cbn [snd].
  unfold on_connection. destruct (truthy forwarded); [reflexivity|].
  rewrite !trace_bind, ?exec_bind, wsSend_trace.
  change (exec (log _) ?s0) with s0.
  unfold ready_state, exec, value, trace, log, modify, emit, getStatus, bind, get, ret.
  rewrite new_socket_run. fields. rewrite lookup_insert_eq. fields.
  reflexivity.
Qed.

(** The ['close'] event of a socket the launcher listens to. *)
Lemma close_event_run now ws w s :
  sockets s !! ws = Some w -> readyState w ≠ 3 -> listening w = true ->
  handler now (EvWsClose ws) s
  = (tt,
     set_connectedClients (set_delete ws (connectedClients s))
       (set_sockets (<[ws := {| readyState := 3; listening := true |}]> (sockets s)) s),
     [Log "Browser disconnected"]).
Proof.
  intros E Hr Hl. apply Z.eqb_neq in Hr.
  cbn [handler]. unfold bind, get, when, ready_state, is_listening. cbn [fst snd].
  rewrite E, Hr, Hl. cbn [negb].
  unfold set_ready, on_ws_close, log, modify, emit, bind. cbn [fst snd].
  rewrite E, Hl. reflexivity.
Qed.

Lemma set_delete_add x l : x ∉ l -> set_delete x (set_add x l) = l.
Proof.
  intros Hx. unfold set_add, set_delete.
  rewrite bool_decide_eq_false_2 by assumption.
  rewrite filter_app.
  rewrite (filter_cons_False _ x []) by (intros H; apply H; reflexivity).
  rewrite filter_nil, app_nil_r.
  induction l as [|y l IH]; [reflexivity|].
  rewrite not_elem_of_cons in Hx. destruct Hx as [Hne Hx].
  rewrite filter_cons_True by congruence. f_equal. apply IH, Hx.
Qed.

(** X9.  Connect and disconnect undo each other on the connection set: a
    browser that connects without a forwarding header is sent the current
    status and joins the set, and when its socket closes the set is what
    it was before.  The connection counts as activity; the disconnection
    does not, and logs one line. *)
Theorem connect_then_disconnect
    (now now' : Z) (forwarded : option string) (s : state) :
  heap_wf s -> truthy forwarded = false ->
  let ws := nextSocket s in
  let s1 := exec (handler now (EvConnection forwarded)) s in
  let s2 := exec (handler now' (EvWsClose ws)) s1 in
  trace (handler now (EvConnection forwarded)) s
  = [Log "Browser connected"; WsSend ws (MsgStatus (status_of s))]
  /\ (ws ∈ connectedClients s1)
  /\ lastActivity s1 = now
  /\ trace (handler now' (EvWsClose ws)) s1 = [Log "Browser disconnected"]
  /\ connectedClients s2 = connectedClients s
  /\ ready_state ws s2 = 3
  /\ lastActivity s2 = now.
Proof.
  intros (Hnd & Hlis & Hnew) Hf ws s1 s2.
  assert (Hfresh : ws ∉ connectedClients s).
  { intros Hin. specialize (Hlis _ Hin). unfold is_listening in Hlis.
    rewrite (Hnew ws) in Hlis by (unfold ws; lia). discriminate. }
  assert (Hs1 : s1 = set_sockets (<[ws := {| readyState := 1; listening := true |}]> (sockets s))
           (set_lastActivity now
              (set_connectedClients (set_add ws (connectedClients s))
                 (set_nextSocket (S ws) s)))).
  { unfold s1. rewrite connection_exec, Hf. reflexivity. }
  assert (E1 : sockets s1 !! ws = Some {| readyState := 1; listening := true |}).
  { rewrite Hs1. fields. apply lookup_insert_eq. }
  assert (Hrun : handler now' (EvWsClose ws) s1
           = (tt,
              set_connectedClients (set_delete ws (connectedClients s1))
                (set_sockets (<[ws := {| readyState := 3; listening := true |}]> (sockets s1)) s1),
              [Log "Browser disconnected"])).
  { apply (close_event_run now' ws _ s1 E1); [discriminate | reflexivity]. }
  unfold s2, exec, trace. rewrite Hrun. cbn [fst snd]. fold (trace (handler now (EvConnection forwarded)) s).
  split; [rewrite connection_trace, Hf; reflexivity|].
  split; [rewrite Hs1; fields; unfold set_add;
          rewrite bool_decide_eq_false_2 by assumption; apply elem_of_app; right; left|].
  split; [rewrite Hs1; reflexivity|].
  split; [reflexivity|].
  split; [fields; rewrite Hs1; fields; apply set_delete_add, Hfresh|].
  split; [unfold ready_state; fields; rewrite lookup_insert_eq; reflexivity|].
  fields. rewrite Hs1. reflexivity.
Qed.


Lemma member_created ws s :
  heap_wf s -> ws ∈ connectedClients s -> (ws < nextSocket s)%nat.
Proof.
  intros (_ & Hlis & Hnew) Hin.
  destruct (le_lt_dec (nextSocket s) ws) as [Hge|Hlt]; [|exact Hlt].
  specialize (Hlis ws Hin). unfold is_listening in Hlis.
  rewrite (Hnew ws Hge) in Hlis. discriminate.
Qed.

Lemma handler_keeps_flag now ev :
  match ev with EvTick | EvSignal _ => False | _ => True end ->
  keeps shuttingDown (handler now ev).
Proof.
  destruct ev; intros H; try destruct H; unfold_handlers;
    unfold new_socket, set_ready, on_message; frame.
Qed.

Lemma timer_keeps_flag now a : keeps shuttingDown (timer_callback now a).
Proof. destruct a; unfold_handlers; frame. Qed.

(** X10.  Whichever event begins the shutdown (a tick of the monitor or a
    signal), no browser of the connection set is OPEN once its callback
    has returned, and none of them is sent anything afterwards, whatever
    events follow: the status broadcasts of a child that still prints or
    exits reach none of them. *)
Theorem silent_after_shutdown
    (now : Z) (ev : event) (w : world) (evs : list (Z * event)) (ws : nat) :
  heap_wf (prog w) -> shuttingDown (prog w) = false ->
  let w1 := fst (step now ev w) in
  shuttingDown (prog w1) = true ->
  ws ∈ connectedClients (prog w) ->
  ready_state ws (prog w1) ≠ 1
  /\ ready_state ws (prog (fst (run evs w1))) ≠ 1
  /\ count_if (sent_to ws) (snd (run evs w1)) = 0%nat.
Proof.
  intros Hwf Hsd w1 Hdown Hin.
  assert (Hn : (ws < nextSocket (prog w))%nat) by (apply member_created; assumption).
  assert (H1 : not_open ws (prog w1)).
  { unfold w1 in *. destruct (step_runs now ev w) as [E|(m & Hm & _ & _ & Hp)].
    - rewrite E in Hdown. cbn [fst] in Hdown. congruence.
    - rewrite Hp in *. destruct Hm as [->|[a ->]].
      + destruct ev;
          try (rewrite handler_keeps_flag in Hdown by exact I; congruence).
        * cbn [handler] in *. unfold exec in *. rewrite tick_cases in *.
          rewrite Hsd in *.
          destruct (hasReceivedHeartbeat (prog w)
                    && (now - lastHeartbeat (prog w) >? heartbeatTimeoutMs CONFIG));
            [apply shutdown_closes; assumption|].
          destruct (now - lastActivity (prog w) >? inactivityTimeoutMs CONFIG);
            [apply shutdown_closes; assumption|].
          cbn [fst snd] in Hdown. congruence.
        * cbn [handler]. unfold on_signal. rewrite exec_bind.
          apply shutdown_closes; assumption.
      + rewrite timer_keeps_flag in Hdown. congruence. }
  split; [apply H1|].
  destruct (run_not_open ws evs w1 H1) as [[Hr _] Hq].
  split; [exact Hr|]. apply count_if_none. exact Hq.
Qed.


(** *** Keeping alive *)

Lemma handler_alive b a now ev :
  b <= now -> a <= now ->
  match ev with EvMessage _ _ now2 => now <= now2 | _ => True end ->
  preserves (alive b a) (handler now ev).
Proof.
  intros Hb Ha Hev. destruct ev; unfold_callbacks; maintained;
    unfold alive in *; simpl in *; intuition lia.
Qed.

Lemma timer_alive b a now act :
  b <= now -> a <= now -> preserves (alive b a) (timer_callback now act).
Proof.
  intros Hb Ha. destruct act; unfold_callbacks; maintained;
    unfold alive in *; simpl in *; intuition lia.
Qed.

Lemma run_alive b a evs : forall c w,
  monotone c evs -> b <= c -> a <= c ->
  alive b a (prog w) -> alive b a (prog (fst (run evs w))).
Proof.
  induction evs as [|[now ev] evs IH]; intros c w Hm Hb Ha Hw; [exact Hw|].
  destruct Hm as [[Hc Hev] Hm]. cbn [fst snd] in Hc, Hev.
  rewrite run_cons. cbn [fst].
  assert (Hafter : now <= clock_after (now, ev)).
  { unfold clock_after. cbn [fst snd]. destruct ev; lia. }
  apply (IH (clock_after (now, ev))); [exact Hm | lia | lia |].
  apply (step_preserves (alive b a)); [| | exact Hw].
  - apply handler_alive; [lia | lia | destruct ev; trivial].
  - intros act. apply timer_alive; lia.
Qed.

Lemma monotone_app c evs1 te evs2 :
  monotone c (evs1 ++ te :: evs2) ->
  fst te <= clock_after te /\ monotone (clock_after te) evs2.
Proof.
  revert c. induction evs1 as [|te1 evs1 IH]; intros c.
  - cbn [app monotone]. intros [[_ Hev] Hm]. split; [|exact Hm].
    unfold clock_after. destruct (snd te); lia.
  - cbn [app monotone]. intros [_ Hm]. apply (IH _ Hm).
Qed.

(** A heartbeat taken by the ['message'] listener. *)
Lemma heartbeat_taken now ws msg now2 s :
  strict_eq_str (get_type msg) "heartbeat" = true ->
  is_listening ws s = true -> ready_state ws s ≠ 3 ->
  handler now (EvMessage ws (Some msg) now2) s
  = (tt,
     set_hasReceivedHeartbeat true (set_lastHeartbeat now2 (set_lastActivity now s)),
     if ready_state ws s =? 1 then [WsSend ws MsgHeartbeatAck] else []).
Proof.
  intros Hty Hl Hr. apply Z.eqb_neq in Hr.
  cbn [handler]. unfold bind, get, when. cbn [fst snd]. rewrite Hl, Hr. cbn [andb negb].
  unfold on_message. destruct (get_type msg) as [| |v]; try discriminate.
  rewrite Hty. unfold wsSend, bind, modify, get, when. cbn [fst snd].
  change (ready_state ws (set_hasReceivedHeartbeat true
            (set_lastHeartbeat now2 (set_lastActivity now s))))
    with (ready_state ws s).
  destruct (ready_state ws s =? 1); reflexivity.
Qed.

(** X11.  A heartbeat keeps the launcher alive for 30 seconds: on a clock
    that does not go back, once a heartbeat has been taken from a socket
    the launcher listens to, a tick of the monitor does nothing as long as
    it comes no more than 30 s after the heartbeat (and no more than ten
    minutes after the message arrived), whatever happened in between. *)
Theorem heartbeat_keeps_alive
    (c : Z) (w : world) (evs1 evs2 : list (Z * event))
    (now now2 t : Z) (ws : nat) (msg : json) :
  monotone c (evs1 ++ (now, EvMessage ws (Some msg) now2) :: evs2) ->
  strict_eq_str (get_type msg) "heartbeat" = true ->
  let w1 := fst (run evs1 w) in
  exited w1 = None -> is_listening ws (prog w1) = true -> ready_state ws (prog w1) ≠ 3 ->
  let w2 := fst (run (evs1 ++ (now, EvMessage ws (Some msg) now2) :: evs2) w) in
  t - now2 <= heartbeatTimeoutMs CONFIG ->
  t - now <= inactivityTimeoutMs CONFIG ->
  monitor_tick t (prog w2) = (tt, prog w2, []).
Proof.
  intros Hm Hty w1 Hex Hl Hr w2 Hhb Hact.
  apply monotone_app in Hm as [Hclk Hm]. unfold clock_after in Hclk, Hm.
  cbn [fst snd] in Hclk, Hm.
  assert (Halive : alive now2 now (prog w2)).
  { unfold w2. rewrite run_app. cbn [fst]. fold w1. rewrite run_cons. cbn [fst].
    apply (run_alive now2 now evs2 now2); [exact Hm | lia | lia |].
    unfold step. rewrite Hex. unfold run_callback. cbn [fst prog].
    unfold exec. rewrite heartbeat_taken by assumption. cbn [fst snd].
    split; [reflexivity|]. split; cbn; lia. }
  destruct Halive as (Hhas & Hlast & Hla).
  rewrite tick_cases. destruct (shuttingDown (prog w2)); [reflexivity|].
  rewrite Hhas. cbn [andb].
  destruct (Z.gtb_spec (t - lastHeartbeat (prog w2)) (heartbeatTimeoutMs CONFIG)) as [Hgt|_];
    [lia|].
  destruct (Z.gtb_spec (t - lastActivity (prog w2)) (inactivityTimeoutMs CONFIG)) as [Hgt|_];
    [lia | reflexivity].
Qed.


(** *** From shutdown to exit *)

Lemma plain_prefix now l tl :
  Forall plain l ->
  scheduled now (l ++ tl) = scheduled now tl /\ exit_status (l ++ tl) = exit_status tl.
Proof.
  induction 1 as [|e l He _ IH]; [split; reflexivity|].
  destruct e; try destruct He; exact IH.
Qed.

Lemma notices_plain s l : Forall plain (flat_map (notice s) l).
Proof.
  induction l as [|a l IH]; [constructor|].
  cbn [flat_map]. apply Forall_app. split; [|exact IH].
  unfold notice. destruct (ready_state a s =? 1); repeat constructor.
Qed.

Lemma kill_part_plain s : Forall plain (kill_part s).
Proof.
  unfold kill_part. destruct (lanPlayProc s) as [p|]; [|constructor].
  destruct (killed p); repeat constructor.
Qed.

Lemma shutdown_schedules_exit now line s :
  NoDup (connectedClients s) -> shuttingDown s = false ->
  scheduled now (trace (log line ;;; shutdown) s) = [(now + 1000, TExit)]
  /\ exit_status (trace (log line ;;; shutdown) s) = None.
Proof.
  intros Hnd Hsd. rewrite trace_bind.
  change (trace (log line) s) with [Log line].
  change (exec (log line) s) with s.
  rewrite shutdown_trace by assumption.
  change ([Log line] ++ Log "Shutting down..." :: ?l)
    with ([Log line; Log "Shutting down..."] ++ l).
  rewrite !app_assoc.
  apply (plain_prefix now _ [SetTimeout TExit 1000]).
  repeat apply Forall_app_2;
    [repeat constructor | apply notices_plain | apply kill_part_plain].
Qed.

(** Only a tick of the monitor or a signal begins the shutdown. *)
Lemma shutdown_begins now ev w :
  shuttingDown (prog w) = false ->
  shuttingDown (prog (fst (step now ev w))) = true ->
  exited w = None
  /\ exists line,
       step now ev w = run_callback now (log line ;;; shutdown) (timers w) w.
Proof.
  intros Hsd Hdown. unfold step in *.
  destruct (exited w) as [c|]; [cbn [fst] in Hdown; congruence|].
  split; [reflexivity|].
  destruct ev;
    try (unfold run_callback in Hdown; cbn [fst prog] in Hdown;
         rewrite handler_keeps_flag in Hdown by exact I; congruence).
  - unfold run_callback in *. cbn [fst prog handler] in *. unfold exec, trace in *.
    rewrite tick_cases in *. rewrite Hsd in *.
    destruct (hasReceivedHeartbeat (prog w)
              && (now - lastHeartbeat (prog w) >? heartbeatTimeoutMs CONFIG));
      [exists heartbeat_log; reflexivity|].
    destruct (now - lastActivity (prog w) >? inactivityTimeoutMs CONFIG);
      [exists inactivity_log; reflexivity|].
    cbn [fst snd] in Hdown. congruence.
  - eexists. reflexivity.
  - destruct (timers w !! k) as [[due a]|]; [|cbn [fst] in Hdown; congruence].
    destruct (due <=? now); [|cbn [fst] in Hdown; congruence].
    unfold run_callback in Hdown. cbn [fst prog] in Hdown.
    rewrite timer_keeps_flag in Hdown. congruence.
Qed.

Lemma run_exited evs w c : exited w = Some c -> run evs w = (w, []).
Proof.
  intros Hex. induction evs as [|[now ev] evs IH]; [reflexivity|].
  rewrite run_cons. unfold step. rewrite Hex. cbn [fst snd]. rewrite IH. reflexivity.
Qed.

(** X12.  Whichever event begins the shutdown, the process exits with
    status 0 through the timer that [shutdown] sets, 1000 ms later and
    not before: until then the process is still running, when the timer
    comes due it logs its last line and calls [process.exit(0)] without
    touching the state, and nothing runs after that. *)
Theorem exit_after_shutdown
    (now : Z) (ev : event) (w : world) (t : Z) (evs : list (Z * event)) :
  NoDup (connectedClients (prog w)) -> shuttingDown (prog w) = false ->
  let w1 := fst (step now ev w) in
  shuttingDown (prog w1) = true ->
  let k := length (timers w) in
  exited w1 = None
  /\ timers w1 = timers w ++ [(now + 1000, TExit)]
  /\ (t < now + 1000 -> step t (EvTimer k) w1 = (w1, []))
  /\ (now + 1000 <= t ->
      let r := step t (EvTimer k) w1 in
      snd r = [Log "Goodbye."; Exit 0]
      /\ exited (fst r) = Some 0
      /\ prog (fst r) = prog w1
      /\ run evs (fst r) = (fst r, [])).
Proof.
  intros Hnd Hsd w1 Hdown k.
  destruct (shutdown_begins now ev w Hsd Hdown) as (Hex & line & Hstep).
  destruct (shutdown_schedules_exit now line (prog w) Hnd Hsd) as [Hsched Hstatus].
  assert (Ht : timers w1 = timers w ++ [(now + 1000, TExit)]).
  { unfold w1. rewrite Hstep. unfold run_callback. cbn [fst timers]. rewrite Hsched. reflexivity. }
  assert (He : exited w1 = None).
  { unfold w1. rewrite Hstep. unfold run_callback. cbn [fst exited]. exact Hstatus. }
  assert (Hk : timers w1 !! k = Some (now + 1000, TExit)).
  { rewrite Ht. unfold k. rewrite lookup_app_r by lia. rewrite Nat.sub_diag. reflexivity. }
  split; [exact He|]. split; [exact Ht|]. split.
  - intros Hlt. unfold step. rewrite He, Hk.
    destruct (Z.leb_spec (now + 1000) t); [lia | reflexivity].
  - intros Hge r.
    assert (Hr : r = run_callback t (timer_callback t TExit) (delete k (timers w1)) w1).
    { unfold r, step. rewrite He, Hk.
      destruct (Z.leb_spec (now + 1000) t); [reflexivity | lia]. }
    rewrite Hr. unfold run_callback. cbn [fst snd exited prog].
    split; [reflexivity|]. split; [reflexivity|]. split; [reflexivity|].
    apply (run_exited evs _ 0). reflexivity.
Qed.


(** *** Status broadcasts *)

Lemma count_status_to s ws l :
  NoDup l ->
  count_if (sent_to ws) (flat_map (status_to s) l)
  = if bool_decide (ws ∈ l) && (ready_state ws s =? 1) then 1%nat else 0%nat.
Proof.
  induction 1 as [|x l Hx Hl IH]; [reflexivity|].
  cbn [flat_map]. rewrite count_if_app, IH. unfold status_to at 1.
  destruct (decide (x = ws)) as [->|Hne].
  - rewrite (bool_decide_eq_true_2 (ws ∈ ws :: l)) by left.
    rewrite (bool_decide_eq_false_2 (ws ∈ l)) by assumption.
    cbn [andb]. destruct (ready_state ws s =? 1); [|reflexivity].
    unfold count_if. cbn [List.filter sent_to]. rewrite bool_decide_eq_true_2; reflexivity.
  - assert (Hiff : bool_decide (ws ∈ x :: l) = bool_decide (ws ∈ l)).
    { apply bool_decide_ext. rewrite elem_of_cons. split; [intros [?|?]|right]; congruence. }
    rewrite Hiff. destruct (ready_state x s =? 1); [|reflexivity].
    unfold count_if. cbn [List.filter sent_to]. rewrite bool_decide_eq_false_2; [reflexivity|exact Hne].
Qed.

Lemma status_to_told s ws l :
  NoDup l ->
  told ws (if bool_decide (ws ∈ l) && (ready_state ws s =? 1) then 1%nat else 0%nat)
    (status_of s) (flat_map (status_to s) l).
Proof.
  intros Hnd. split; [apply count_status_to, Hnd|].
  clear Hnd. induction l as [|x l IH]; [constructor|].
  cbn [flat_map]. apply Forall_app. split; [|exact IH].
  unfold status_to. destruct (ready_state x s =? 1); repeat constructor.
  intros _. exists x. reflexivity.
Qed.

Lemma told_between ws n st pre es post :
  Forall (fun e => is_send e = false) pre -> Forall (fun e => is_send e = false) post ->
  told ws n st es -> told ws n st (pre ++ es ++ post).
Proof.
  intros Hpre Hpost [Hn Hall].
  assert (Hsilent : forall l, Forall (fun e => is_send e = false) l ->
            count_if (sent_to ws) l = 0%nat
            /\ Forall (fun e => is_send e = true -> exists a, e = WsSend a (MsgStatus st)) l).
  { intros l Hl. split.
    - apply count_if_none. intros e He. rewrite Forall_forall in Hl.
      specialize (Hl e He). destruct e; try reflexivity; discriminate.
    - eapply Forall_impl; [exact Hl|]. cbn beta. intros e He Hs. congruence. }
  destruct (Hsilent pre Hpre) as [Hn1 H1]. destruct (Hsilent post Hpost) as [Hn2 H2].
  split.
  - rewrite !count_if_app, Hn, Hn1, Hn2. lia.
  - repeat apply Forall_app_2; assumption.
Qed.

Ltac feed_status :=
  match goal with
  | feed := _ |- told _ _ _ (flat_map (status_to ?s0) _) => exact (feed s0)
  end.

(** X13.  A status broadcast reaches each browser of the connection set
    that is OPEN exactly once and nobody else, and every message it sends
    carries the same status.  That holds for [broadcastStatus] itself and
    for its three callers: when the child starts the status says it is
    running, on a chunk of its output the flag is as it was, and when the
    child exits the status says it is not running. *)
Theorem status_reaches_open_members
    (s : state) (ws : nat) (now : Z) (data : string) (code : option Z) :
  NoDup (connectedClients s) ->
  let n := if bool_decide (ws ∈ connectedClients s) && (ready_state ws s =? 1)
           then 1%nat else 0%nat in
  told ws n (status_of s) (trace broadcastStatus s)
  /\ told ws n (status_of (set_lanPlayRunning true s)) (trace (startLanPlay now) s)
  /\ told ws n (status_of s) (trace (on_stdout now data) s)
  /\ told ws n (status_of (set_lanPlayRunning false s)) (trace (on_proc_close code) s).
Proof.
  intros Hnd n.
  pose (feed := fun s0 => status_to_told s0 ws (connectedClients s) Hnd).
  split; [|split; [|split]].
  - rewrite broadcastStatus_trace. apply status_to_told, Hnd.
  - rewrite startLanPlay_trace, startLanPlay_exec.
    rewrite <- (app_nil_r (flat_map _ _)).
    change (?a :: ?b :: ?l ++ []) with ([a; b] ++ l ++ []).
    apply told_between; [repeat constructor | constructor | feed_status].
  - rewrite on_stdout_trace.
    rewrite <- (app_nil_r (flat_map _ _)).
    apply told_between; [| constructor | feed_status].
    unfold output_log. destruct (String.eqb _ _); repeat constructor.
  - rewrite on_proc_close_trace.
    change (Log ?m :: ?l) with ([Log m] ++ l).
    apply told_between; [repeat constructor | | feed_status].
    destruct (shuttingDown s); repeat constructor.
Qed.


(** *** The connection set is exact *)

Lemma tracked_update a w w' s :
  sockets s !! a = Some w -> listening w' = listening w ->
  (readyState w' = 3 <-> readyState w = 3) ->
  tracked s -> tracked (set_sockets (<[a := w']> (sockets s)) s).
Proof.
  intros Ha Hl Hr Ht x. rewrite is_listening_insert, ready_state_insert.
  change (connectedClients (set_sockets _ s)) with (connectedClients s).
  rewrite (Ht x). unfold is_listening, ready_state.
  destruct (decide (a = x)) as [->|]; [|reflexivity].
  rewrite Ha, Hl. tauto.
Qed.

Lemma set_exact_update a w w' s :
  sockets s !! a = Some w -> listening w' = listening w ->
  (readyState w' = 3 <-> readyState w = 3) ->
  set_exact s -> set_exact (set_sockets (<[a := w']> (sockets s)) s).
Proof.
  intros Ha Hl Hr [Hwf Ht]. split.
  - eapply heap_wf_update; eassumption.
  - eapply tracked_update; eassumption.
Qed.

Lemma set_exact_ws_close a code : preserves set_exact (ws_close a code).
Proof.
  intros s H. rewrite ws_close_exec.
  destruct (sockets s !! a) as [w0|] eqn:E; [|exact H].
  destruct (readyState w0 =? 1) eqn:E1; [|exact H].
  apply Z.eqb_eq in E1.
  eapply set_exact_update; [exact E | reflexivity | | exact H].
  cbn [readyState]. lia.
Qed.

Lemma set_exact_peer_closing now a :
  preserves set_exact (handler now (EvPeerClosing a)).
Proof.
  intros s H. cbn [handler]. rewrite exec_bind.
  change (value get s) with s. change (exec get s) with s.
  unfold ready_state. destruct (sockets s !! a) as [w0|] eqn:E; [|exact H].
  destruct (readyState w0 =? 1) eqn:E1; [|exact H].
  apply Z.eqb_eq in E1. cbn [when]. unfold set_ready, exec, modify. cbn [fst snd].
  rewrite E.
  eapply set_exact_update; [exact E | reflexivity | | exact H].
  cbn [readyState]. lia.
Qed.

Lemma set_exact_connection now forwarded :
  preserves set_exact (handler now (EvConnection forwarded)).
Proof.
  intros s [Hwf Ht]. split; [apply heap_wf_connection, Hwf|].
  destruct Hwf as (Hnd & Hlis & Hnew).
  assert (Hfresh : nextSocket s ∉ connectedClients s).
  { intros Hin. specialize (Hlis _ Hin). unfold is_listening in Hlis.
    rewrite (Hnew (nextSocket s)) in Hlis by lia. discriminate. }
  rewrite connection_exec. intros x.
  destruct (truthy forwarded); unfold is_listening, ready_state; fields.
  - destruct (decide (nextSocket s = x)) as [<-|Hne].
    + rewrite lookup_insert_eq. fields. split; [tauto | intros [? _]; discriminate].
    + rewrite lookup_insert_ne by assumption. apply Ht.
  - destruct (decide (nextSocket s = x)) as [<-|Hne].
    + rewrite lookup_insert_eq. fields. split; [intros _; split; [reflexivity | discriminate]|].
      intros _. unfold set_add. rewrite bool_decide_eq_false_2 by assumption.
      apply elem_of_app. right. left.
    + rewrite lookup_insert_ne by assumption. rewrite <- (Ht x).
      unfold set_add. rewrite bool_decide_eq_false_2 by assumption.
      rewrite elem_of_app, list_elem_of_singleton. split; [intros [?|?]; [assumption | congruence] | tauto].
Qed.

Lemma set_exact_close now a : preserves set_exact (handler now (EvWsClose a)).
Proof.
  intros s [Hwf Ht].
  destruct (sockets s !! a) as [w0|] eqn:E.
  - destruct (Z.eq_dec (readyState w0) 3) as [E3|Hne3].
    + replace (exec (handler now (EvWsClose a)) s) with s; [split; assumption|].
      cbn [handler]. unfold exec, bind, get, when, ready_state. cbn [fst snd].
      rewrite E, E3. reflexivity.
    + destruct (listening w0) eqn:El.
      * unfold exec. rewrite (close_event_run now a w0 s E Hne3 El). cbn [fst snd].
        split.
        -- apply (heap_wf_delete a
                    (set_sockets (<[a := {| readyState := 3; listening := true |}]> (sockets s)) s)).
           eapply heap_wf_update; [exact E | symmetry; exact El | exact Hwf].
        -- intros x. unfold is_listening, ready_state. fields. unfold set_delete.
           rewrite list_elem_of_filter, (Ht x). unfold is_listening, ready_state.
           destruct (decide (a = x)) as [<-|Hne].
           ++ rewrite lookup_insert_eq. fields. split; [intros [Hx _]; congruence | intros [_ Hx]; congruence].
           ++ rewrite lookup_insert_ne by assumption. split; [tauto | intros H; split; [congruence | exact H]].
      * replace (exec (handler now (EvWsClose a)) s)
          with (set_sockets (<[a := {| readyState := 3; listening := listening w0 |}]> (sockets s)) s).
        -- split; [eapply heap_wf_update; [exact E | reflexivity | exact Hwf]|].
           intros x. rewrite is_listening_insert, ready_state_insert.
           change (connectedClients (set_sockets _ s)) with (connectedClients s).
           rewrite (Ht x). unfold is_listening, ready_state.
           destruct (decide (a = x)) as [<-|Hne]; [|reflexivity].
           rewrite E, El. cbn [listening]. rewrite ?El. split; intros [? _]; discriminate.
        -- apply Z.eqb_neq in Hne3.
           cbn [handler]. unfold exec, bind, get, when, ready_state, is_listening. cbn [fst snd].
           rewrite E, Hne3. cbn [negb]. unfold set_ready, modify. cbn [fst snd].
           rewrite E, El. reflexivity.
  - replace (exec (handler now (EvWsClose a)) s) with s; [split; assumption|].
    cbn [handler]. unfold exec, bind, get, when, ready_state. cbn [fst snd].
    rewrite E. reflexivity.
Qed.

Ltac exact_steps :=
  repeat match goal with
    | |- preserves _ (if ?b then _ else _) => destruct b
    | |- preserves _ (match ?x with _ => _ end) => destruct x
    | |- preserves _ (modify _) => apply preserves_modify; intros ? ?; assumption
    | |- preserves _ (emit _) => apply preserves_emit
    | |- preserves _ (wsSend _ _) => unfold wsSend
    | |- preserves _ (ws_close _ _) => apply set_exact_ws_close
    | |- preserves _ (ret _) => apply preserves_ret
    | |- preserves _ get => apply preserves_get
    | |- preserves _ (bind _ _) => apply preserves_bind; [| intros ?]
    | |- preserves _ (when _ _) => apply preserves_when
    | |- preserves _ (for_of _ _) => apply preserves_for_of; intros ?
    end.

Lemma handler_set_exact now ev : preserves set_exact (handler now ev).
Proof.
  destruct ev;
    try match goal with
        | |- preserves _ (handler _ (EvConnection _)) => apply set_exact_connection
        | |- preserves _ (handler _ (EvPeerClosing _)) => apply set_exact_peer_closing
        | |- preserves _ (handler _ (EvWsClose _)) => apply set_exact_close
        end;
    unfold_handlers; unfold on_message; exact_steps.
Qed.

Lemma timer_set_exact now a : preserves set_exact (timer_callback now a).
Proof. destruct a; unfold_handlers; exact_steps. Qed.

Lemma run_set_exact evs : forall w,
  set_exact (prog w) -> set_exact (prog (fst (run evs w))).
Proof.
  induction evs as [|[now ev] evs IH]; intros w H; [exact H|].
  rewrite run_cons. cbn [fst]. apply IH.
  apply (step_preserves set_exact);
    [apply handler_set_exact | intros a; apply timer_set_exact | exact H].
Qed.

(** X14.  After every callback, the connection set holds exactly the
    browsers that were accepted and whose ['close'] event has not come:
    a socket is in the set exactly when the launcher listens to it and it
    is not CLOSED.  So every OPEN browser that was accepted gets the
    status broadcasts and the shutdown notice, and a browser leaves the
    set only by its ['close'] event. *)
Theorem connection_set_exact (t0 : Z) (evs : list (Z * event)) (ws : nat) :
  let s := prog (fst (run evs (init_world t0))) in
  (ws ∈ connectedClients s <-> is_listening ws s = true /\ ready_state ws s ≠ 3)
  /\ (is_listening ws s = true -> ready_state ws s = 1 -> ws ∈ connectedClients s).
Proof.
  intros s.
  assert (H : set_exact s).
  { apply run_set_exact. split; [apply heap_wf_init|].
    intros x. cbn. unfold is_listening, ready_state. cbn.
    rewrite lookup_empty. split; [intros Hx; apply elem_of_nil in Hx; destruct Hx|].
    intros [? _]; discriminate. }
  destruct H as [_ Ht]. split; [apply Ht|].
  intros Hl Hr. apply Ht. split; [exact Hl | lia].
Qed.


(** *** One child per request *)

Lemma childless_counts now l :
  Forall childless l ->
  count_if is_spawn l = 0%nat
  /\ List.filter is_restart_timer (scheduled now l) = [].
Proof.
  induction 1 as [|e l He _ IH]; [split; reflexivity|].
  destruct e as [| | | | |a d| | | | | |]; try destruct He; try exact IH.
  destruct a; [destruct He | exact IH].
Qed.

Lemma statuses_childless s l : Forall childless (flat_map (status_to s) l).
Proof.
  induction l as [|x l IH]; [constructor|].
  cbn [flat_map]. apply Forall_app. split; [|exact IH].
  unfold status_to. destruct (ready_state x s =? 1); repeat constructor.
Qed.

Lemma startLanPlay_budget now s :
  count_if is_spawn (trace (startLanPlay now) s) = 1%nat
  /\ List.filter is_restart_timer (scheduled now (trace (startLanPlay now) s)) = [].
Proof.
  rewrite startLanPlay_trace.
  destruct (childless_counts now _ (statuses_childless (exec (startLanPlay now) s)
                                      (connectedClients s))) as [Hc Hs].
  split.
  - unfold count_if in *. cbn [List.filter is_spawn length]. rewrite Hc. reflexivity.
  - cbn [scheduled]. exact Hs.
Qed.

Lemma handler_budget now ev s :
  (count_if is_spawn (trace (handler now ev) s)
   + length (List.filter is_restart_timer (scheduled now (trace (handler now ev) s)))
   <= if asks_for_child (now, ev) then 1 else 0)%nat.
Proof.
  assert (Hquiet : forall m : M unit, emits_only childless m ->
            (count_if is_spawn (trace m s)
             + length (List.filter is_restart_timer (scheduled now (trace m s))) <= 0)%nat).
  { intros m Hm.
    destruct (childless_counts now (trace m s)) as [-> ->]; [|reflexivity].
    apply Forall_forall. intros e He. exact (Hm s e He). }
  destruct ev; unfold asks_for_child; cbn [snd];
    try solve [ apply Hquiet; unfold_callbacks; emitted; exact I ].
  - cbn [handler]. destruct (startLanPlay_budget now s) as [-> ->]. reflexivity.
  - cbn [handler]. rewrite exit_schedules_restart, on_proc_close_trace.
    change (Log ?m :: ?l) with ([Log m] ++ l). rewrite !count_if_app.
    destruct (childless_counts now _ (statuses_childless (set_lanPlayRunning false s)
                                        (connectedClients s))) as [-> _].
    destruct (shuttingDown s); cbn; lia.
Qed.

Lemma timer_budget now a s :
  (count_if is_spawn (trace (timer_callback now a) s)
   + length (List.filter is_restart_timer (scheduled now (trace (timer_callback now a) s)))
   <= if is_restart_timer (now, a) then 1 else 0)%nat.
Proof.
  destruct a; cbn [timer_callback is_restart_timer snd].
  - destruct (startLanPlay_budget now s) as [-> ->]. reflexivity.
  - reflexivity.
Qed.

Lemma filter_delete {A} (p : A -> bool) (l : list A) : forall k x,
  l !! k = Some x ->
  (length (List.filter p (delete k l)) + (if p x then 1 else 0))%nat
  = length (List.filter p l).
Proof.
  induction l as [|y l IH]; intros k x Hk; [discriminate|].
  destruct k as [|k].
  - injection Hk as ->. simpl. destruct (p x); simpl; lia.
  - simpl in *. specialize (IH k x Hk). destruct (p y); simpl; lia.
Qed.

Lemma step_budget now ev w :
  (count_if is_spawn (snd (step now ev w)) + pending_restarts (fst (step now ev w))
   <= pending_restarts w + (if asks_for_child (now, ev) then 1 else 0))%nat.
Proof.
  unfold step. destruct (exited w); [cbn [fst snd]; unfold count_if; cbn; lia|].
  assert (Hcall : forall m pending n,
            (count_if is_spawn (trace m (prog w))
             + length (List.filter is_restart_timer (scheduled now (trace m (prog w))))
             <= n)%nat ->
            (count_if is_spawn (snd (run_callback now m pending w))
             + pending_restarts (fst (run_callback now m pending w))
             <= length (List.filter is_restart_timer pending) + n)%nat).
  { intros m pending n H. unfold run_callback, pending_restarts. cbn [fst snd timers].
    rewrite List.filter_app, length_app. lia. }
  destruct ev; try (apply Hcall; apply handler_budget).
  destruct (timers w !! k) as [[due a]|] eqn:Hk;
    [|cbn [fst snd]; unfold count_if; cbn; lia].
  destruct (due <=? now); [|cbn [fst snd]; unfold count_if; cbn; lia].
  pose proof (Hcall _ (delete k (timers w)) _ (timer_budget now a (prog w))) as H.
  pose proof (filter_delete is_restart_timer (timers w) k (due, a) Hk) as Hd.
  unfold pending_restarts at 2. unfold asks_for_child. cbn [snd].
  change (is_restart_timer (due, a)) with (is_restart_timer (now, a)) in Hd.
  lia.
Qed.

Lemma run_budget evs : forall w,
  (count_if is_spawn (snd (run evs w)) + pending_restarts (fst (run evs w))
   <= pending_restarts w + length (List.filter asks_for_child evs))%nat.
Proof.
  induction evs as [|[now ev] evs IH]; intros w; [cbn; unfold count_if; cbn; lia|].
  rewrite run_cons. cbn [fst snd]. rewrite count_if_app.
  pose proof (step_budget now ev w) as Hs. specialize (IH (fst (step now ev w))).
  cbn [List.filter]. destruct (asks_for_child (now, ev)); cbn [length]; lia.
Qed.

(** X15.  The launcher starts no more children than it is asked for: in
    every run, the children spawned plus the restarts still pending are
    at most the restarts that were pending at its start plus the children
    asked for, one by [main] and one by each exit of a child.  Nothing
    else spawns: not a connection, not a message, not a tick. *)
Theorem one_child_per_request (w : world) (evs : list (Z * event)) :
  (count_if is_spawn (snd (run evs w)) + pending_restarts (fst (run evs w))
   <= pending_restarts w + length (List.filter asks_for_child evs))%nat
  /\ (pending_restarts w = 0%nat ->
      Forall (fun te => asks_for_child te = false) evs ->
      count_if is_spawn (snd (run evs w)) = 0%nat).
Proof.
  split; [apply run_budget|].
  intros Hp Hall. pose proof (run_budget evs w) as H.
  assert (Hnone : length (List.filter asks_for_child evs) = 0%nat).
  { clear H. induction Hall as [|te evs Hte _ IH]; [reflexivity|].
    cbn [List.filter]. rewrite Hte. exact IH. }
  lia.
Qed.


(** *** One status for all readers *)

(** A status request taken by the ['message'] listener. *)
Lemma status_request_taken now ws msg now2 s :
  strict_eq_str (get_type msg) "heartbeat" = false ->
  strict_eq_str (get_type msg) "status" = true ->
  is_listening ws s = true -> ready_state ws s ≠ 3 ->
  handler now (EvMessage ws (Some msg) now2) s
  = (tt, set_lastActivity now s,
     if ready_state ws s =? 1 then [WsSend ws (MsgStatus (status_of s))] else []).
Proof.
  intros Hhb Hty Hl Hr. apply Z.eqb_neq in Hr.
  cbn [handler]. unfold bind, get, when. cbn [fst snd]. rewrite Hl, Hr. cbn [andb negb].
  unfold on_message. destruct (get_type msg) as [| |v]; try discriminate.
  rewrite Hhb, Hty. unfold wsSend, getStatus, bind, modify, get, when, ret. cbn [fst snd].
  change (ready_state ws (set_lastActivity now s)) with (ready_state ws s).
  destruct (ready_state ws s =? 1); reflexivity.
Qed.

(** X16.  The health check is read-only and answers what a browser is
    told: a request for [/health] gets 200 with the very status that a
    status request over the WebSocket gets in the same state, every other
    URL gets 404 without a body, and no request changes the state, logs,
    or counts as activity. *)
Theorem health_check_reads_status (url : string) (s : state) :
  exec (on_http_request url) s = s
  /\ trace (on_http_request url) s = []
  /\ (url ≠ "/health" -> value (on_http_request url) s = (404, None))
  /\ (url = "/health" ->
      exists st,
        value (on_http_request url) s = (200, Some st)
        /\ running st = lanPlayRunning s
        /\ forall now now2 ws msg,
             strict_eq_str (get_type msg) "heartbeat" = false ->
             strict_eq_str (get_type msg) "status" = true ->
             is_listening ws s = true -> ready_state ws s = 1 ->
             trace (handler now (EvMessage ws (Some msg) now2)) s
             = [WsSend ws (MsgStatus st)]).
Proof.
  unfold on_http_request.
  destruct (String.eqb_spec url "/health") as [E|Hne].
  - split; [reflexivity|]. split; [reflexivity|]. split; [congruence|].
    intros _. exists (status_of s). split; [reflexivity|]. split; [reflexivity|].
    intros now now2 ws msg Hhb Hty Hl Hr. unfold trace.
    rewrite status_request_taken by (assumption || lia).
    cbn [snd]. rewrite Hr. reflexivity.
  - split; [reflexivity|]. split; [reflexivity|]. split; [reflexivity|]. congruence.
Qed.


End Launcher.

(** ** The properties at concrete inputs *)

(** Three calls in a row with two browsers in the set, one of them open;
    and a tick that trips the heartbeat timeout followed by SIGINT and
    SIGTERM. *)
Lemma shutdown_idempotent_witness :
  let racing := [(40000, EvTick); (40001, EvSignal SIGINT); (40002, EvSignal SIGTERM)] in
  let w := {| prog := after_heartbeat; timers := []; exited := None |} in
  NoDup (connectedClients after_heartbeat)
  /\ shuttingDown after_heartbeat = false
  /\ (1 <= 3)%nat
  /\ count_if (is_shutdown_to 0) (trace (times 3 shutdown) after_heartbeat) = 1%nat
  /\ count_if (is_shutdown_to 1) (trace (times 3 shutdown) after_heartbeat) = 0%nat
  /\ count_if is_kill (trace (times 3 shutdown) after_heartbeat) = 1%nat
  /\ (count_if is_kill
        (snd (run demo_relay demo_platform demo_path trim_ascii racing w)) <= 1)%nat
  /\ count_if is_kill
       (snd (run demo_relay demo_platform demo_path trim_ascii racing w)) = 1%nat.
Proof.
  intros racing w.
  assert (Hnd : NoDup (connectedClients after_heartbeat)) by compute_done.
  assert (Hsd : shuttingDown after_heartbeat = false) by reflexivity.
  assert (Hn : (1 <= 3)%nat) by lia.
  destruct (shutdown_idempotent demo_relay demo_platform demo_path trim_ascii
              after_heartbeat 3 Hnd Hsd Hn)
    as (Hmsg & Hkill & _ & _ & _ & Hrun).
  split; [exact Hnd|]. split; [exact Hsd|]. split; [exact Hn|].
  split; [|split; [|split; [|split]]].
  - rewrite (Hmsg 0%nat). reflexivity.
  - rewrite (Hmsg 1%nat). reflexivity.
  - rewrite Hkill. reflexivity.
  - apply (Hrun racing w eq_refl).
  - reflexivity.
Defined.

(** C2.  An exit seen while [shuttingDown] is true sets no restart timer.
    A restart timer set before shutdown began is another matter; the code
    at the failing input: the child exits at 1000 ms, which sets the
    restart timer for 4000 ms; SIGINT at 3500 ms begins shutdown and sets
    the exit timer for 4500 ms; the restart timer comes due first and
    [startLanPlay] spawns a second child although [shuttingDown] is true.
    Nothing kills that child: [shutdown] has already run. *)
Theorem restart_fires_after_shutdown :
  (forall now code s,
     shuttingDown s = true ->
     scheduled now (trace (on_proc_close demo_relay demo_platform code) s) = [])
  /\ let w := fst (run demo_relay demo_platform demo_path trim_ascii
                     crash_then_sigint (init_world 0)) in
     let after := step demo_relay demo_platform demo_path trim_ascii 4000 (EvTimer 0) w in
     shuttingDown (prog w) = true
     /\ exited w = None
     /\ timers w = [(4000, TRestart); (4500, TExit)]
     /\ snd after
        = [Log "Starting lan-play → example.com:11451";
           Spawn 1 demo_path ["--relay-server-addr"; demo_relay]]
     /\ lanPlayProc (prog (fst after)) = Some {| pid := 1; killed := false |}
     /\ lanPlayRunning (prog (fst after)) = true
     /\ shuttingDown (prog (fst after)) = true.
Proof.
  split.
  - intros now code s Hsd. rewrite exit_schedules_restart, Hsd. reflexivity.
  - vm_compute. repeat split; reflexivity.
Qed.

(** A browser that connects and asks for the status but never sends a
    heartbeat, and a tick 100 seconds after startup. *)
Lemma no_heartbeat_no_timeout_witness :
  let evs := [(0, EvMain); (10, EvConnection None);
              (20, EvMessage 0 (Some (JObj [("type", JStr "status")])) 20);
              (100000, EvTick)] in
  let r := run demo_relay demo_platform demo_path trim_ascii evs (init_world 0) in
  Forall (fun te => is_heartbeat (snd te) = false) evs
  /\ (Log (heartbeat_log demo_relay) ∉ snd r)
  /\ hasReceivedHeartbeat (prog (fst r)) = false
  /\ forall now, ~ heartbeat_fires demo_relay now (prog (fst r)).
Proof.
  intros evs r.
  assert (Hall : Forall (fun te => is_heartbeat (snd te) = false) evs)
    by (repeat constructor).
  split; [exact Hall|].
  exact (no_heartbeat_no_timeout demo_relay demo_platform demo_path trim_ascii 0 evs Hall).
Defined.

(** C4 as stated fails: a tick that trips the heartbeat timeout, and one
    that trips the inactivity timeout, both send the open browser the
    reason "timeout", not "no heartbeat" or "no activity". *)
Lemma timeout_reason_counterexample :
  heartbeat_fires demo_relay 40000 after_heartbeat
  /\ (WsSend 0 (MsgShutdown "timeout") ∈ trace (monitor_tick demo_relay 40000) after_heartbeat)
  /\ (WsSend 0 (MsgShutdown "no heartbeat") ∉ trace (monitor_tick demo_relay 40000) after_heartbeat)
  /\ inactivity_fires demo_relay 700000 two_clients
  /\ (WsSend 0 (MsgShutdown "timeout") ∈ trace (monitor_tick demo_relay 700000) two_clients)
  /\ (WsSend 0 (MsgShutdown "no activity") ∉ trace (monitor_tick demo_relay 700000) two_clients).
Proof.
  unfold heartbeat_fires, inactivity_fires. repeat split; compute_done.
Qed.

(** The heartbeat timeout 35 seconds after the last heartbeat. *)
Lemma timeout_shutdown_notice_witness :
  NoDup (connectedClients after_heartbeat)
  /\ shuttingDown after_heartbeat = false
  /\ trace (monitor_tick demo_relay 40000) after_heartbeat
     = Log (heartbeat_log demo_relay) :: trace shutdown after_heartbeat
  /\ exists before after,
       trace shutdown after_heartbeat
       = before ++ WsSend 0 (MsgShutdown "timeout") :: WsClose 0 None :: after.
Proof.
  assert (Hnd : NoDup (connectedClients after_heartbeat)) by compute_done.
  assert (Hsd : shuttingDown after_heartbeat = false) by reflexivity.
  destruct (timeout_shutdown_notice demo_relay 40000 after_heartbeat Hnd Hsd)
    as (Hhb & _ & Hsend & _).
  split; [exact Hnd|]. split; [exact Hsd|]. split.
  - apply Hhb. unfold heartbeat_fires. compute_done.
  - apply (Hsend 0%nat); [compute_done | reflexivity].
Defined.

(** C5 as stated fails: an empty line on standard output is not logged,
    and a line on standard error is not followed by a status message,
    though browser 0 is in the set and open. *)
Lemma output_counterexample :
  count_if is_log (trace (on_stdout demo_relay demo_platform trim_ascii 2000 blank_line)
                     two_clients) = 0%nat
  /\ (0%nat ∈ connectedClients two_clients /\ ready_state 0 two_clients = 1)
  /\ count_if is_send (trace (on_stderr trim_ascii 2000 "tun0: link up") two_clients) = 0%nat.
Proof. repeat split; compute_done. Qed.

(** C6 as stated fails: a connection whose X-Forwarded-For header is
    present with the empty string as its value is accepted: added to the
    set, counted as activity and sent the status. *)
Lemma empty_forwarded_header_accepted :
  let m := handler demo_relay demo_platform demo_path trim_ascii 2000 (EvConnection (Some "")) in
  connectedClients (exec m two_clients) = [0; 1; 2]%nat
  /\ lastActivity two_clients = 1000
  /\ lastActivity (exec m two_clients) = 2000
  /\ trace m two_clients
     = [Log "Browser connected";
        WsSend 2 (MsgStatus {| running := true; st_relay := demo_relay;
                               st_platform := demo_platform; st_version := "0.2.3" |})].
Proof. vm_compute. repeat split; reflexivity. Qed.

(** A connection forwarded for 203.0.113.7. *)
Lemma forwarded_connection_rejected_witness :
  let m := handler demo_relay demo_platform demo_path trim_ascii 2000
             (EvConnection (Some "203.0.113.7")) in
  truthy (Some "203.0.113.7") = true
  /\ connectedClients (exec m two_clients) = connectedClients two_clients
  /\ lastActivity (exec m two_clients) = lastActivity two_clients
  /\ trace m two_clients
     = [Log "Rejected connection with X-Forwarded-For header (possible proxy)";
        WsClose 2 (Some (4003, "Forbidden"))].
Proof.
  intros m.
  assert (Ht : truthy (Some "203.0.113.7") = true) by reflexivity.
  destruct (forwarded_connection_rejected demo_relay demo_platform demo_path trim_ascii
              2000 (Some "203.0.113.7") two_clients Ht)
    as (Hc & Ha & _ & _ & Htr & _).
  split; [exact Ht|]. split; [exact Hc|]. split; [exact Ha | exact Htr].
Defined.

(** The message {"type":"ping"}. *)
Lemma unrecognized_message_witness :
  let msg := JObj [("type", JStr "ping")] in
  strict_eq_str (get_type msg) "heartbeat" = false
  /\ strict_eq_str (get_type msg) "status" = false
  /\ on_message demo_relay demo_platform 2000 2000 0 (Some msg) two_clients
     = (tt, set_lastActivity 2000 two_clients, []).
Proof.
  intros msg.
  assert (H1 : strict_eq_str (get_type msg) "heartbeat" = false) by reflexivity.
  assert (H2 : strict_eq_str (get_type msg) "status" = false) by reflexivity.
  split; [exact H1|]. split; [exact H2|].
  exact (proj1 (unrecognized_message_is_activity_only demo_relay demo_platform demo_path
                  trim_ascii 2000 2000 0%nat msg two_clients H1 H2)).
Defined.


(** No network: the first request ends in an error event and the file is
    removed.  A redirect to a relative reference, and a download that
    breaks off: the file stays, and [main] neither reports the failure nor
    goes on. *)
Lemma failed_download_witness :
  let stub : gmap string string := <[demo_path := ""]> ∅ in
  let part : gmap string string := <[demo_path := "ELF"]> ∅ in
  ensureBinary demo_relay demo_platform demo_path net_down ∅
  = (∅,
     opening demo_relay demo_platform demo_path
       ++ requests demo_relay demo_platform net_down 0 1 ++ [FsUnlink demo_path],
     Rejected "Failed to download lan-play: getaddrinfo ENOTFOUND github.com")
  /\ ensureBinary demo_relay demo_platform demo_path net_relative ∅
     = (stub,
        opening demo_relay demo_platform demo_path
          ++ requests demo_relay demo_platform net_relative 0 1,
        Uncaught "Invalid URL")
  /\ stub !! demo_path = Some ""
  /\ (FsUnlink demo_path ∉ opening demo_relay demo_platform demo_path
                             ++ requests demo_relay demo_platform net_relative 0 1)
  /\ ensureBinary demo_relay demo_platform demo_path net_cut ∅
     = (part,
        opening demo_relay demo_platform demo_path
          ++ requests demo_relay demo_platform net_cut 0 1 ++ [FsPipe demo_path "ELF"],
        Stalled)
  /\ part !! demo_path = Some "ELF"
  /\ last (snd (main demo_relay demo_platform demo_path "/opt" net_relative 0 ∅ (init_state 0)))
     = Some (UncaughtException "Invalid URL")
  /\ fst (main demo_relay demo_platform demo_path "/opt" net_relative 0 ∅ (init_state 0))
     = (stub, init_state 0).
Proof.
  intros stub part.
  destruct (failed_download_leaves_file demo_relay demo_platform demo_path net_down ∅)
    as (_ & Herr & _).
  destruct (failed_download_leaves_file demo_relay demo_platform demo_path net_relative ∅)
    as (_ & _ & Hthrown & _).
  destruct (failed_download_leaves_file demo_relay demo_platform demo_path net_cut ∅)
    as (_ & _ & _ & Hcut).
  assert (Hnone : (∅ : gmap string string) !! demo_path = None) by apply lookup_empty.
  assert (H0 : forall net, redirected demo_relay demo_platform net 0)
    by (intros net j Hj; lia).
  assert (Hle : (0 <= 5)%nat) by lia.
  assert (Hlt : (0 < 5)%nat) by lia.
  destruct (Hthrown Hnone 0%nat
              {| statusCode := 302; location := Some "/releases/lan-play-linux"; body := "" |}
              "Invalid URL" Hlt (H0 _) eq_refl eq_refl) as (Hrun1 & Hno1 & Hfile1).
  destruct (Hcut Hnone 0%nat
              {| statusCode := 200; location := None; body := "ELF and the rest" |}
              "ELF" Hle (H0 _) eq_refl eq_refl eq_refl) as (Hrun2 & _ & Hfile2).
  split; [exact (Herr Hnone 0%nat _ Hle (H0 _) eq_refl)|].
  split; [exact Hrun1|]. split; [exact Hfile1|]. split; [exact Hno1|].
  split; [exact Hrun2|]. split; [exact Hfile2|].
  unfold main. rewrite Hrun1. split; reflexivity.
Defined.

(** A start at load, its banner on standard output, a crash at 200 ms and
    the restart at 3200 ms, with nothing observed after it: the ten
    minutes count from 3200 ms. *)
Lemma inactivity_from_last_start_witness :
  let pre := [(0, EvMain); (100, EvStdout "lan-play 0.2.3"); (200, EvProcClose (Some 1))] in
  let post := [(3200, EvTimer 0); (10000, EvTick)] in
  let w1 := fst (run demo_relay demo_platform demo_path trim_ascii pre (init_world 0)) in
  let w := fst (run demo_relay demo_platform demo_path trim_ascii (pre ++ post) (init_world 0)) in
  Forall (fun te => is_heartbeat (snd te) = false) pre
  /\ Forall (fun te => quiet (snd te) = true) post
  /\ starts_child demo_relay demo_platform demo_path trim_ascii post w1
  /\ last_start demo_relay demo_platform demo_path trim_ascii 0 (pre ++ post) (init_world 0)
     = 3200
  /\ lastActivity (prog w) = 3200
  /\ shuttingDown (prog w) = false
  /\ monitor_tick demo_relay 603200 (prog w) = (tt, prog w, [])
  /\ trace (monitor_tick demo_relay 603201) (prog w)
     = [Log "No activity for 10 minutes."; Log "Shutting down..."; Kill 1;
        SetTimeout TExit 1000]
  /\ shuttingDown (exec (monitor_tick demo_relay 603201) (prog w)) = true
  /\ (forall t, inactivity_fires demo_relay t (prog w) <-> t - 3200 > 600000).
Proof.
  intros pre post w1 w.
  assert (Hpre : Forall (fun te => is_heartbeat (snd te) = false) pre) by (repeat constructor).
  assert (Hq : Forall (fun te => quiet (snd te) = true) post) by (repeat constructor).
  assert (Hs : starts_child demo_relay demo_platform demo_path trim_ascii post w1)
    by reflexivity.
  destruct (inactivity_from_last_start demo_relay demo_platform demo_path trim_ascii 0 pre post)
    as (_ & _ & _ & _ & Hlast).
  destruct (Hlast Hpre Hq (or_intror Hs)) as (Hact & Htick).
  assert (Hstart : last_start demo_relay demo_platform demo_path trim_ascii 0 (pre ++ post)
                     (init_world 0) = 3200) by reflexivity.
  assert (Hsd : shuttingDown (prog w) = false) by reflexivity.
  destruct (Htick 603200 Hsd) as (_ & _ & Hquiet).
  destruct (Htick 603201 Hsd) as (_ & Hfire & _).
  rewrite Hstart in Hact, Hquiet, Hfire.
  destruct (Hfire ltac:(lia)) as (_ & Hdown & Htrace).
  split; [exact Hpre|]. split; [exact Hq|]. split; [exact Hs|]. split; [exact Hstart|].
  split; [exact Hact|]. split; [exact Hsd|]. split; [apply Hquiet; lia|].
  split; [etransitivity; [exact Htrace | reflexivity]|]. split; [exact Hdown|].
  intros t. rewrite <- Hstart. apply (Htick t Hsd).
Defined.

(** ** The further properties at concrete inputs *)

Lemma two_clients_wf : heap_wf two_clients.
Proof.
  split; [compute_done|]. split.
  - intros ws Hin. apply elem_of_cons in Hin as [->|Hin]; [reflexivity|].
    apply list_elem_of_singleton in Hin. subst ws. reflexivity.
  - intros ws Hge. cbn in Hge. cbn [sockets two_clients].
    rewrite !lookup_insert_ne by lia. apply lookup_empty.
Qed.


(** Two redirects, then the file: [main] starts the first child. *)
Lemma main_starts_child_witness :
  let r := main demo_relay demo_platform demo_path "/opt" net_two_hops 7 ∅ (init_state 0) in
  snd (ensureBinary demo_relay demo_platform demo_path net_two_hops ∅) = Resolved
  /\ is_Some (fst (fst r) !! demo_path)
  /\ lanPlayProc (snd (fst r)) = Some {| pid := 0; killed := false |}
  /\ lanPlayRunning (snd (fst r)) = true
  /\ lastActivity (snd (fst r)) = 7.
Proof.
  intros r.
  assert (H : snd (ensureBinary demo_relay demo_platform demo_path net_two_hops ∅)
              = Resolved) by reflexivity.
  destruct (main_starts_child demo_relay demo_platform demo_path "/opt"
              net_two_hops 7 ∅ (init_state 0) H) as (Hfs & Hp & Hr & Ha & _).
  split; [exact H|]. split; [exact Hfs|]. split; [exact Hp|]. split; [exact Hr | exact Ha].
Defined.

(** Socket 1 of [two_clients] is closing: output of the child and a
    heartbeat of its own get it nothing. *)
Lemma never_sent_unless_open_witness :
  let w := {| prog := two_clients; timers := []; exited := None |} in
  let evs := [(2000, EvStdout "hello"); (3000, EvMessage 1 (Some heartbeat_msg) 3001);
              (4000, EvProcClose (Some 0))] in
  (1 < nextSocket (prog w))%nat
  /\ ready_state 1 (prog w) ≠ 1
  /\ ready_state 1 (prog (fst (run demo_relay demo_platform demo_path trim_ascii evs w))) ≠ 1
  /\ count_if (sent_to 1) (snd (run demo_relay demo_platform demo_path trim_ascii evs w))
     = 0%nat.
Proof.
  intros w evs.
  assert (Hn : (1 < nextSocket (prog w))%nat) by (cbn; lia).
  assert (Hr : ready_state 1 (prog w) ≠ 1) by (vm_compute; discriminate).
  destruct (never_sent_unless_open demo_relay demo_platform demo_path trim_ascii
              1 w evs Hn Hr) as [Hr' Hc].
  split; [exact Hn|]. split; [exact Hr|]. split; [exact Hr' | exact Hc].
Defined.

(** From startup: a browser, a proxied request, and the browser's
    disconnection. *)
Lemma connection_set_invariant_witness :
  let evs := [(0, EvMain); (100, EvConnection None);
              (200, EvConnection (Some "203.0.113.7")); (300, EvWsClose 0)] in
  let s' := prog (fst (run demo_relay demo_platform demo_path trim_ascii evs (init_world 0))) in
  heap_wf (prog (init_world 0))
  /\ NoDup (connectedClients s')
  /\ (forall ws, ws ∈ connectedClients s' ->
        is_listening ws s' = true /\ (ws < nextSocket s')%nat).
Proof.
  intros evs s'.
  assert (H : heap_wf (prog (init_world 0))).
  { split; [constructor|]. split.
    - intros ws Hin. apply elem_of_nil in Hin. destruct Hin.
    - intros ws _. apply lookup_empty. }
  destruct (connection_set_invariant demo_relay demo_platform demo_path trim_ascii
              (init_world 0) evs H) as (Hnd & Hmem & _).
  split; [exact H|]. split; [exact Hnd | exact Hmem].
Defined.

(** A third browser joins [two_clients] and leaves again. *)
Lemma connect_then_disconnect_witness :
  let s1 := exec (handler demo_relay demo_platform demo_path trim_ascii 2000
                    (EvConnection None)) two_clients in
  let s2 := exec (handler demo_relay demo_platform demo_path trim_ascii 3000
                    (EvWsClose 2)) s1 in
  heap_wf two_clients
  /\ truthy None = false
  /\ (2%nat ∈ connectedClients s1)
  /\ connectedClients s2 = [0%nat; 1%nat]
  /\ lastActivity s2 = 2000.
Proof.
  intros s1 s2.
  assert (Hf : truthy None = false) by reflexivity.
  destruct (connect_then_disconnect demo_relay demo_platform demo_path trim_ascii
              2000 3000 None two_clients two_clients_wf Hf)
    as (_ & Hin & _ & _ & Hset & _ & Hact).
  split; [exact two_clients_wf|]. split; [exact Hf|]. split; [exact Hin|].
  split; [exact Hset | exact Hact].
Defined.

(** The heartbeat timeout trips at 40 s; the child prints and exits
    afterwards. *)
Lemma silent_after_shutdown_witness :
  let w := {| prog := after_heartbeat; timers := []; exited := None |} in
  let w1 := fst (step demo_relay demo_platform demo_path trim_ascii 40000 EvTick w) in
  let evs := [(40100, EvStdout "late"); (40200, EvProcClose None)] in
  heap_wf (prog w)
  /\ shuttingDown (prog w) = false
  /\ shuttingDown (prog w1) = true
  /\ (0%nat ∈ connectedClients (prog w))
  /\ ready_state 0 (prog w1) ≠ 1
  /\ count_if (sent_to 0)
       (snd (run demo_relay demo_platform demo_path trim_ascii evs w1)) = 0%nat.
Proof.
  intros w w1 evs.
  assert (Hwf : heap_wf (prog w)) by exact two_clients_wf.
  assert (Hsd : shuttingDown (prog w) = false) by reflexivity.
  assert (Hdown : shuttingDown (prog w1) = true) by reflexivity.
  assert (Hin : 0%nat ∈ connectedClients (prog w)) by compute_done.
  destruct (silent_after_shutdown demo_relay demo_platform demo_path trim_ascii
              40000 EvTick w evs 0 Hwf Hsd Hdown Hin) as (Hr & _ & Hc).
  split; [exact Hwf|]. split; [exact Hsd|]. split; [exact Hdown|]. split; [exact Hin|].
  split; [exact Hr | exact Hc].
Defined.

(** A heartbeat at 10 s; the tick at 40 s comes 29999 ms after it. *)
Lemma heartbeat_keeps_alive_witness :
  let evs1 := [(0, EvMain); (100, EvConnection None)] in
  let beat := (10000, EvMessage 0 (Some heartbeat_msg) 10001) in
  let evs2 := [(15000, EvTick); (20000, EvStdout "x")] in
  let w1 := fst (run demo_relay demo_platform demo_path trim_ascii evs1 (init_world 0)) in
  let w2 := fst (run demo_relay demo_platform demo_path trim_ascii
                   (evs1 ++ beat :: evs2) (init_world 0)) in
  monotone 0 (evs1 ++ beat :: evs2)
  /\ strict_eq_str (get_type heartbeat_msg) "heartbeat" = true
  /\ exited w1 = None
  /\ is_listening 0 (prog w1) = true
  /\ ready_state 0 (prog w1) ≠ 3
  /\ 40000 - 10001 <= heartbeatTimeoutMs (CONFIG demo_relay)
  /\ 40000 - 10000 <= inactivityTimeoutMs (CONFIG demo_relay)
  /\ monitor_tick demo_relay 40000 (prog w2) = (tt, prog w2, []).
Proof.
  intros evs1 beat evs2 w1 w2.
  assert (Hm : monotone 0 (evs1 ++ beat :: evs2)).
  { unfold evs1, beat, evs2. cbn [app monotone]. unfold sane_clock, clock_after.
    cbn [fst snd]. repeat split; lia. }
  assert (Hty : strict_eq_str (get_type heartbeat_msg) "heartbeat" = true) by reflexivity.
  assert (Hex : exited w1 = None) by reflexivity.
  assert (Hl : is_listening 0 (prog w1) = true) by reflexivity.
  assert (Hr : ready_state 0 (prog w1) ≠ 3) by (vm_compute; discriminate).
  assert (Hb : 40000 - 10001 <= heartbeatTimeoutMs (CONFIG demo_relay)) by (cbn; lia).
  assert (Ha : 40000 - 10000 <= inactivityTimeoutMs (CONFIG demo_relay)) by (cbn; lia).
  pose proof (heartbeat_keeps_alive demo_relay demo_platform demo_path trim_ascii
                0 (init_world 0) evs1 evs2 10000 10001 40000 0 heartbeat_msg
                Hm Hty Hex Hl Hr Hb Ha) as Htick.
  split; [exact Hm|]. split; [exact Hty|]. split; [exact Hex|]. split; [exact Hl|].
  split; [exact Hr|]. split; [exact Hb|]. split; [exact Ha | exact Htick].
Defined.

(** Ctrl-C at 40 s: the process exits at 41 s and not at 40.5 s. *)
Lemma exit_after_shutdown_witness :
  let w := {| prog := after_heartbeat; timers := []; exited := None |} in
  let w1 := fst (step demo_relay demo_platform demo_path trim_ascii 40000 (EvSignal SIGINT) w) in
  NoDup (connectedClients (prog w))
  /\ shuttingDown (prog w) = false
  /\ shuttingDown (prog w1) = true
  /\ timers w1 = [(41000, TExit)]
  /\ step demo_relay demo_platform demo_path trim_ascii 40500 (EvTimer 0) w1 = (w1, [])
  /\ snd (step demo_relay demo_platform demo_path trim_ascii 41000 (EvTimer 0) w1)
     = [Log "Goodbye."; Exit 0].
Proof.
  intros w w1.
  assert (Hnd : NoDup (connectedClients (prog w))) by compute_done.
  assert (Hsd : shuttingDown (prog w) = false) by reflexivity.
  assert (Hdown : shuttingDown (prog w1) = true) by reflexivity.
  destruct (exit_after_shutdown demo_relay demo_platform demo_path trim_ascii
              40000 (EvSignal SIGINT) w 40500 [] Hnd Hsd Hdown) as (_ & Ht & Hearly & _).
  destruct (exit_after_shutdown demo_relay demo_platform demo_path trim_ascii
              40000 (EvSignal SIGINT) w 41000 [] Hnd Hsd Hdown) as (_ & _ & _ & Hdue).
  assert (H1 : 40500 < 40000 + 1000) by lia.
  assert (H2 : 40000 + 1000 <= 41000) by lia.
  split; [exact Hnd|]. split; [exact Hsd|]. split; [exact Hdown|].
  split; [exact Ht|]. split; [exact (Hearly H1)|].
  exact (proj1 (Hdue H2)).
Defined.

(** Of the two browsers of [two_clients], the open one is told once and
    the closing one is not told. *)
Lemma status_reaches_open_members_witness :
  NoDup (connectedClients two_clients)
  /\ count_if (sent_to 0) (trace (broadcastStatus demo_relay demo_platform) two_clients)
     = 1%nat
  /\ count_if (sent_to 1)
       (trace (on_proc_close demo_relay demo_platform (Some 1)) two_clients) = 0%nat.
Proof.
  assert (Hnd : NoDup (connectedClients two_clients)) by compute_done.
  destruct (status_reaches_open_members demo_relay demo_platform demo_path trim_ascii
              two_clients 0 0 "x" None Hnd) as ([H0 _] & _).
  destruct (status_reaches_open_members demo_relay demo_platform demo_path trim_ascii
              two_clients 1 0 "x" (Some 1) Hnd) as (_ & _ & _ & [H1 _]).
  split; [exact Hnd|]. split; [exact H0 | exact H1].
Defined.
